(** * pilgram.modifiers: the modifier registry, generation rule and
      apply pipeline, embedded from [src/pilgram/modifiers.py].

    Python integers are [Z]; Python floats are IEEE 754 binary64 values,
    taken from the Standard Library's [SpecFloat] with [prec = 53] and
    [emax = 1024]; a raised exception is the [Raise] case of [result]. *)

From Stdlib Require Import ZArith Lia Bool Ascii String List.
From Stdlib Require Import Floats.SpecFloat.
From stdpp Require Import base option list gmap strings pretty.

Local Open Scope string_scope.
Local Open Scope list_scope.
Local Open Scope Z_scope.

(** ** Exceptions and the result of a call *)

Inductive exn : Type :=
  | IndexError
  | KeyError
  | ZeroDivisionError
  | OverflowError
  | ValueError
  | AttributeError
  | TypeError
  | NotImplementedError.

(** [IndexError] and [KeyError] are the two subclasses of [LookupError]. *)
Definition is_LookupError (e : exn) : bool :=
  match e with
  | IndexError | KeyError => true
  | _ => false
  end.

Inductive result (A : Type) : Type :=
  | Return (a : A)
  | Raise (e : exn).
Arguments Return {A} a.
Arguments Raise {A} e.

Definition bind {A B : Type} (r : result A) (k : A -> result B) : result B :=
  match r with
  | Return a => k a
  | Raise e => Raise e
  end.

Declare Scope py_scope.
Delimit Scope py_scope with py.
Notation "'let*' x ':=' c 'in' k" := (bind c (fun x => k))
  (at level 10, x pattern, c at level 100, k at level 200) : py_scope.
Local Open Scope py_scope.

(** ** Python numbers *)

Module PyFloat.

Definition prec : Z := 53.
Definition emax : Z := 1024.

(** [float(z)]: the binary64 nearest to [z], ties to even;
    [OverflowError] when it is out of range. *)
Definition of_int (z : Z) : result spec_float :=
  match binary_normalize prec emax z 0 false with
  | S754_infinity _ => Raise OverflowError
  | f => Return f
  end.

(** An integer as an exact (not yet rounded) mantissa with exponent 0. *)
Definition exact_int (z : Z) : spec_float :=
  match z with
  | Z0 => S754_zero false
  | Zpos p => S754_finite false p 0
  | Zneg p => S754_finite true p 0
  end.

(** [a / b] on two ints: the correctly rounded quotient. *)
Definition int_truediv (a b : Z) : result spec_float :=
  if Z.eqb b 0 then Raise ZeroDivisionError
  else match SFdiv prec emax (exact_int a) (exact_int b) with
       | S754_infinity _ => Raise OverflowError
       | f => Return f
       end.

Definition is_zero (f : spec_float) : bool :=
  match f with
  | S754_zero _ => true
  | _ => false
  end.

(** [x / y] on two floats. *)
Definition truediv (x y : spec_float) : result spec_float :=
  if is_zero y then Raise ZeroDivisionError
  else Return (SFdiv prec emax x y).

(** [x * y] on two floats. *)
Definition mul (x y : spec_float) : spec_float := SFmul prec emax x y.

(** [int(f)]: truncation toward zero. *)
Definition to_int (f : spec_float) : result Z :=
  match f with
  | S754_zero _ => Return 0
  | S754_finite s m e =>
      let v := match e with
               | Z0 => Zpos m
               | Zpos _ => Z.shiftl (Zpos m) e
               | Zneg p => Z.shiftr (Zpos m) (Zpos p)
               end in
      Return (if s then - v else v)
  | S754_infinity _ => Raise OverflowError
  | S754_nan => Raise ValueError
  end.

(** A decimal literal [n/d] of the source, as the parser reads it: the
    binary64 nearest to the written value. *)
Definition literal (n d : Z) : spec_float :=
  SFdiv prec emax (exact_int n) (exact_int d).

End PyFloat.

(** A class attribute typed [int | float]. *)
Inductive number : Type :=
  | PyInt (z : Z)
  | PyFloat (f : spec_float).

(** [a / n] for an int [a]. *)
Definition int_div_number (a : Z) (n : number) : result spec_float :=
  match n with
  | PyInt b => PyFloat.int_truediv a b
  | PyFloat y => let* x := PyFloat.of_int a in PyFloat.truediv x y
  end.

(** [a * f] for an int [a] and a float [f]. *)
Definition int_mul_float (a : Z) (f : spec_float) : result spec_float :=
  let* x := PyFloat.of_int a in Return (PyFloat.mul x f).

(** ** Lists and strings as Python has them *)

(** [l[i]]: a negative index counts from the end; out of range raises. *)
Definition py_list_get {A : Type} (l : list A) (i : Z) : result A :=
  let n := Z.of_nat (length l) in
  let j := if Z.ltb i 0 then i + n else i in
  if Z.ltb j 0 then Raise IndexError
  else match l !! Z.to_nat j with
       | Some a => Return a
       | None => Raise IndexError
       end.

(** [d[k]] on a dict. *)
Definition py_dict_get {A : Type} (d : gmap string A) (k : string) : result A :=
  match d !! k with
  | Some a => Return a
  | None => Raise KeyError
  end.

Module PyStr.

Definition upper (c : ascii) : ascii :=
  let n := nat_of_ascii c in
  if andb (Nat.leb 97 n) (Nat.leb n 122) then ascii_of_nat (n - 32) else c.

Definition lower (c : ascii) : ascii :=
  let n := nat_of_ascii c in
  if andb (Nat.leb 65 n) (Nat.leb n 90) then ascii_of_nat (n + 32) else c.

Fixpoint map_chars (f : ascii -> ascii) (s : string) : string :=
  match s with
  | EmptyString => EmptyString
  | String c r => String (f c) (map_chars f r)
  end.

(** [s.capitalize()] *)
Definition capitalize (s : string) : string :=
  match s with
  | EmptyString => EmptyString
  | String c r => String (upper c) (map_chars lower r)
  end.

End PyStr.

(** ** The enumerations *)

Module ModifierType.
Definition COMBAT_START : Z := 0.
Definition PRE_ATTACK : Z := 1.
Definition PRE_DEFEND : Z := 2.
Definition MID_ATTACK : Z := 3.
Definition MID_DEFEND : Z := 4.
Definition POST_ATTACK : Z := 5.
Definition POST_DEFEND : Z := 6.
Definition REWARDS : Z := 7.
Definition MODIFY_MAX_HP : Z := 8.
Definition TURN_START : Z := 9.
End ModifierType.

Module Rarity.
Definition COMMON : Z := 0.
Definition UNCOMMON : Z := 1.
Definition RARE : Z := 2.
Definition LEGENDARY : Z := 3.
End Rarity.

(** ** Class objects

    A class object carries the class attributes that [Modifier] and its
    subclasses declare.  An attribute that is only annotated ([ID: int],
    [TYPE: int], [SCALING], [NAME], [DAMAGE_TYPE]) does not exist until it
    is assigned: [None] is the absent attribute.  [RARITY] exists on
    [Modifier] with the value [None].  The display texts ([DESCRIPTION],
    [__str__]) are left out.  A subclass starts from the attributes of its
    base, which is how attribute lookup through the base resolves while no
    base is assigned to after it has been subclassed. *)

(** Which [__init_subclass__] a class hands to its subclasses. *)
Inductive init_hook : Type :=
  | Modifier_hook
  | GenericDamageMult_hook
  | GenericDamageBonus_hook
  | GenericDamageAbsorb_hook.

Record class_obj : Type := Build_class {
  qualname : string;
  hook : init_hook;
  ID : option Z;
  RARITY : option Z;
  TYPE : option Z;
  OP_ORDERING : Z;
  MAX_STRENGTH : Z;
  MIN_STRENGTH : Z;
  SCALING : option number;
  NAME : option string;
  DAMAGE_TYPE : option string
}.

(** One assignment in a class body, or by [cls.X = ...]. *)
Inductive attr : Type :=
  | set_hook (h : init_hook)
  | set_ID (z : Z)
  | set_RARITY (z : Z)
  | set_TYPE (z : option Z)
  | set_OP_ORDERING (z : Z)
  | set_MAX_STRENGTH (z : Z)
  | set_MIN_STRENGTH (z : Z)
  | set_SCALING (n : number)
  | set_NAME (s : string)
  | set_DAMAGE_TYPE (s : string).

Definition assign (c : class_obj) (a : attr) : class_obj :=
  let '(Build_class q h i r t o mx mn sc nm dt) := c in
  match a with
  | set_hook h' => Build_class q h' i r t o mx mn sc nm dt
  | set_ID z => Build_class q h (Some z) r t o mx mn sc nm dt
  | set_RARITY z => Build_class q h i (Some z) t o mx mn sc nm dt
  | set_TYPE z => Build_class q h i r z o mx mn sc nm dt
  | set_OP_ORDERING z => Build_class q h i r t z mx mn sc nm dt
  | set_MAX_STRENGTH z => Build_class q h i r t o z mn sc nm dt
  | set_MIN_STRENGTH z => Build_class q h i r t o mx z sc nm dt
  | set_SCALING n => Build_class q h i r t o mx mn (Some n) nm dt
  | set_NAME s => Build_class q h i r t o mx mn sc (Some s) dt
  | set_DAMAGE_TYPE s => Build_class q h i r t o mx mn sc nm (Some s)
  end.

(** The abstract base class. *)
Definition Modifier : class_obj :=
  {| qualname := "Modifier"; hook := Modifier_hook;
     ID := None; RARITY := None; TYPE := None;
     OP_ORDERING := 0; MAX_STRENGTH := 0; MIN_STRENGTH := 1;
     SCALING := None; NAME := None; DAMAGE_TYPE := None |}.

(** ** The module state: the class objects and the three indices

    [_LIST], [_RARITY_INDEX] and [_NAME_LUT] hold references to class
    objects; a reference is the qualified name of the class. *)

Record module_state : Type := Build_state {
  classes : gmap string class_obj;
  _LIST : list string;
  _RARITY_INDEX : gmap Z (list string);
  _NAME_LUT : gmap string string
}.

Definition initial_state : module_state :=
  {| classes := {[ "Modifier" := Modifier ]};
     _LIST := [];
     _RARITY_INDEX := {[ 0 := []; 1 := []; 2 := []; 3 := [] ]};
     _NAME_LUT := ∅ |}.

Definition class_of (st : module_state) (cls : string) : result class_obj :=
  match classes st !! cls with
  | Some c => Return c
  | None => Raise AttributeError
  end.

(** [cls.X = v] *)
Definition setattr (cls : string) (a : attr) (st : module_state)
  : result module_state :=
  let* c := class_of st cls in
  Return {| classes := <[cls := assign c a]> (classes st);
            _LIST := _LIST st;
            _RARITY_INDEX := _RARITY_INDEX st;
            _NAME_LUT := _NAME_LUT st |}.

(** [Modifier.__init_subclass__(cls, rarity)] *)
Definition Modifier__init_subclass__ (cls : string) (rarity : option Z)
    (st : module_state) : result module_state :=
  match rarity with
  | None => Return st
  | Some r =>
      let modifier_id := Z.of_nat (length (_LIST st)) in
      let* st := setattr cls (set_ID modifier_id) st in
      let* st := setattr cls (set_RARITY r) st in
      let lst := _LIST st ++ [cls] in
      match _RARITY_INDEX st !! r with
      | None => Raise KeyError
      | Some bucket =>
          let idx := <[r := bucket ++ [cls]]> (_RARITY_INDEX st) in
          let* c := class_of st cls in
          match NAME c with
          | None => Raise AttributeError
          | Some name =>
              Return {| classes := classes st;
                        _LIST := lst;
                        _RARITY_INDEX := idx;
                        _NAME_LUT := <[name := cls]> (_NAME_LUT st) |}
          end
      end
  end.

(** The keyword arguments of a class statement. *)
Record kwargs : Type := {
  kw_rarity : option Z;
  kw_dmg_type : option string;
  kw_mod_type : option Z
}.

Definition no_kwargs : kwargs :=
  {| kw_rarity := None; kw_dmg_type := None; kw_mod_type := None |}.
Definition rarity_kw (r : Z) : kwargs :=
  {| kw_rarity := Some r; kw_dmg_type := None; kw_mod_type := None |}.
Definition dmg_kw (d : string) (m : Z) : kwargs :=
  {| kw_rarity := None; kw_dmg_type := Some d; kw_mod_type := Some m |}.
Definition absorb_kw (d : string) : kwargs :=
  {| kw_rarity := None; kw_dmg_type := Some d; kw_mod_type := None |}.

(** [_GenericDamageMult.__init_subclass__] *)
Definition GenericDamageMult__init_subclass__ (cls : string) (kw : kwargs)
    (st : module_state) : result module_state :=
  match kw_dmg_type kw with
  | None => Raise ValueError
  | Some dmg_type =>
      let name := PyStr.capitalize dmg_type +:+ " " +:+
        (if decide (kw_mod_type kw = Some ModifierType.PRE_ATTACK)
         then "Affinity" else "Resistant") in
      let* st := setattr cls (set_NAME name) st in
      let* st := Modifier__init_subclass__ cls (Some Rarity.COMMON) st in
      let* st := setattr cls (set_DAMAGE_TYPE dmg_type) st in
      setattr cls (set_TYPE (kw_mod_type kw)) st
  end.

(** [_GenericDamageBonus.__init_subclass__] *)
Definition GenericDamageBonus__init_subclass__ (cls : string) (kw : kwargs)
    (st : module_state) : result module_state :=
  match kw_dmg_type kw with
  | None => Raise ValueError
  | Some dmg_type =>
      let name := PyStr.capitalize dmg_type +:+ " " +:+
        (if decide (kw_mod_type kw = Some ModifierType.PRE_ATTACK)
         then "Optimized" else "shielded") in
      let* st := setattr cls (set_NAME name) st in
      let* st := Modifier__init_subclass__ cls (Some Rarity.COMMON) st in
      let* st := setattr cls (set_DAMAGE_TYPE dmg_type) st in
      setattr cls (set_TYPE (kw_mod_type kw)) st
  end.

(** [_GenericDamageAbsorb.__init_subclass__] *)
Definition GenericDamageAbsorb__init_subclass__ (cls : string) (kw : kwargs)
    (st : module_state) : result module_state :=
  match kw_dmg_type kw with
  | None => Raise ValueError
  | Some dmg_type =>
      let name := PyStr.capitalize dmg_type +:+ " Absorption" in
      let* st := setattr cls (set_NAME name) st in
      let* st := Modifier__init_subclass__ cls (Some Rarity.UNCOMMON) st in
      setattr cls (set_DAMAGE_TYPE dmg_type) st
  end.

(** A class statement: [class name(base, **kw): body]. *)
Record class_stmt : Type := class_ {
  c_name : string;
  c_base : string;
  c_kw : kwargs;
  c_body : list attr
}.

(** The class object that a class statement creates: the attributes of
    the base, then the assignments of the body. *)
Definition new_class (s : class_stmt) (base : class_obj) : class_obj :=
  fold_left assign (c_body s)
    (Build_class (c_name s) (hook base) (ID base) (RARITY base) (TYPE base)
       (OP_ORDERING base) (MAX_STRENGTH base) (MIN_STRENGTH base)
       (SCALING base) (NAME base) (DAMAGE_TYPE base)).

(** Executing a class statement: the class object is built, and the
    [__init_subclass__] of the base runs on it with the keyword arguments.
    [Modifier.__init_subclass__] takes [rarity] only, so any other keyword
    is a [TypeError]. *)
Definition exec_class (s : class_stmt) (st : module_state)
  : result module_state :=
  let* base := class_of st (c_base s) in
  let c := new_class s base in
  let st := {| classes := <[c_name s := c]> (classes st);
               _LIST := _LIST st;
               _RARITY_INDEX := _RARITY_INDEX st;
               _NAME_LUT := _NAME_LUT st |} in
  match hook base with
  | Modifier_hook =>
      match kw_dmg_type (c_kw s), kw_mod_type (c_kw s) with
      | None, None => Modifier__init_subclass__ (c_name s) (kw_rarity (c_kw s)) st
      | _, _ => Raise TypeError
      end
  | GenericDamageMult_hook => GenericDamageMult__init_subclass__ (c_name s) (c_kw s) st
  | GenericDamageBonus_hook => GenericDamageBonus__init_subclass__ (c_name s) (c_kw s) st
  | GenericDamageAbsorb_hook => GenericDamageAbsorb__init_subclass__ (c_name s) (c_kw s) st
  end.

Fixpoint exec_module (body : list class_stmt) (st : module_state)
  : result module_state :=
  match body with
  | [] => Return st
  | s :: rest => let* st := exec_class s st in exec_module rest st
  end.

(** ** The module body

    The class statements of the source file in the order they execute; a
    nested class executes while the body of its outer class does, so before
    the outer class exists. *)

Definition module_body : list class_stmt := [
  class_ "_GenericDamageMult" "Modifier" no_kwargs
    [set_MAX_STRENGTH 100; set_MIN_STRENGTH 1; set_SCALING (PyInt 2);
     set_hook GenericDamageMult_hook];
  class_ "_GenericDamageBonus" "Modifier" no_kwargs
    [set_MAX_STRENGTH 0; set_MIN_STRENGTH 1; set_SCALING (PyInt 2);
     set_OP_ORDERING 1; set_hook GenericDamageBonus_hook];
  class_ "_GenericDamageAbsorb" "Modifier" no_kwargs
    [set_TYPE (Some ModifierType.MID_DEFEND); set_MAX_STRENGTH 100;
     set_MIN_STRENGTH 1; set_SCALING (PyInt 2);
     set_hook GenericDamageAbsorb_hook];
  class_ "SlashAttackMult" "_GenericDamageMult" (dmg_kw "slash" ModifierType.PRE_ATTACK) [];
  class_ "PierceAttackMult" "_GenericDamageMult" (dmg_kw "pierce" ModifierType.PRE_ATTACK) [];
  class_ "BluntAttackAttackMult" "_GenericDamageMult" (dmg_kw "blunt" ModifierType.PRE_ATTACK) [];
  class_ "OccultAttackMult" "_GenericDamageMult" (dmg_kw "occult" ModifierType.PRE_ATTACK) [];
  class_ "FireAttackMult" "_GenericDamageMult" (dmg_kw "fire" ModifierType.PRE_ATTACK) [];
  class_ "AcidAttackMult" "_GenericDamageMult" (dmg_kw "acid" ModifierType.PRE_ATTACK) [];
  class_ "FreezeAttackMult" "_GenericDamageMult" (dmg_kw "freeze" ModifierType.PRE_ATTACK) [];
  class_ "ElectricAttackMult" "_GenericDamageMult" (dmg_kw "electric" ModifierType.PRE_ATTACK) [];
  class_ "SlashDefendMult" "_GenericDamageMult" (dmg_kw "slash" ModifierType.PRE_DEFEND) [];
  class_ "PierceDefendMult" "_GenericDamageMult" (dmg_kw "pierce" ModifierType.PRE_DEFEND) [];
  class_ "BluntDefendAttackMult" "_GenericDamageMult" (dmg_kw "blunt" ModifierType.PRE_DEFEND) [];
  class_ "OccultDefendMult" "_GenericDamageMult" (dmg_kw "occult" ModifierType.PRE_DEFEND) [];
  class_ "FireDefendMult" "_GenericDamageMult" (dmg_kw "fire" ModifierType.PRE_DEFEND) [];
  class_ "AcidDefendMult" "_GenericDamageMult" (dmg_kw "acid" ModifierType.PRE_DEFEND) [];
  class_ "FreezeDefendMult" "_GenericDamageMult" (dmg_kw "freeze" ModifierType.PRE_DEFEND) [];
  class_ "ElectricDefendMult" "_GenericDamageMult" (dmg_kw "electric" ModifierType.PRE_DEFEND) [];
  class_ "SlashAttackBonus" "_GenericDamageBonus" (dmg_kw "slash" ModifierType.PRE_ATTACK) [];
  class_ "PierceAttackBonus" "_GenericDamageBonus" (dmg_kw "pierce" ModifierType.PRE_ATTACK) [];
  class_ "BluntAttackAttackBonus" "_GenericDamageBonus" (dmg_kw "blunt" ModifierType.PRE_ATTACK) [];
  class_ "OccultAttackBonus" "_GenericDamageBonus" (dmg_kw "occult" ModifierType.PRE_ATTACK) [];
  class_ "FireAttackBonus" "_GenericDamageBonus" (dmg_kw "fire" ModifierType.PRE_ATTACK) [];
  class_ "AcidAttackBonus" "_GenericDamageBonus" (dmg_kw "acid" ModifierType.PRE_ATTACK) [];
  class_ "FreezeAttackBonus" "_GenericDamageBonus" (dmg_kw "freeze" ModifierType.PRE_ATTACK) [];
  class_ "ElectricAttackBonus" "_GenericDamageBonus" (dmg_kw "electric" ModifierType.PRE_ATTACK) [];
  class_ "SlashDefendBonus" "_GenericDamageBonus" (dmg_kw "slash" ModifierType.PRE_DEFEND) [];
  class_ "PierceDefendBonus" "_GenericDamageBonus" (dmg_kw "pierce" ModifierType.PRE_DEFEND) [];
  class_ "BluntDefendAttackBonus" "_GenericDamageBonus" (dmg_kw "blunt" ModifierType.PRE_DEFEND) [];
  class_ "OccultDefendBonus" "_GenericDamageBonus" (dmg_kw "occult" ModifierType.PRE_DEFEND) [];
  class_ "FireDefendBonus" "_GenericDamageBonus" (dmg_kw "fire" ModifierType.PRE_DEFEND) [];
  class_ "AcidDefendBonus" "_GenericDamageBonus" (dmg_kw "acid" ModifierType.PRE_DEFEND) [];
  class_ "FreezeDefendBonus" "_GenericDamageBonus" (dmg_kw "freeze" ModifierType.PRE_DEFEND) [];
  class_ "ElectricDefendBonus" "_GenericDamageBonus" (dmg_kw "electric" ModifierType.PRE_DEFEND) [];
  class_ "FirstHitBonus" "Modifier" (rarity_kw Rarity.UNCOMMON)
    [set_TYPE (Some ModifierType.PRE_ATTACK); set_OP_ORDERING 1;
     set_MAX_STRENGTH 0; set_SCALING (PyFloat (PyFloat.literal 5 10));
     set_NAME "Sneak attack"];
  class_ "KillAtPercentHealth" "Modifier" (rarity_kw Rarity.RARE)
    [set_TYPE (Some ModifierType.PRE_ATTACK); set_MAX_STRENGTH 50;
     set_SCALING (PyInt 5); set_NAME "Obliteration"];
  class_ "Berserk" "Modifier" (rarity_kw Rarity.UNCOMMON)
    [set_TYPE (Some ModifierType.PRE_ATTACK); set_MAX_STRENGTH 60;
     set_SCALING (PyInt 2); set_NAME "Berserk"];
  class_ "ChaosBrand" "Modifier" (rarity_kw Rarity.UNCOMMON)
    [set_TYPE (Some ModifierType.PRE_ATTACK); set_MAX_STRENGTH 200;
     set_MIN_STRENGTH 100; set_SCALING (PyFloat (PyFloat.literal 5 10));
     set_NAME "Chaos Brand"];
  class_ "LuckyHit" "Modifier" (rarity_kw Rarity.UNCOMMON)
    [set_TYPE (Some ModifierType.PRE_ATTACK); set_MAX_STRENGTH 500;
     set_MIN_STRENGTH 100; set_SCALING (PyFloat (PyFloat.literal 6 10));
     set_NAME "Lucky Hit"];
  class_ "PoisonTipped.PoisonProc" "Modifier" no_kwargs
    [set_TYPE (Some ModifierType.TURN_START)];
  class_ "PoisonTipped" "Modifier" (rarity_kw Rarity.RARE)
    [set_TYPE (Some ModifierType.PRE_ATTACK); set_MAX_STRENGTH 10;
     set_SCALING (PyInt 10); set_NAME "Poison Tipped"];
  class_ "EldritchShield.TankHits" "Modifier" no_kwargs
    [set_TYPE (Some ModifierType.MID_DEFEND)];
  class_ "EldritchShield" "Modifier" (rarity_kw Rarity.RARE)
    [set_TYPE (Some ModifierType.COMBAT_START); set_MAX_STRENGTH 3;
     set_SCALING (PyInt 30); set_NAME "Eldritch Shield"];
  class_ "Vampiric" "Modifier" (rarity_kw Rarity.LEGENDARY)
    [set_TYPE (Some ModifierType.POST_ATTACK); set_MAX_STRENGTH 10;
     set_MIN_STRENGTH 1; set_SCALING (PyInt 20); set_NAME "Vampiric"];
  class_ "UnyieldingWill.FreeRevive" "Modifier" no_kwargs
    [set_TYPE (Some ModifierType.POST_DEFEND)];
  class_ "UnyieldingWill" "Modifier" (rarity_kw Rarity.LEGENDARY)
    [set_TYPE (Some ModifierType.COMBAT_START); set_MAX_STRENGTH 2;
     set_MIN_STRENGTH 1; set_SCALING (PyInt 80); set_NAME "Unyielding Will"];
  class_ "BloodThirst" "Modifier" (rarity_kw Rarity.RARE)
    [set_TYPE (Some ModifierType.COMBAT_START); set_MAX_STRENGTH 20;
     set_SCALING (PyInt 5); set_NAME "Blood Thirst"];
  class_ "Blessed" "Modifier" (rarity_kw Rarity.UNCOMMON)
    [set_TYPE (Some ModifierType.MODIFY_MAX_HP); set_MAX_STRENGTH 50;
     set_SCALING (PyInt 2); set_NAME "Blessed"];
  class_ "Bashing" "Modifier" (rarity_kw Rarity.LEGENDARY)
    [set_TYPE (Some ModifierType.PRE_ATTACK); set_MAX_STRENGTH 50;
     set_SCALING (PyInt 2); set_NAME "Bashing"];
  class_ "Thorns" "Modifier" (rarity_kw Rarity.UNCOMMON)
    [set_TYPE (Some ModifierType.PRE_DEFEND); set_MAX_STRENGTH 0;
     set_MIN_STRENGTH 1; set_SCALING (PyInt 5); set_NAME "Thorns"];
  class_ "FireAbsorb" "_GenericDamageAbsorb" (absorb_kw "fire") [];
  class_ "AcidAbsorb" "_GenericDamageAbsorb" (absorb_kw "acid") [];
  class_ "FreezeAbsorb" "_GenericDamageAbsorb" (absorb_kw "freeze") [];
  class_ "ElectricAbsorb" "_GenericDamageAbsorb" (absorb_kw "electric") [];
  class_ "RouletteAttack" "Modifier" (rarity_kw Rarity.RARE)
    [set_TYPE (Some ModifierType.PRE_ATTACK); set_MAX_STRENGTH 0;
     set_MIN_STRENGTH 1; set_SCALING (PyFloat (PyFloat.literal 35 10));
     set_NAME "Roulette Attack"];
  class_ "IdiotGodBlessing.FreeRevive" "Modifier" no_kwargs
    [set_TYPE (Some ModifierType.POST_DEFEND)];
  class_ "IdiotGodBlessing" "Modifier" (rarity_kw Rarity.LEGENDARY)
    [set_TYPE (Some ModifierType.COMBAT_START); set_MAX_STRENGTH 100;
     set_MIN_STRENGTH 10; set_SCALING (PyInt 5); set_NAME "Idiot God Blessing"];
  class_ "Brutal" "Modifier" (rarity_kw Rarity.UNCOMMON)
    [set_TYPE (Some ModifierType.POST_ATTACK); set_MAX_STRENGTH 0;
     set_MIN_STRENGTH 1; set_SCALING (PyInt 3); set_NAME "Brutality"];
  class_ "Ferocity" "Modifier" (rarity_kw Rarity.RARE)
    [set_TYPE (Some ModifierType.PRE_ATTACK); set_MAX_STRENGTH 10;
     set_MIN_STRENGTH 1; set_SCALING (PyInt 10); set_NAME "Ferocity"];
  class_ "LambEmbrace" "Modifier" (rarity_kw Rarity.RARE)
    [set_TYPE (Some ModifierType.TURN_START); set_MAX_STRENGTH 0;
     set_MIN_STRENGTH 1; set_SCALING (PyInt 3); set_NAME "Lamb's Embrace"];
  class_ "EldritchSynergy" "Modifier" (rarity_kw Rarity.LEGENDARY)
    [set_TYPE (Some ModifierType.PRE_ATTACK); set_MAX_STRENGTH 0;
     set_MIN_STRENGTH 1; set_SCALING (PyInt 4); set_NAME "Eldritch Synergy"];
  class_ "Dread" "Modifier" (rarity_kw Rarity.UNCOMMON)
    [set_TYPE (Some ModifierType.TURN_START); set_MAX_STRENGTH 0;
     set_MIN_STRENGTH 1; set_SCALING (PyFloat (PyFloat.literal 15 10));
     set_NAME "Dread Aura"];
  class_ "Akimbo" "Modifier" (rarity_kw Rarity.LEGENDARY)
    [set_TYPE (Some ModifierType.PRE_ATTACK); set_MAX_STRENGTH 50;
     set_SCALING (PyInt 2); set_NAME "Akimbo"];
  class_ "OccultAbsorb" "_GenericDamageAbsorb" (absorb_kw "occult") [];
  class_ "PlayerDamageMult" "Modifier" (rarity_kw Rarity.RARE)
    [set_TYPE (Some ModifierType.PRE_ATTACK); set_MAX_STRENGTH 100;
     set_MIN_STRENGTH 1; set_SCALING (PyInt 2); set_NAME "Hearth-breaker"];
  class_ "AdditionalHelper.Helper" "Modifier" no_kwargs
    [set_TYPE (Some ModifierType.TURN_START)];
  class_ "AdditionalHelper" "Modifier" (rarity_kw Rarity.LEGENDARY)
    [set_TYPE (Some ModifierType.COMBAT_START);
     set_SCALING (PyFloat (PyFloat.literal 3 10)); set_NAME "Shade Helper"]
].

(** The state once the module has been imported. *)
Definition loaded : result module_state := exec_module module_body initial_state.

(** ** Instances and the lookups *)

Record instance : Type := Build_instance {
  cls : string;
  strength : Z;
  duration : Z
}.

(** [Modifier.__init__(self, strength, duration=-1)]; no subclass
    overrides it. *)
Definition Modifier__init__ (cls : string) (strength duration : Z) : instance :=
  {| cls := cls; strength := strength; duration := duration |}.

Definition set_duration (self : instance) (d : Z) : instance :=
  {| cls := cls self; strength := strength self; duration := d |}.

Section Registry.

Variable st : module_state.

(** [get_modifier(modifier_id, strength)] *)
Definition get_modifier (modifier_id strength : Z) : result instance :=
  let* c := py_list_get (_LIST st) modifier_id in
  Return (Modifier__init__ c strength (-1)).

(** [get_modifier_from_name(modifier_name, strength)] *)
Definition get_modifier_from_name (modifier_name : string) (strength : Z)
  : result instance :=
  let* c := py_dict_get (_NAME_LUT st) modifier_name in
  Return (Modifier__init__ c strength (-1)).

(** [get_modifiers_by_rarity(rarity)] *)
Definition get_modifiers_by_rarity (rarity : Z) : list string :=
  default [] (_RARITY_INDEX st !! rarity).

(** [get_all_modifiers()] *)
Definition get_all_modifiers : list string := _LIST st.

End Registry.

(** [Modifier.get_fstrength(self)] *)
Definition get_fstrength (self : instance) : result spec_float :=
  PyFloat.int_truediv (strength self) 100.

(** [int(x * self.get_fstrength())] *)
Definition int_times_fstrength (x : Z) (self : instance) : result Z :=
  let* f := get_fstrength self in
  let* p := int_mul_float x f in
  PyFloat.to_int p.

(** The cap in [generate]:
    [if (cls.MAX_STRENGTH != 0) and (strength > cls.MAX_STRENGTH)]. *)
Definition clamp_strength (c : class_obj) (strength : Z) : Z :=
  if negb (MAX_STRENGTH c =? 0) && (MAX_STRENGTH c <? strength)
  then MAX_STRENGTH c else strength.

(** [Modifier.generate(cls, level)], on the class object [c]. *)
Definition generate (c : class_obj) (level : Z) : result instance :=
  match SCALING c with
  | None => Raise AttributeError
  | Some scaling =>
      let* q := int_div_number level scaling in
      let* i := PyFloat.to_int q in
      let strength := MIN_STRENGTH c + i in
      Return (Modifier__init__ (qualname c) (clamp_strength c strength) (-1))
  end.

(** ** The collaborators: damage values, combat actors, the combat log

    [pilgram.combat_classes] is outside the embedded sources, so the
    objects the behaviours receive are modelled from the specification.
    Objects live in a heap and a Python reference is an index into it, so
    that a write through one reference is seen through every other. *)

(** Modelled from the spec: the class [Damage] of [pilgram.combat_classes]
    is missing; the damage value is a record of per-category numeric
    amounts (slash, pierce, blunt, occult, fire, acid, freeze, electric). *)
Record Damage : Type := Build_Damage {
  slash : Z;
  pierce : Z;
  blunt : Z;
  occult : Z;
  fire : Z;
  acid : Z;
  freeze : Z;
  electric : Z
}.

(** Modelled from the spec: the class [CombatActor] of
    [pilgram.combat_classes] is missing; an actor reports a display name,
    its hit points and its max HP. *)
Record CombatActor : Type := Build_CombatActor {
  actor_name : string;
  hp : Z;
  max_hp : Z
}.

Record heap : Type := Build_heap {
  damages : list Damage;
  actors : list CombatActor;
  combat_log : list string
}.

(** What a context key is bound to, and what a behaviour returns. *)
Inductive value : Type :=
  | VNone
  | VInt (z : Z)
  | VDamage (l : nat)
  | VActor (l : nat)
  | VContainer.

(** [ModifierContext]: a wrapper around a [dict[str, Any]]. *)
Abbreviation ModifierContext := (gmap string value).

(** [ModifierContext.get(key, default_value=None)] *)
Definition ctx_get (context : ModifierContext) (key : string) : value :=
  default VNone (context !! key).

Module DamageOps.

(** [list(damage.__dict__.keys())], in the order the spec lists the
    categories. *)
Definition keys : list string :=
  ["slash"; "pierce"; "blunt"; "occult"; "fire"; "acid"; "freeze"; "electric"].

(** [damage.__dict__[key]] *)
Definition get_field (d : Damage) (key : string) : result Z :=
  if decide (key = "slash") then Return (slash d)
  else if decide (key = "pierce") then Return (pierce d)
  else if decide (key = "blunt") then Return (blunt d)
  else if decide (key = "occult") then Return (occult d)
  else if decide (key = "fire") then Return (fire d)
  else if decide (key = "acid") then Return (acid d)
  else if decide (key = "freeze") then Return (freeze d)
  else if decide (key = "electric") then Return (electric d)
  else Raise KeyError.

(** The record [d] with the existing field [key] holding [v]. *)
Definition set_field (d : Damage) (key : string) (v : Z) : result Damage :=
  let '(Build_Damage a b c o f ac fr e) := d in
  if decide (key = "slash") then Return (Build_Damage v b c o f ac fr e)
  else if decide (key = "pierce") then Return (Build_Damage a v c o f ac fr e)
  else if decide (key = "blunt") then Return (Build_Damage a b v o f ac fr e)
  else if decide (key = "occult") then Return (Build_Damage a b c v f ac fr e)
  else if decide (key = "fire") then Return (Build_Damage a b c o v ac fr e)
  else if decide (key = "acid") then Return (Build_Damage a b c o f v fr e)
  else if decide (key = "freeze") then Return (Build_Damage a b c o f ac v e)
  else if decide (key = "electric") then Return (Build_Damage a b c o f ac fr v)
  else Raise KeyError.

Definition empty : Damage := Build_Damage 0 0 0 0 0 0 0 0.

Definition add (x y : Damage) : Damage :=
  Build_Damage (slash x + slash y) (pierce x + pierce y) (blunt x + blunt y)
    (occult x + occult y) (fire x + fire y) (acid x + acid y)
    (freeze x + freeze y) (electric x + electric y).

Definition total (d : Damage) : Z :=
  slash d + pierce d + blunt d + occult d + fire d + acid d + freeze d
  + electric d.

End DamageOps.

(** The object a damage reference points to; a call on [None] or on any
    other object is an [AttributeError]. *)
Definition deref_damage (v : value) (h : heap) : result (nat * Damage) :=
  match v with
  | VDamage l =>
      match damages h !! l with
      | Some d => Return (l, d)
      | None => Raise AttributeError
      end
  | _ => Raise AttributeError
  end.

Definition deref_actor (v : value) (h : heap) : result (nat * CombatActor) :=
  match v with
  | VActor l =>
      match actors h !! l with
      | Some a => Return (l, a)
      | None => Raise AttributeError
      end
  | _ => Raise AttributeError
  end.

(** A new [Damage] object: the reference to it and the grown heap. *)
Definition new_damage (d : Damage) (h : heap) : nat * heap :=
  (length (damages h),
   {| damages := damages h ++ [d]; actors := actors h;
      combat_log := combat_log h |}).

(** An assignment to an attribute of the [Damage] object at [l]. *)
Definition store_damage (l : nat) (d : Damage) (h : heap) : heap :=
  {| damages := <[l := d]> (damages h); actors := actors h;
     combat_log := combat_log h |}.

Definition store_actor (l : nat) (a : CombatActor) (h : heap) : heap :=
  {| damages := damages h; actors := <[l := a]> (actors h);
     combat_log := combat_log h |}.

(** Modelled from the spec: [CombatActor.modify_hp(amount, overheal)] is
    missing; it sets the hit points, which stay at or above zero and go
    past max HP only with the allow-overheal flag. *)
Definition modify_hp (amount : Z) (overheal : bool) (a : CombatActor)
  : CombatActor :=
  let raw := hp a + amount in
  let capped := if overheal then raw else Z.min raw (max_hp a) in
  {| actor_name := actor_name a; hp := Z.max 0 capped; max_hp := max_hp a |}.

(** Modelled from the spec: [CombatActor.is_dead()] is missing; an actor
    is dead when its HP is zero. *)
Definition is_dead (a : CombatActor) : bool := hp a =? 0.

(** ** The behaviours

    [self] is threaded through: a behaviour receives the instance and
    returns it, with whatever it assigned to [self.duration]. *)

Definition behaviour : Type :=
  instance -> ModifierContext -> heap -> result (value * instance * heap).

(** [Modifier.write_to_log(context, text)] *)
Definition write_to_log (context : ModifierContext) (text : string) (h : heap)
  : result heap :=
  match ctx_get context "context" with
  | VNone => Return h
  | VContainer =>
      Return {| damages := damages h; actors := actors h;
                combat_log := combat_log h ++ [text] |}
  | _ => Raise AttributeError
  end.

Section Behaviours.

(** The module state, for the class attributes read through [self]. *)
Variable st : module_state.

(** How [Damage] scales one amount by a float factor, and how an actor
    formats its HP for the log: both are in the missing
    [pilgram.combat_classes] and the spec does not fix them. *)
Variable scale_amount : Z -> spec_float -> Z.
Variable get_hp_string : CombatActor -> string.

(** [self.DAMAGE_TYPE] *)
Definition self_DAMAGE_TYPE (self : instance) : result string :=
  let* c := class_of st (cls self) in
  match DAMAGE_TYPE c with
  | Some d => Return d
  | None => Raise AttributeError
  end.

(** Modelled from the spec: [Damage.scale_single_value(key, factor)] is
    missing; per-category scaling, returning a new value. *)
Definition scale_single_value (d : Damage) (key : string)
    (factor : spec_float) (h : heap) : result (nat * heap) :=
  let* v := DamageOps.get_field d key in
  let* d' := DamageOps.set_field d key (scale_amount v factor) in
  Return (new_damage d' h).

(** Modelled from the spec: [Damage.add_single_value(key, amount)] is
    missing; per-category addition, returning a new value. *)
Definition add_single_value (d : Damage) (key : string)
    (amount : Z) (h : heap) : result (nat * heap) :=
  let* v := DamageOps.get_field d key in
  let* d' := DamageOps.set_field d key (v + amount) in
  Return (new_damage d' h).

(** [_GenericDamageMult.function] *)
Definition GenericDamageMult_function : behaviour := fun self context h =>
  let* (_, d) := deref_damage (ctx_get context "damage") h in
  let* key := self_DAMAGE_TYPE self in
  let* factor := PyFloat.int_truediv (100 + strength self) 100 in
  let* (l', h') := scale_single_value d key factor h in
  Return (VDamage l', self, h').

(** [_GenericDamageBonus.function] *)
Definition GenericDamageBonus_function : behaviour := fun self context h =>
  let* (_, d) := deref_damage (ctx_get context "damage") h in
  let* key := self_DAMAGE_TYPE self in
  let* (l', h') := add_single_value d key (strength self) h in
  Return (VDamage l', self, h').

(** The line that [_GenericDamageAbsorb.function] writes to the log. *)
Definition absorb_text (a : CombatActor) (healed : Z) (key : string) : string :=
  actor_name a +:+ " heals " +:+ pretty healed +:+ " HP from "
  +:+ key +:+ " damage. (" +:+ get_hp_string a +:+ ")".

(** [_GenericDamageAbsorb.function] *)
Definition GenericDamageAbsorb_function : behaviour := fun self context h =>
  let* (_, damage) := deref_damage (ctx_get context "damage") h in
  let defender := ctx_get context "target" in
  let* key := self_DAMAGE_TYPE self in
  let* element_damage := DamageOps.get_field damage key in
  if 0 <? element_damage then
    let* healed := int_times_fstrength element_damage self in
    let healed := if healed =? 0 then 1 else healed in
    let* (la, a) := deref_actor defender h in
    let a' := modify_hp healed true a in
    let h := store_actor la a' h in
    let* h := write_to_log context (absorb_text a' healed key) h in
    Return (VNone, self, h)
  else Return (VNone, self, h).

(** [IdiotGodBlessing.FreeRevive.function] *)
Definition IdiotGodBlessing_FreeRevive_function : behaviour :=
  fun self context h =>
  let* (le, entity) := deref_actor (ctx_get context "other") h in
  if is_dead entity then
    let* amount := int_times_fstrength (max_hp entity) self in
    let entity' := modify_hp amount false entity in
    let h := store_actor le entity' h in
    let* h := write_to_log context
           ("The Idiot God blessing revives " +:+ actor_name entity'
            +:+ "! (" +:+ get_hp_string entity' +:+ ")") h in
    Return (VNone, self, h)
  else Return (VNone, set_duration self (duration self + 1), h).

(** [RouletteAttack.function]; [choice] is the position that
    [random.choice] draws in the list of keys. *)
Definition RouletteAttack_function (choice : nat) : behaviour :=
  fun self context h =>
  let* (l, damage) := deref_damage (ctx_get context "damage") h in
  match DamageOps.keys !! choice with
  | None => Raise IndexError
  | Some key =>
      let '(l_modifier, h) := new_damage DamageOps.empty h in
      let* damage' := DamageOps.set_field damage key (strength self) in
      let h := store_damage l damage' h in
      match damages h !! l_modifier with
      | None => Raise AttributeError
      | Some damage_modifier =>
          let '(l', h) := new_damage (DamageOps.add damage' damage_modifier) h in
          Return (VDamage l', self, h)
      end
  end.

End Behaviours.

(** ** The apply pipeline *)

(** [Modifier.apply(self, context)]; [function] is what [self.function]
    resolves to. *)
Definition apply (function : behaviour) : behaviour := fun self context h =>
  if 0 <? duration self then
    function (set_duration self (duration self - 1)) context h
  else if duration self =? 0 then
    Return (VNone, self, h)
  else
    function self context h.

(** ** Ordered dispatch *)

Fixpoint mapM {A B : Type} (f : A -> result B) (l : list A) : result (list B) :=
  match l with
  | [] => Return []
  | a :: r => let* b := f a in let* bs := mapM f r in Return (b :: bs)
  end.

(** Insertion before the first entry whose key is not smaller: with
    [sort_by_key] a stable sort on the ordering key. *)
Fixpoint insert_by_key (x : Z * instance) (l : list (Z * instance))
  : list (Z * instance) :=
  match l with
  | [] => [x]
  | y :: r => if fst x <=? fst y then x :: l else y :: insert_by_key x r
  end.

Fixpoint sort_by_key (l : list (Z * instance)) : list (Z * instance) :=
  match l with
  | [] => []
  | x :: r => insert_by_key x (sort_by_key r)
  end.

Fixpoint filterM {A : Type} (f : A -> result bool) (l : list A)
  : result (list A) :=
  match l with
  | [] => Return []
  | a :: r =>
      let* keep := f a in
      let* rest := filterM f r in
      Return (if keep then a :: rest else rest)
  end.

(** Modelled from the spec: what the missing orchestrator does with a
    returned value; a damage value replaces the in-flight one, and a
    behaviour that returns nothing of consequence, or an expired
    modifier, leaves it in place. *)
Definition fold_back (v : value) (context : ModifierContext) : ModifierContext :=
  match v with
  | VDamage l => <["damage" := VDamage l]> context
  | _ => context
  end.

Section Dispatch.

Variable st : module_state.

(** What [self.function] resolves to for each instance. *)
Variable function_of : instance -> behaviour.

(** [modifier.OP_ORDERING] *)
Definition ordering_key (m : instance) : result (Z * instance) :=
  let* c := class_of st (cls m) in Return (OP_ORDERING c, m).

(** [modifier.TYPE == phase] *)
Definition in_phase (phase : Z) (m : instance) : result bool :=
  let* c := class_of st (cls m) in Return (bool_decide (TYPE c = Some phase)).

(** Applying the modifiers in the order given; a returned damage value
    replaces the in-flight one for the next modifier. *)
Fixpoint apply_each (ms : list instance) (context : ModifierContext)
    (h : heap) : result (value * list instance * heap) :=
  match ms with
  | [] => Return (ctx_get context "damage", [], h)
  | m :: r =>
      let* (vm, h') := apply (function_of m) m context h in
      let* (vr, h'') := apply_each r (fold_back (fst vm) context) h' in
      Return (fst vr, snd vm :: snd vr, h'')
  end.

(** Modelled from the spec: the combat orchestrator of
    [pilgram.combat_classes] is missing; among the modifiers eligible in
    one phase, those whose [TYPE] is the phase, it respects the ordering
    key, with insertion order as the final tie-break, and folds each
    returned damage value back into the in-flight attack. *)
Definition dispatch (phase : Z) (ms : list instance)
    (context : ModifierContext) (h : heap)
  : result (value * list instance * heap) :=
  let* eligible := filterM (in_phase phase) ms in
  let* keyed := mapM ordering_key eligible in
  apply_each (map snd (sort_by_key keyed)) context h.

End Dispatch.

(** ** The registry after import *)

Definition registry : module_state :=
  Eval vm_compute in
    match loaded with
    | Return st => st
    | Raise _ => initial_state
    end.

(** [getattr(cls, X)] through a class reference, when both exist. *)
Definition class_attr {A : Type} (st : module_state)
    (f : class_obj -> option A) (c : string) : option A :=
  match classes st !! c with
  | Some o => f o
  | None => None
  end.

(** The ids and the display names of the classes in [_LIST], in order. *)
Definition ids (st : module_state) : list Z :=
  omap (class_attr st ID) (_LIST st).
Definition display_names (st : module_state) : list string :=
  omap (class_attr st NAME) (_LIST st).

(** The four tiers, concatenated. *)
Definition tiers (st : module_state) : list string :=
  get_modifiers_by_rarity st Rarity.COMMON
  ++ get_modifiers_by_rarity st Rarity.UNCOMMON
  ++ get_modifiers_by_rarity st Rarity.RARE
  ++ get_modifiers_by_rarity st Rarity.LEGENDARY.

(** The classes that are defined inside another class. *)
Definition nested_classes : list string :=
  ["PoisonTipped.PoisonProc"; "EldritchShield.TankHits";
   "UnyieldingWill.FreeRevive"; "IdiotGodBlessing.FreeRevive";
   "AdditionalHelper.Helper"].

(** The classes a name of [_NAME_LUT] leads to. *)
Definition named_classes (st : module_state) : list string :=
  map snd (map_to_list (_NAME_LUT st)).

(** [all_indexed P i l]: [P] holds of every entry of [l] with its position,
    counted from [i]. *)
Fixpoint all_indexed {A : Type} (P : nat -> A -> bool) (i : nat) (l : list A)
  : bool :=
  match l with
  | [] => true
  | x :: r => P i x && all_indexed P (S i) r
  end.

(** The class at position [i] of [_LIST] has [i] as its [ID], and its
    [NAME] leads back to it through [_NAME_LUT]. *)
Definition indexed_by_id_and_name (st : module_state) (i : nat) (c : string)
  : bool :=
  bool_decide (class_attr st ID c = Some (Z.of_nat i))
  && match class_attr st NAME c with
     | Some name => bool_decide (_NAME_LUT st !! name = Some c)
     | None => false
     end.

(** ** Sample objects for the concrete runs *)

Definition sample_hp_string (a : CombatActor) : string :=
  pretty (hp a) +:+ "/" +:+ pretty (max_hp a).

(** One damage value; a fallen actor and a standing one, both with
    100 max HP. *)
Definition sample_heap : heap :=
  {| damages := [Build_Damage 1 2 3 4 10 6 7 8];
     actors := [Build_CombatActor "Bob" 0 100; Build_CombatActor "Al" 7 100];
     combat_log := [] |}.

Definition sample_context : ModifierContext :=
  {[ "damage" := VDamage 0%nat; "target" := VActor 1%nat;
     "other" := VActor 0%nat; "context" := VContainer ]}.

(** The same context with the standing actor as the defender. *)
Definition standing_context : ModifierContext :=
  <["other" := VActor 1%nat]> sample_context.

(** A class statement with a zero scaling divisor and a display name that
    is already taken. *)
Definition malformed : class_stmt :=
  class_ "Malformed" "Modifier" (rarity_kw Rarity.COMMON)
    [set_SCALING (PyInt 0); set_NAME "Berserk"].

(** The state after [malformed] has executed on top of the module. *)
Definition malformed_state : module_state :=
  Eval vm_compute in
    match exec_class malformed registry with
    | Return st => st
    | Raise _ => registry
    end.

(** The sample heap with [n] points of fire damage in flight. *)
Definition fire_heap (n : Z) : heap :=
  {| damages := [Build_Damage 0 0 0 0 n 0 0 0];
     actors := actors sample_heap;
     combat_log := [] |}.


(** The context hands over a log sink, or none. *)
Definition sink_ok (context : ModifierContext) : Prop :=
  ctx_get context "context" = VNone \/ ctx_get context "context" = VContainer.

(** The log after [write_to_log(context, text)]. *)
Definition logged (context : ModifierContext) (text : string)
    (log : list string) : list string :=
  match ctx_get context "context" with
  | VContainer => log ++ [text]
  | _ => log
  end.

(** A float that is not a negative number. *)
Definition not_negative (f : spec_float) : Prop :=
  match f with
  | S754_finite s _ _ => s = false
  | _ => True
  end.

(** The class of [m] derives from the template with the hook [k]. *)
Definition derives_from (st : module_state) (k : init_hook) (m : instance)
  : Prop :=
  class_attr st (fun c => Some (hook c)) (cls m) = Some k.

(** The scaling of one amount as [int(amount * factor)], with the amount
    kept when the product is not a finite number. *)
Definition truncating_scale (amount : Z) (factor : spec_float) : Z :=
  match (let* p := int_mul_float amount factor in PyFloat.to_int p) with
  | Return z => z
  | Raise _ => amount
  end.

(** The ordering key that goes with the template a class derives from. *)
Definition ordering_matches_hook (o : class_obj) : bool :=
  match hook o with
  | GenericDamageMult_hook => OP_ORDERING o =? 0
  | GenericDamageBonus_hook => OP_ORDERING o =? 1
  | _ => true
  end.

(** Method resolution for the sample runs: the classes derived from
    [_GenericDamageBonus] against those derived from [_GenericDamageMult]. *)
Definition sample_function_of (m : instance) : behaviour :=
  match class_attr registry (fun c => Some (hook c)) (cls m) with
  | Some GenericDamageBonus_hook => GenericDamageBonus_function registry
  | _ => GenericDamageMult_function registry truncating_scale
  end.

(** ** Bookkeeping for the dispatch *)

(** The modifier has not expired. *)
Definition active (m : instance) : bool := negb (duration m =? 0).

(** The instance after the countdown of one [apply]. *)
Definition counted_down (m : instance) : instance :=
  if 0 <? duration m then set_duration m (duration m - 1) else m.

(** The modifier fires in the phase. *)
Definition eligible (st : module_state) (phase : Z) (m : instance) : Prop :=
  class_attr st TYPE (cls m) = Some phase.

#[global] Instance eligible_dec (st : module_state) (phase : Z) (m : instance)
  : Decision (eligible st phase m) :=
  decide (class_attr st TYPE (cls m) = Some phase).

(** The amount [x] of the category [k] after the multiplier [m] on the
    category [key], and after the bonus [b] on it. *)
Definition after_mult (scale_amount : Z -> spec_float -> Z) (m : instance)
    (key : string) (factor : spec_float) (k : string) (x : Z) : Z :=
  if active m && bool_decide (k = key) then scale_amount x factor else x.

Definition after_bonus (b : instance) (key : string) (k : string) (x : Z) : Z :=
  if active b && bool_decide (k = key) then x + strength b else x.

(** The orchestrator has the class of every modifier it is given. *)
Definition known_class (st : module_state) (m : instance) : Prop :=
  is_Some (classes st !! cls m).

(** ** Bookkeeping for the rounding proofs *)

(** Where the rational [num/den] lies in the interval from [m] to [m+1]:
    what a [location] records. *)
Definition located (num den m : Z) (l : location) : Prop :=
  match l with
  | loc_Exact => num = m * den
  | loc_Inexact c =>
      m * den < num < (m + 1) * den /\ c = (2 * num ?= (2 * m + 1) * den)
  end.


(** The integer part of the binary64 number [m * 2^e]. *)
Definition float_floor (m e : Z) : Z :=
  if 0 <=? e then m * 2 ^ e else m / 2 ^ (- e).


(** [int(x * (s / 100))] against the floor of [x * s / 100]: equal, or one
    less where [x * s / 100] is a whole number. *)
Definition near_floor (x s : Z) : bool :=
  match int_times_fstrength x (Modifier__init__ "" s (-1)) with
  | Return z =>
      if x * s mod 100 =? 0
      then (z =? x * s / 100) || (z =? x * s / 100 - 1)
      else z =? x * s / 100
  | Raise _ => false
  end.

(** The variants of the catalog with a float scaling, with ten times the
    scaling as the source writes it. *)
Definition float_scaled : list (string * Z) :=
  [("FirstHitBonus", 5); ("ChaosBrand", 5); ("LuckyHit", 6);
   ("RouletteAttack", 35); ("Dread", 15); ("AdditionalHelper", 3)].

(** [generate] on the class [cls] at [level] gives the strength of the
    scaling law for the decimal scaling [tenths / 10]. *)
Definition follows_decimal_law (st : module_state) (cls : string) (tenths : Z)
    (level : Z) : bool :=
  match classes st !! cls with
  | Some c =>
      match SCALING c, generate c level with
      | Some (PyFloat _), Return m =>
          strength m
          =? clamp_strength c
               (Z.max (MIN_STRENGTH c) (MIN_STRENGTH c + level * 10 / tenths))
      | _, _ => false
      end
  | None => false
  end.

(** A behaviour that does not assign to [self.duration]. *)
Definition keeps_duration (f : behaviour) : Prop :=
  forall self context h v self' h',
    f self context h = Return (v, self', h') -> duration self' = duration self.

(** ** Equality of instances *)

(** [self.ID], a class attribute that only registration assigns. *)
Definition self_ID (st : module_state) (self : instance) : result Z :=
  let* c := class_of st (cls self) in
  match ID c with
  | Some i => Return i
  | None => Raise AttributeError
  end.

(** [Modifier.__eq__(self, other)]; [other] is [None] when it is not an
    instance of [Modifier]. *)
Definition Modifier__eq__ (st : module_state) (self : instance)
    (other : option instance) : result bool :=
  match other with
  | Some other =>
      let* i := self_ID st self in
      let* j := self_ID st other in
      Return ((i =? j) && (strength self =? strength other))
  | None => Return false
  end.

(** The classes of [_LIST] with their rarity, tier by tier. *)
Definition tier_is_sound (st : module_state) (rb : Z * list string) : bool :=
  forallb (fun c => bool_decide (c ∈ _LIST st)
                    && bool_decide (class_attr st RARITY c = Some rb.1))
          rb.2.

Definition tier_is_complete (st : module_state) (c : string) : bool :=
  match class_attr st RARITY c with
  | Some r => bool_decide (c ∈ get_modifiers_by_rarity st r)
  | None => false
  end.

(** ** The indices against the class attributes *)

(** The position of a class in [_LIST] is its [ID], and a class listed in
    a tier is in [_LIST] and has that tier as its [RARITY]. *)
Definition well_indexed (st : module_state) : Prop :=
  (forall (i : nat) c,
     _LIST st !! i = Some c -> class_attr st ID c = Some (Z.of_nat i)) /\
  (forall r bucket c,
     _RARITY_INDEX st !! r = Some bucket -> c ∈ bucket ->
     c ∈ _LIST st /\ class_attr st RARITY c = Some r).

(** The class statements of [body] define new classes: no name is bound
    yet, and none is bound twice. *)
Definition defines_new_classes (body : list class_stmt) (st : module_state)
  : Prop :=
  NoDup (map c_name body) /\
  Forall (fun s => classes st !! c_name s = None) body.

(** The three indices are the same in both states. *)
Definition same_indices (st st' : module_state) : Prop :=
  _LIST st' = _LIST st /\
  _RARITY_INDEX st' = _RARITY_INDEX st /\
  _NAME_LUT st' = _NAME_LUT st.

(** From [st] to [st'] the class [cls] was registered: it got the next
    id, went to the end of [_LIST] and of one tier, and its name was bound
    to it. *)
Definition registered_as (cls : string) (st st' : module_state) : Prop :=
  exists r bucket name,
    _RARITY_INDEX st !! r = Some bucket /\
    _LIST st' = _LIST st ++ [cls] /\
    _RARITY_INDEX st' = <[r := bucket ++ [cls]]> (_RARITY_INDEX st) /\
    _NAME_LUT st' = <[name := cls]> (_NAME_LUT st) /\
    class_attr st' ID cls = Some (Z.of_nat (length (_LIST st))) /\
    class_attr st' RARITY cls = Some r /\
    class_attr st' NAME cls = Some name.

(** A class object with a positive integer [SCALING], and a cap that is
    off or not below [MIN_STRENGTH]. *)
Definition integer_scaled (c : class_obj) : bool :=
  match SCALING c with
  | Some (PyInt k) =>
      (0 <? k) && ((MAX_STRENGTH c =? 0) || (MIN_STRENGTH c <=? MAX_STRENGTH c))
  | _ => true
  end.

(** The class object bound to [cls] carries that name. *)
Definition named_after_itself (st : module_state) (cls : string) : bool :=
  bool_decide (class_attr st (fun c => Some (qualname c)) cls = Some cls).

(** ** The effects on hit points, and the timed sub-effects *)

(** Modelled from the spec: the timed-modifier list of a combat actor is
    part of the missing [pilgram.combat_classes]; every actor holds a list
    of active timed modifiers, here kept in a table beside the heap, under
    the location of the actor. *)
Record arena : Type := Build_arena {
  objects : heap;
  timed_modifiers : gmap nat (list instance)
}.

(** [actor.timed_modifiers] *)
Definition timed_of (a : arena) (l : nat) : list instance :=
  default [] (timed_modifiers a !! l).

(** [actor.timed_modifiers.append(m)] *)
Definition timed_append (l : nat) (m : instance) (a : arena) : arena :=
  {| objects := objects a;
     timed_modifiers := <[l := timed_of a l ++ [m]]> (timed_modifiers a) |}.

(** A behaviour that reaches the timed-modifier lists. *)
Definition spawner : Type :=
  instance -> ModifierContext -> arena -> result (value * instance * arena).

Section Effects.

Variable get_hp_string : CombatActor -> string.

(** [PoisonTipped.PoisonProc.function] *)
Definition PoisonTipped_PoisonProc_function : behaviour :=
  fun self context h =>
  let* (lt, target) := deref_actor (ctx_get context "entity") h in
  let target' := modify_hp (- strength self) false target in
  let h := store_actor lt target' h in
  let* h := write_to_log context
         (actor_name target' +:+ " takes " +:+ pretty (strength self)
          +:+ " poison dmg. (" +:+ get_hp_string target' +:+ ")") h in
  Return (VNone, self, h).

(** [PoisonTipped.function] *)
Definition PoisonTipped_function : spawner := fun self context a =>
  let* (lt, _) := deref_actor (ctx_get context "other") (objects a) in
  let a := timed_append lt
             (Modifier__init__ "PoisonTipped.PoisonProc" (strength self)
                (strength self * 2)) a in
  Return (ctx_get context "damage", self, a).

(** [EldritchShield.TankHits.function] *)
Definition EldritchShield_TankHits_function : behaviour :=
  fun self context h =>
  let damage := ctx_get context "damage" in
  let target := ctx_get context "target" in
  let* (_, d) := deref_damage damage h in
  if 1 <? DamageOps.total d then
    let* (_, t) := deref_actor target h in
    let* h := write_to_log context
           (if duration self =? 0
            then actor_name t +:+ "'s shield nullifies the hit and it breaks!"
            else actor_name t +:+ "'s shield nullifies the hit.") h in
    let '(l', h) := new_damage DamageOps.empty h in
    Return (VDamage l', self, h)
  else Return (damage, set_duration self (duration self + 1), h).

(** [EldritchShield.function] *)
Definition EldritchShield_function : spawner := fun self context a =>
  let* (le, entity) := deref_actor (ctx_get context "entity") (objects a) in
  let a := timed_append le
             (Modifier__init__ "EldritchShield.TankHits" 0 (strength self)) a in
  let* h := write_to_log context
         ("An Eldritch Shield forms around " +:+ actor_name entity)
         (objects a) in
  Return (VInt 0, self,
          {| objects := h; timed_modifiers := timed_modifiers a |}).

(** [Vampiric.function] *)
Definition Vampiric_function : behaviour := fun self context h =>
  let* (_, damage) := deref_damage (ctx_get context "damage") h in
  let attacker := ctx_get context "supplier" in
  let* healing := int_times_fstrength (DamageOps.total damage) self in
  let healing := if healing =? 0 then 1 else healing in
  let* (la, a) := deref_actor attacker h in
  let a' := modify_hp healing false a in
  let h := store_actor la a' h in
  let* h := write_to_log context
         (actor_name a' +:+ " leeches " +:+ pretty healing +:+ " HP. ("
          +:+ get_hp_string a' +:+ ")") h in
  Return (VNone, self, h).

(** [UnyieldingWill.FreeRevive.function] *)
Definition UnyieldingWill_FreeRevive_function : behaviour :=
  fun self context h =>
  let* (ld, defender) := deref_actor (ctx_get context "other") h in
  if hp defender =? 0 then
    let* h := write_to_log context (actor_name defender +:+ " still stands.") h in
    let* half := PyFloat.int_truediv (max_hp defender) 2 in
    let* amount := PyFloat.to_int half in
    Return (VNone, self, store_actor ld (modify_hp amount false defender) h)
  else Return (VNone, set_duration self (duration self + 1), h).

(** [UnyieldingWill.function] *)
Definition UnyieldingWill_function : spawner := fun self context a =>
  let* (le, _) := deref_actor (ctx_get context "entity") (objects a) in
  let a := timed_append le
             (Modifier__init__ "UnyieldingWill.FreeRevive" 1 (strength self)) a in
  Return (VNone, self, a).


(** [Thorns.function] *)
Definition Thorns_function : behaviour := fun self context h =>
  let* (la, attacker) := deref_actor (ctx_get context "other") h in
  let attacker' := modify_hp (- strength self) false attacker in
  let h := store_actor la attacker' h in
  let* h := write_to_log context
         (actor_name attacker' +:+ " loses " +:+ pretty (strength self)
          +:+ " HP from thorns. (" +:+ get_hp_string attacker' +:+ ")") h in
  Return (ctx_get context "damage", self, h).

(** [IdiotGodBlessing.function] *)
Definition IdiotGodBlessing_function : spawner := fun self context a =>
  let* (le, _) := deref_actor (ctx_get context "entity") (objects a) in
  let a := timed_append le
             (Modifier__init__ "IdiotGodBlessing.FreeRevive" (strength self) 1)
             a in
  Return (VInt 0, self, a).

(** [Brutal.function] *)
Definition Brutal_function : behaviour := fun self context h =>
  let* (lt, target) := deref_actor (ctx_get context "other") h in
  let target' := modify_hp (- strength self) false target in
  let h := store_actor lt target' h in
  let* h := write_to_log context
         (actor_name target' +:+ " is brutalized for "
          +:+ pretty (strength self) +:+ " dmg. (" +:+ get_hp_string target'
          +:+ ")") h in
  Return (VNone, self, h).

(** [LambEmbrace.function] *)
Definition LambEmbrace_function : behaviour := fun self context h =>
  let* (le, entity) := deref_actor (ctx_get context "entity") h in
  let entity' := modify_hp (strength self) false entity in
  let h := store_actor le entity' h in
  let* h := write_to_log context
         (actor_name entity' +:+ " regenerates " +:+ pretty (strength self)
          +:+ " HP. (" +:+ get_hp_string entity' +:+ ")") h in
  Return (VNone, self, h).

(** [Dread.function] *)
Definition Dread_function : behaviour := fun self context h =>
  let* (lo, opponent) := deref_actor (ctx_get context "opponent") h in
  let opponent' := modify_hp (- strength self) false opponent in
  let h := store_actor lo opponent' h in
  let* h := write_to_log context
         (actor_name opponent' +:+ " takes " +:+ pretty (strength self)
          +:+ " Dread damage. (" +:+ get_hp_string opponent' +:+ ")") h in
  Return (VNone, self, h).

(** [AdditionalHelper.Helper.function]; [roll] is what
    [random.randint(1, 100)] draws. *)
Definition AdditionalHelper_Helper_function (roll : Z) : behaviour :=
  fun self context h =>
  if roll <? 40 then
    let entity := ctx_get context "entity" in
    let* (lt, target) := deref_actor (ctx_get context "opponent") h in
    let target' := modify_hp (- strength self) false target in
    let h := store_actor lt target' h in
    let* (_, e) := deref_actor entity h in
    let* h := write_to_log context
           (actor_name e +:+ "'s Shade Helper attacks " +:+ actor_name target'
            +:+ " for " +:+ pretty (strength self) +:+ " damage ("
            +:+ get_hp_string target' +:+ ").") h in
    Return (VNone, self, h)
  else Return (VNone, self, h).

(** [AdditionalHelper.function] *)
Definition AdditionalHelper_function : spawner := fun self context a =>
  let* (le, entity) := deref_actor (ctx_get context "entity") (objects a) in
  let a := timed_append le
             (Modifier__init__ "AdditionalHelper.Helper" (strength self) (-1))
             a in
  let* h := write_to_log context
         ("A Sahde Helper spawns for " +:+ actor_name entity) (objects a) in
  Return (VInt 0, self,
          {| objects := h; timed_modifiers := timed_modifiers a |}).

End Effects.

(** ** Turn after turn *)

(** [n] calls of [self.apply(context)], one after the other, on the same
    instance and context. *)
Fixpoint apply_times (function : behaviour) (n : nat) (self : instance)
    (context : ModifierContext) (h : heap) : result (instance * heap) :=
  match n with
  | O => Return (self, h)
  | S n =>
      let* (vs, h') := apply function self context h in
      apply_times function n (snd vs) context h'
  end.

(** [self.apply] on one instance for each hit of [hits] in turn, every
    hit its own damage value under the key ["damage"]; the values the
    calls return, in order. *)
Fixpoint apply_to_hits (function : behaviour) (hits : list nat)
    (self : instance) (context : ModifierContext) (h : heap)
  : result (list value * instance * heap) :=
  match hits with
  | [] => Return ([], self, h)
  | l :: rest =>
      let* (vs, h') := apply function self (<["damage" := VDamage l]> context) h in
      let* (vsr, h'') := apply_to_hits function rest (snd vs) context h' in
      Return (fst vs :: fst vsr, snd vsr, h'')
  end.

(** The hits that the Eldritch Shield intercepts: the damage values with
    a total above 1. *)
Definition big_hits (ds : list Damage) : Z :=
  Z.of_nat (length (filter (fun d => 1 < DamageOps.total d) ds)).

(** What the shield answers to one hit: [used] hits above 1 came before
    it, of the [d] the shield can take.  Nothing once the charges are
    spent; before that a new empty damage value for a hit above 1, and
    the damage value of the hit itself otherwise. *)
Definition shield_answer (h h' : heap) (d used : Z) (l : nat) (d0 : Damage)
    (v : value) : Prop :=
  if d <=? used then v = VNone
  else if 1 <? DamageOps.total d0 then
    exists l', v = VDamage l' /\ (length (damages h) <= l')%nat /\
               damages h' !! l' = Some DamageOps.empty
  else v = VDamage l.

(** The actor [a] with [v] hit points. *)
Definition with_hp (a : CombatActor) (v : Z) : CombatActor :=
  {| actor_name := actor_name a; hp := v; max_hp := max_hp a |}.

(** The call [f self context a] returns [v], appends the instance [m] to
    the timed modifiers of the actor at [l], and changes no other list, no
    actor and no damage value. *)
Definition spawns (f : spawner) (self : instance) (context : ModifierContext)
    (a : arena) (l : nat) (m : instance) (v : value) : Prop :=
  exists a',
    f self context a = Return (v, self, a') /\
    timed_of a' l = timed_of a l ++ [m] /\
    (forall l', l' <> l -> timed_of a' l' = timed_of a l') /\
    actors (objects a') = actors (objects a) /\
    damages (objects a') = damages (objects a).

(** Hit points between 0 and max HP. *)
Definition hp_in_range (a : CombatActor) : Prop := 0 <= hp a <= max_hp a.

(** The class that the statement defined has the [dmg_type] of the
    statement as its [DAMAGE_TYPE], and that is a category of [Damage]. *)
Definition keeps_dmg_type (st : module_state) (s : class_stmt) : bool :=
  match kw_dmg_type (c_kw s) with
  | Some key =>
      bool_decide (class_attr st DAMAGE_TYPE (c_name s) = Some key)
      && bool_decide (key ∈ DamageOps.keys)
  | None => true
  end.

(** ** The max-HP modifier *)

(** [x + y] on two floats. *)
Definition float_add (x y : spec_float) : spec_float :=
  SFadd PyFloat.prec PyFloat.emax x y.

(** [1 + self.get_fstrength()] *)
Definition one_plus_fstrength (self : instance) : result spec_float :=
  let* f := get_fstrength self in
  let* one := PyFloat.of_int 1 in
  Return (float_add one f).

(** [int(value * factor)] for an int [value] *)
Definition int_times_float (value : Z) (factor : spec_float) : result Z :=
  let* p := int_mul_float value factor in
  PyFloat.to_int p.

(** [Blessed.function]: the factor is evaluated before the product is
    taken, and anything but a number under ["value"] cannot be multiplied
    by a float. *)
Definition Blessed_function : behaviour := fun self context h =>
  let value := ctx_get context "value" in
  let* factor := one_plus_fstrength self in
  match value with
  | VInt value =>
      let* z := int_times_float value factor in
      Return (VInt z, self, h)
  | _ => Raise TypeError
  end.

(** [int(v * (1 + s / 100))] against the exact [v * (100 + s) / 100]: the
    floor of it, or one less where it is a whole number; never less than
    [v]. *)
Definition blessed_near_floor (v s : Z) : bool :=
  match (let* factor := one_plus_fstrength (Modifier__init__ "" s (-1)) in
         int_times_float v factor) with
  | Return z =>
      (v <=? z)
      && (if v * (100 + s) mod 100 =? 0
          then (z =? v * (100 + s) / 100) || (z =? v * (100 + s) / 100 - 1)
          else z =? v * (100 + s) / 100)
  | Raise _ => false
  end.

(** * Players, guilds and quests ([pilgram.classes])

    A guild holds a reference to its founder and a player one to its
    guild, so players and guilds live in a store and a reference is an
    index into it.  The names and descriptions play no part in what
    follows and are left out of the records. *)

Module Classes.

Record Zone : Type := Build_Zone {
  zone_id : Z;
  zone_level : Z
}.

Record Quest : Type := Build_Quest {
  quest_id : Z;
  zone : Zone;
  number : Z
}.

Record Player : Type := Build_Player {
  player_id : Z;
  guild : option nat;
  level : Z;
  xp : Z;
  money : Z;
  zone_progress : gmap Z Z;
  gear_level : Z;
  home_level : Z
}.

Record Guild : Type := Build_Guild {
  guild_id : Z;
  guild_level : Z;
  founder : nat
}.

Record world : Type := Build_world {
  players : list Player;
  guilds : list Guild
}.

(** [Quest.finish_quest(self, player)]; [roll] is what
    [random.randint(0, 11)] draws. *)
Definition finish_quest (roll : Z) (self : Quest) (player : Player) : bool :=
  if roll =? 0 then false
  else
    let result := level player + gear_level player + roll in
    zone_level (zone self) + number self * 2 <=? result.

(** [Quest.get_rewards(self, player)]: the conditional expression takes
    the whole sum as its first branch. *)
Definition get_rewards (self : Quest) (player : Player) (w : world)
  : result (Z * Z) :=
  match guild player with
  | None => Raise AttributeError
  | Some g =>
      match guilds w !! g with
      | None => Raise AttributeError
      | Some gd =>
          let multiplier :=
            if negb (guild_level gd =? 0)
            then zone_level (zone self) + number self + guild_level gd
            else 0 in
          Return (100 * multiplier, 180 * multiplier)
      end
  end.

(** [Progress.get_zone_progress(self, zone)] *)
Definition get_zone_progress (progress : gmap Z Z) (z : Zone) : Z :=
  default 0 (progress !! zone_id z).

(** [Player.get_required_xp(self)] *)
Definition get_required_xp (self : Player) : Z :=
  100 * level self + 5 * level self * level self.

(** [Player.get_gear_upgrade_required_money(self)] *)
Definition get_gear_upgrade_required_money (self : Player) : Z :=
  100 * gear_level self + gear_level self * gear_level self.

(** [Player.get_home_upgrade_required_money(self)] *)
Definition get_home_upgrade_required_money (self : Player) : Z :=
  1000 * home_level self + 4 * home_level self * home_level self.

(** [Player.can_upgrade_gear(self)] *)
Definition can_upgrade_gear (self : Player) : bool :=
  get_gear_upgrade_required_money self <=? money self.

(** [Player.can_upgrade_home(self)] *)
Definition can_upgrade_home (self : Player) : bool :=
  get_home_upgrade_required_money self <=? money self.

Definition set_gear_level (self : Player) (v : Z) : Player :=
  Build_Player (player_id self) (guild self) (level self) (xp self)
    (money self) (zone_progress self) v (home_level self).

Definition set_home_level (self : Player) (v : Z) : Player :=
  Build_Player (player_id self) (guild self) (level self) (xp self)
    (money self) (zone_progress self) (gear_level self) v.

Definition set_money (self : Player) (v : Z) : Player :=
  Build_Player (player_id self) (guild self) (level self) (xp self)
    v (zone_progress self) (gear_level self) (home_level self).

Definition set_level_xp (self : Player) (l x : Z) : Player :=
  Build_Player (player_id self) (guild self) l x
    (money self) (zone_progress self) (gear_level self) (home_level self).

(** [Player.upgrade_gear(self)]: the level goes up first, the price is
    read afterwards. *)
Definition upgrade_gear (self : Player) : Player :=
  let self := set_gear_level self (gear_level self + 1) in
  set_money self (money self - get_gear_upgrade_required_money self).

(** [Player.upgrade_home(self)] *)
Definition upgrade_home (self : Player) : Player :=
  let self := set_home_level self (home_level self + 1) in
  set_money self (money self - get_home_upgrade_required_money self).

(** [Player.level_up(self)]: the [while] loop, run for at most [fuel]
    tests of its condition. *)
Fixpoint level_up (fuel : nat) (self : Player) : option Player :=
  match fuel with
  | O => None
  | S fuel =>
      let req_xp := get_required_xp self in
      if req_xp <=? xp self
      then level_up fuel (set_level_xp self (level self + 1) (xp self - req_xp))
      else Some self
  end.

(** [Player.add_xp(self, amount)] *)
Definition add_xp (fuel : nat) (self : Player) (amount : Z)
  : option (bool * Player) :=
  let self := set_level_xp self (level self) (xp self + amount) in
  if get_required_xp self <=? xp self
  then self' ← level_up fuel self; Some (true, self')
  else Some (false, self).

Section Guilds.

(** [ContentMeta.get("guilds.max_level")] and
    [ContentMeta.get("guilds.players_per_level")]: settings the module
    reads from a file when it is imported. *)
Variable MAX_LEVEL : Z.
Variable PLAYERS_PER_LEVEL : Z.

(** [Guild.can_add_member(self, current_members)] *)
Definition can_add_member (self : Guild) (current_members : Z) : bool :=
  current_members <? guild_level self * PLAYERS_PER_LEVEL.

(** [Guild.get_upgrade_required_money(self)] *)
Definition get_upgrade_required_money (self : Guild) : Z :=
  10000 * guild_level self + 5 * guild_level self * guild_level self.

(** [Guild.can_upgrade(self)], on the guild at [g]; [and] reads the
    founder only when the level is below the maximum. *)
Definition can_upgrade (g : nat) (w : world) : result bool :=
  match guilds w !! g with
  | None => Raise AttributeError
  | Some self =>
      if guild_level self <? MAX_LEVEL then
        match players w !! founder self with
        | None => Raise AttributeError
        | Some f => Return (get_upgrade_required_money self <=? money f)
        end
      else Return false
  end.

(** [Guild.upgrade(self)], on the guild at [g]. *)
Definition upgrade (g : nat) (w : world) : result world :=
  match guilds w !! g with
  | None => Raise AttributeError
  | Some self =>
      match players w !! founder self with
      | None => Raise AttributeError
      | Some f =>
          let f := set_money f (money f - get_upgrade_required_money self) in
          let self := Build_Guild (guild_id self) (guild_level self + 1)
                        (founder self) in
          Return {| players := <[founder self := f]> (players w);
                    guilds := <[g := self]> (guilds w) |}
      end
  end.

End Guilds.

(** The experience it takes to get from level 0 to level [n]: the sum of
    the thresholds below [n]. *)
Fixpoint xp_to_reach (n : nat) : Z :=
  match n with
  | O => 0
  | S k => xp_to_reach k + (100 * Z.of_nat k + 5 * Z.of_nat k * Z.of_nat k)
  end.

(** All the experience of a player: what is banked, and what the levels
    have cost. *)
Definition lifetime_xp (self : Player) : Z :=
  xp self + xp_to_reach (Z.to_nat (level self)).

(** The same player but for level and experience. *)
Definition same_but_level_xp (p p' : Player) : Prop :=
  p' = set_level_xp p (level p') (xp p').

End Classes.

(** * The record of the highest quests ([pilgram.manager]) *)

Module Manager.

Definition QUEST_THRESHOLD : Z := 5.

(** What [json.load] gives for the file: an object becomes a dict, whose
    keys are strings, an array becomes a list. *)
Inductive json : Type :=
  | JObject (d : gmap string Z)
  | JArray (l : list Z).

(** What [load_from_file] returns: a [_HighestQuests] around the data of
    the file, or a plain empty dict. *)
Inductive highest_quests : Type :=
  | HighestQuests (data : json)
  | EmptyDict.

(** [_HighestQuests.load_from_file()]; [file] is the content of the file,
    if there is one. *)
Definition load_from_file (file : option json) : highest_quests :=
  match file with
  | Some data => HighestQuests data
  | None => EmptyDict
  end.

(** [data[key]] for an int [key]: no key of a dict read from JSON is an
    int. *)
Definition data_get (data : json) (key : Z) : result Z :=
  match data with
  | JObject _ => Raise KeyError
  | JArray l => py_list_get l key
  end.

(** [data[key] = v] on a list, for an index that [data[key]] accepts. *)
Definition list_set (l : list Z) (key v : Z) : list Z :=
  let j := if key <? 0 then key + Z.of_nat (length l) else key in
  <[Z.to_nat j := v]> l.

(** [self.update(zone_id, progress)]: the object and the file
    afterwards.  On the plain dict the call is [dict.update] with two
    positional arguments. *)
Definition update (self : highest_quests) (file : option json)
    (zone_id progress : Z) : result (highest_quests * option json) :=
  match self with
  | EmptyDict => Raise TypeError
  | HighestQuests data =>
      let* current := data_get data zone_id in
      if current <? progress then
        match data with
        | JArray l =>
            let data := JArray (list_set l zone_id progress) in
            Return (HighestQuests data, Some data)
        | JObject _ => Raise KeyError
        end
      else Return (self, file)
  end.

(** [self.is_quest_number_too_low(zone, number_of_quests)] *)
Definition is_quest_number_too_low (self : highest_quests)
    (zone : Classes.Zone) (number_of_quests : Z) : result bool :=
  match self with
  | EmptyDict => Raise AttributeError
  | HighestQuests data =>
      let* highest := data_get data (Classes.zone_id zone - 1) in
      Return (number_of_quests <? highest + QUEST_THRESHOLD)
  end.

End Manager.


(** * Properties *)

(** ** Helper lemmas on the Python containers *)

Lemma py_list_get_out_of_range {A : Type} (l : list A) (i : Z) :
  i < - Z.of_nat (length l) \/ Z.of_nat (length l) <= i ->
  py_list_get l i = Raise IndexError.
Proof.
  intros Hi. unfold py_list_get.
  destruct (Z.ltb_spec i 0) as [Hneg|Hpos].
  - destruct (Z.ltb_spec (i + Z.of_nat (length l)) 0) as [_|Hge]; [reflexivity|].
    lia.
  - destruct (Z.ltb_spec i 0) as [?|_]; [lia|].
    rewrite (lookup_ge_None_2 l (Z.to_nat i)) by lia. reflexivity.
Qed.

Lemma py_list_get_in_range {A : Type} (l : list A) (i : Z) (x : A) :
  0 <= i -> l !! Z.to_nat i = Some x -> py_list_get l i = Return x.
Proof.
  intros Hi Hx. unfold py_list_get.
  destruct (Z.ltb_spec i 0) as [?|_]; [lia|].
  destruct (Z.ltb_spec i 0) as [?|_]; [lia|].
  rewrite Hx. reflexivity.
Qed.

Lemma py_list_get_negative {A : Type} (l : list A) (i : Z) :
  - Z.of_nat (length l) <= i < 0 ->
  py_list_get l i = py_list_get l (i + Z.of_nat (length l)).
Proof.
  intros Hi. unfold py_list_get. cbv zeta.
  destruct (Z.ltb_spec i 0) as [_|?]; [|lia].
  destruct (Z.ltb_spec (i + Z.of_nat (length l)) 0) as [?|_]; [lia|].
  destruct (Z.ltb_spec (i + Z.of_nat (length l)) 0) as [?|_]; [lia|].
  reflexivity.
Qed.

Lemma loaded_registry : loaded = Return registry.
Proof. vm_cast_no_check (eq_refl (Return registry)). Qed.

Lemma registry_size : length (_LIST registry) = 60%nat.
Proof. reflexivity. Qed.

(** ** The apply pipeline *)

(** C1.  [apply] follows the duration countdown: with duration 0 it
    returns [None] at once and changes nothing; with a positive duration
    it decrements first and then runs the behaviour, also when the
    decrement reached 0; with duration -1 it runs the behaviour on the
    unchanged instance.  When the behaviour itself leaves [self.duration]
    alone, the duration after the call is the decremented one, or still
    -1. *)
Theorem apply_follows_countdown (function : behaviour) (self : instance)
    (context : ModifierContext) (h : heap) :
  (duration self = 0 ->
     apply function self context h = Return (VNone, self, h)) /\
  (0 < duration self ->
     apply function self context h
     = function (set_duration self (duration self - 1)) context h) /\
  (duration self = -1 ->
     apply function self context h = function self context h) /\
  (keeps_duration function ->
     forall v self' h',
       apply function self context h = Return (v, self', h') ->
       (duration self = 0 -> v = VNone /\ self' = self /\ h' = h) /\
       (0 < duration self -> duration self' = duration self - 1) /\
       (duration self = -1 -> duration self' = -1)).
Proof.
  unfold apply. split; [|split; [|split]].
  - intros H0. rewrite H0. reflexivity.
  - intros Hpos. destruct (Z.ltb_spec 0 (duration self)); [reflexivity|lia].
  - intros Hm. rewrite Hm. reflexivity.
  - intros Hkeep v self' h' Hrun. split; [|split].
    + intros H0. rewrite H0 in Hrun. simpl in Hrun.
      injection Hrun as <- <- <-. auto.
    + intros Hpos. destruct (Z.ltb_spec 0 (duration self)); [|lia].
      apply Hkeep in Hrun. exact Hrun.
    + intros Hm. rewrite Hm in Hrun. simpl in Hrun.
      apply Hkeep in Hrun. congruence.
Qed.

Lemma apply_follows_countdown_witness :
  let f := GenericDamageBonus_function registry in
  let m := Modifier__init__ "FireAttackBonus" 3 in
  apply f (m 0) sample_context sample_heap = Return (VNone, m 0, sample_heap) /\
  apply f (m 5) sample_context sample_heap = f (m 4) sample_context sample_heap /\
  apply f (m (-1)) sample_context sample_heap
  = f (m (-1)) sample_context sample_heap.
Proof.
  intros f m. split; [|split].
  - apply (proj1 (apply_follows_countdown f (m 0) sample_context sample_heap)).
    reflexivity.
  - apply (proj1 (proj2 (apply_follows_countdown f (m 5) sample_context
                           sample_heap))).
    reflexivity.
  - apply (proj1 (proj2 (proj2 (apply_follows_countdown f (m (-1))
                                   sample_context sample_heap)))).
    reflexivity.
Defined.

(** ** The registry *)

Lemma all_indexed_lookup {A : Type} (P : nat -> A -> bool) (l : list A) :
  forall i, all_indexed P i l = true ->
  forall j x, l !! j = Some x -> P (i + j)%nat x = true.
Proof.
  induction l as [|y l IH]; intros i Hall j x Hx.
  - rewrite lookup_nil in Hx. discriminate.
  - simpl in Hall. apply andb_true_iff in Hall as [Hy Hr].
    destruct j as [|j]; simpl in Hx.
    + injection Hx as <-. rewrite Nat.add_0_r. exact Hy.
    + replace (i + S j)%nat with (S i + j)%nat by lia.
      eapply IH; eauto.
Qed.

Lemma registry_indexed :
  all_indexed (indexed_by_id_and_name registry) 0 (_LIST registry) = true.
Proof. vm_compute. reflexivity. Qed.

Lemma registry_names_in_list (name c : string) :
  _NAME_LUT registry !! name = Some c -> name ∈ display_names registry.
Proof.
  intros H. apply elem_of_map_to_list in H.
  assert (Hall : Forall (fun kv => kv.1 ∈ display_names registry)
                   (map_to_list (_NAME_LUT registry))).
  { apply (bool_decide_unpack _). vm_compute. exact I. }
  rewrite Forall_forall in Hall. exact (Hall _ H).
Qed.

Lemma registry_lookup_by_id (i : Z) :
  0 <= i < 60 ->
  exists c name,
    _LIST registry !! Z.to_nat i = Some c /\
    class_attr registry ID c = Some i /\
    class_attr registry NAME c = Some name /\
    _NAME_LUT registry !! name = Some c.
Proof.
  intros Hi.
  destruct (lookup_lt_is_Some_2 (_LIST registry) (Z.to_nat i)) as [c Hc].
  { rewrite registry_size. lia. }
  pose proof (all_indexed_lookup _ _ 0%nat registry_indexed _ _ Hc) as Hok.
  unfold indexed_by_id_and_name in Hok. simpl Nat.add in Hok.
  apply andb_true_iff in Hok as [Hid Hname].
  apply bool_decide_eq_true in Hid. rewrite Z2Nat.id in Hid by lia.
  destruct (class_attr registry NAME c) as [name|] eqn:Hn; [|discriminate].
  apply bool_decide_eq_true in Hname.
  exists c, name. repeat split; assumption || reflexivity.
Qed.

(** C5, counterexample.  -1 is the id of no registered variant, and
    [get_modifier(-1, 7)] returns an instance all the same: Python counts
    a negative index from the end of [_LIST]. *)
Lemma negative_id_is_served :
  (-1 ∉ ids registry) /\
  get_modifier registry (-1) 7
  = Return (Modifier__init__ "AdditionalHelper" 7 (-1)).
Proof.
  split; [|reflexivity].
  apply (bool_decide_unpack _). vm_compute. exact I.
Qed.

(** C5, amended.  An id at or beyond the catalog size, or below minus the
    size, fails with [IndexError]; a name that is the display name of no
    registered variant fails with [KeyError]; both are [LookupError]s.  An
    id from -60 to -1 is served as the id 60 places higher. *)
Theorem unknown_lookups_fail (modifier_id strength : Z) (name : string) :
  (modifier_id < -60 \/ 60 <= modifier_id ->
     get_modifier registry modifier_id strength = Raise IndexError) /\
  (-60 <= modifier_id < 0 ->
     get_modifier registry modifier_id strength
     = get_modifier registry (modifier_id + 60) strength) /\
  (name ∉ display_names registry ->
     get_modifier_from_name registry name strength = Raise KeyError) /\
  is_LookupError IndexError = true /\ is_LookupError KeyError = true.
Proof.
  split; [|split; [|split; [|split; reflexivity]]].
  - intros Hid. unfold get_modifier.
    rewrite py_list_get_out_of_range; [reflexivity|].
    rewrite registry_size. lia.
  - intros Hid. unfold get_modifier.
    rewrite py_list_get_negative by (rewrite registry_size; lia).
    rewrite registry_size. reflexivity.
  - intros Hname. unfold get_modifier_from_name, py_dict_get.
    destruct (_NAME_LUT registry !! name) as [c|] eqn:Hc; [|reflexivity].
    exfalso. apply Hname. eapply registry_names_in_list. exact Hc.
Qed.

Lemma unknown_lookups_fail_witness :
  get_modifier registry 60 7 = Raise IndexError /\
  get_modifier registry (-61) 7 = Raise IndexError /\
  get_modifier registry (-60) 7 = get_modifier registry 0 7 /\
  get_modifier_from_name registry "Slash Shielded" 7 = Raise KeyError.
Proof.
  split; [|split; [|split]].
  - apply (proj1 (unknown_lookups_fail 60 7 "")). right. reflexivity.
  - apply (proj1 (unknown_lookups_fail (-61) 7 "")). left. reflexivity.
  - apply (proj1 (proj2 (unknown_lookups_fail (-60) 7 ""))).
    split; [discriminate|reflexivity].
  - apply (proj1 (proj2 (proj2 (unknown_lookups_fail 0 7 "Slash Shielded")))).
    apply (bool_decide_unpack _). vm_compute. exact I.
Defined.

(** C9.  After import every class of [_LIST] has an id and a display
    name, no two share either; the four tiers are the keys of
    [_RARITY_INDEX], are pairwise disjoint and together hold exactly the
    classes of [_LIST]; a nested class exists but has no id and is in
    [_LIST], in a tier or behind a name nowhere. *)
Theorem registry_unique_and_tiered :
  length (ids registry) = length (_LIST registry) /\
  NoDup (ids registry) /\
  length (display_names registry) = length (_LIST registry) /\
  NoDup (display_names registry) /\
  NoDup (_LIST registry) /\
  map fst (map_to_list (_RARITY_INDEX registry)) ≡ₚ [0; 1; 2; 3] /\
  NoDup (tiers registry) /\
  tiers registry ≡ₚ _LIST registry /\
  Forall (fun c =>
            is_Some (classes registry !! c) /\
            class_attr registry ID c = None /\
            (c ∉ _LIST registry) /\
            (c ∉ tiers registry) /\
            (c ∉ named_classes registry))
         nested_classes.
Proof.
  repeat split;
    try reflexivity;
    try (apply (bool_decide_unpack _); vm_compute; exact I).
Qed.

(** C10.  For every id [i] of the catalog and every strength [s],
    [get_modifier(i, s)] is a new instance of the class whose [ID] is [i],
    with strength [s] and duration -1, and [get_modifier_from_name] on the
    [NAME] of that class gives an instance of the same class with the same
    fields.  Both lookups only read the registry. *)
Theorem lookups_round_trip (i strength : Z) :
  0 <= i < Z.of_nat (length (_LIST registry)) ->
  exists c name,
    get_modifier registry i strength
    = Return {| cls := c; strength := strength; duration := -1 |} /\
    class_attr registry ID c = Some i /\
    class_attr registry NAME c = Some name /\
    get_modifier_from_name registry name strength
    = Return {| cls := c; strength := strength; duration := -1 |}.
Proof.
  rewrite registry_size. intros Hi.
  destruct (registry_lookup_by_id i Hi) as (c & name & Hc & Hid & Hname & Hlut).
  exists c, name. split; [|split; [|split]]; auto.
  - unfold get_modifier.
    rewrite (py_list_get_in_range _ _ c) by (lia || exact Hc). reflexivity.
  - unfold get_modifier_from_name, py_dict_get. rewrite Hlut. reflexivity.
Qed.

Lemma lookups_round_trip_witness :
  exists c name,
    get_modifier registry 34 9
    = Return {| cls := c; strength := 9; duration := -1 |} /\
    class_attr registry ID c = Some 34 /\
    class_attr registry NAME c = Some name /\
    get_modifier_from_name registry name 9
    = Return {| cls := c; strength := 9; duration := -1 |}.
Proof.
  apply (lookups_round_trip 34 9). split; [discriminate|reflexivity].
Defined.

(** ** Registration of a malformed definition *)

(** C6, counterexample.  A class statement with [SCALING = 0] and the
    display name of [Berserk] registers without an exception: it gets the
    next id, and the name now leads to it instead of to [Berserk]. *)
Lemma malformed_definition_registers :
  exec_class malformed registry = Return malformed_state /\
  _LIST malformed_state = _LIST registry ++ ["Malformed"] /\
  _NAME_LUT registry !! "Berserk" = Some "Berserk" /\
  _NAME_LUT malformed_state !! "Berserk" = Some "Malformed" /\
  class_attr malformed_state SCALING "Malformed" = Some (PyInt 0).
Proof.
  split; [vm_cast_no_check (eq_refl (Return malformed_state))|].
  repeat split; vm_compute; reflexivity.
Qed.

Lemma generate_zero_int_scaling (c : class_obj) (level : Z) :
  SCALING c = Some (PyInt 0) -> generate c level = Raise ZeroDivisionError.
Proof. intros H. unfold generate. rewrite H. reflexivity. Qed.

Lemma generate_zero_float_scaling (c : class_obj) (level : Z) (sign : bool) :
  SCALING c = Some (PyFloat (S754_zero sign)) ->
  generate c level = Raise ZeroDivisionError
  \/ generate c level = Raise OverflowError.
Proof.
  intros H. unfold generate. rewrite H. simpl.
  unfold PyFloat.of_int.
  destruct (binary_normalize _ _ _ _ _); simpl; auto.
Qed.

(** C6, amended.  Registration checks neither the scaling divisor nor the
    display name: a class statement on a base with [Modifier]'s hook, with
    a rarity whose tier exists and with a [NAME], always registers; the
    class is appended to [_LIST] and its name is bound to it, replacing
    whatever class held that name.  A scaling of 0 fails when [generate]
    is called, with [ZeroDivisionError] (or, for a float zero, the
    [OverflowError] of a level too large for a float). *)
Theorem registration_does_not_validate (st : module_state) (s : class_stmt)
    (base : class_obj) (r : Z) (bucket : list string) (name : string) :
  classes st !! c_base s = Some base ->
  hook base = Modifier_hook ->
  c_kw s = rarity_kw r ->
  _RARITY_INDEX st !! r = Some bucket ->
  NAME (new_class s base) = Some name ->
  (exists st',
     exec_class s st = Return st' /\
     _LIST st' = _LIST st ++ [c_name s] /\
     _RARITY_INDEX st' = <[r := bucket ++ [c_name s]]> (_RARITY_INDEX st) /\
     _NAME_LUT st' = <[name := c_name s]> (_NAME_LUT st) /\
     class_attr st' SCALING (c_name s) = SCALING (new_class s base)) /\
  (forall level sign,
     (SCALING (new_class s base) = Some (PyInt 0) ->
        generate (new_class s base) level = Raise ZeroDivisionError) /\
     (SCALING (new_class s base) = Some (PyFloat (S754_zero sign)) ->
        generate (new_class s base) level = Raise ZeroDivisionError
        \/ generate (new_class s base) level = Raise OverflowError)).
Proof.
  intros Hbase Hhook Hkw Hbucket Hname. split.
  - unfold exec_class, class_of. rewrite Hbase. cbn [bind]. rewrite Hhook, Hkw.
    cbn [kw_dmg_type kw_mod_type kw_rarity rarity_kw].
    unfold Modifier__init_subclass__, setattr, class_of.
    cbn [classes _LIST _RARITY_INDEX _NAME_LUT bind].
    rewrite lookup_insert_eq. cbn [bind classes _LIST _RARITY_INDEX _NAME_LUT].
    rewrite lookup_insert_eq. cbn [bind classes _LIST _RARITY_INDEX _NAME_LUT].
    rewrite Hbucket. rewrite lookup_insert_eq. cbn [bind].
    destruct (new_class s base) as [q hk i rr t o mx mn sc nm dt] eqn:Hc.
    cbn [assign NAME] in *. rewrite Hname.
    eexists. split; [reflexivity|].
    cbn [classes _LIST _RARITY_INDEX _NAME_LUT]. repeat split.
    unfold class_attr. cbn [classes]. rewrite lookup_insert_eq. reflexivity.
  - intros level sign. split.
    + apply generate_zero_int_scaling.
    + apply generate_zero_float_scaling.
Qed.

Lemma registration_does_not_validate_witness :
  exists st',
    exec_class malformed registry = Return st' /\
    _LIST st' = _LIST registry ++ ["Malformed"] /\
    _RARITY_INDEX st'
    = <[0 := get_modifiers_by_rarity registry 0 ++ ["Malformed"]]>
        (_RARITY_INDEX registry) /\
    _NAME_LUT st' = <["Berserk" := "Malformed"]> (_NAME_LUT registry) /\
    class_attr st' SCALING "Malformed" = Some (PyInt 0).
Proof.
  apply (proj1 (registration_does_not_validate registry malformed Modifier 0
                  (get_modifiers_by_rarity registry 0) "Berserk"
                  eq_refl eq_refl eq_refl eq_refl eq_refl)).
Defined.

(** ** Floats that are not negative *)

Lemma binary_round_aux_sign (sx : bool) (mx ex : Z) (lx : location) :
  match binary_round_aux PyFloat.prec PyFloat.emax sx mx ex lx with
  | S754_finite s _ _ => s = sx
  | _ => True
  end.
Proof.
  unfold binary_round_aux.
  destruct (shr_fexp _ _ mx ex lx) as [mrs' e'].
  destruct (shr_fexp _ _ _ e' loc_Exact) as [mrs'' e''].
  destruct (shr_m mrs''); auto.
  destruct (Z.leb _ _); auto.
Qed.

Lemma int_truediv_not_negative (a b : Z) (f : spec_float) :
  0 <= a -> 0 < b -> PyFloat.int_truediv a b = Return f -> not_negative f.
Proof.
  intros Ha Hb. unfold PyFloat.int_truediv.
  destruct (Z.eqb_spec b 0) as [?|_]; [lia|].
  destruct a as [|pa|pa]; [| |lia]; destruct b as [|pb|pb]; try lia.
  - simpl. intros [= <-]. exact I.
  - unfold PyFloat.exact_int, SFdiv.
    destruct (SFdiv_core_binary _ _ _ _ _ _) as [[mz ez] lz].
    pose proof (binary_round_aux_sign (xorb false false) mz ez lz) as Hs.
    destruct (binary_round_aux _ _ _ _ _ _); intros [= <-]; simpl; auto.
Qed.

Lemma of_int_not_negative (x : Z) (f : spec_float) :
  0 <= x -> PyFloat.of_int x = Return f -> not_negative f.
Proof.
  intros Hx. unfold PyFloat.of_int, binary_normalize.
  destruct x as [|p|p]; [| |lia].
  - intros [= <-]. exact I.
  - unfold binary_round.
    destruct (shl_align _ _ _) as [mz ez].
    pose proof (binary_round_aux_sign false (Zpos mz) ez loc_Exact) as Hs.
    destruct (binary_round_aux _ _ _ _ _ _); intros [= <-]; simpl; auto.
Qed.

Lemma mul_not_negative (x y : spec_float) :
  not_negative x -> not_negative y -> not_negative (PyFloat.mul x y).
Proof.
  unfold PyFloat.mul, SFmul.
  destruct x as [sx|sx| |sx mx ex], y as [sy|sy| |sy my ey]; simpl; auto.
  intros -> ->.
  pose proof (binary_round_aux_sign (xorb false false) (Zpos (mx * my))
                (ex + ey) loc_Exact) as Hs.
  destruct (binary_round_aux _ _ _ _ _ _); simpl; auto.
Qed.

Lemma to_int_not_negative (f : spec_float) (z : Z) :
  not_negative f -> PyFloat.to_int f = Return z -> 0 <= z.
Proof.
  destruct f as [s|s| |s m e]; simpl; try discriminate.
  - intros _ [= <-]. lia.
  - intros -> [= <-]. destruct e as [|p|p].
    + lia.
    + rewrite Z.shiftl_mul_pow2 by lia. apply Z.mul_nonneg_nonneg; [lia|].
      apply Z.pow_nonneg. lia.
    + apply Z.shiftr_nonneg. lia.
Qed.

Lemma int_times_fstrength_not_negative (x : Z) (self : instance) (z : Z) :
  0 <= x -> 0 <= strength self ->
  int_times_fstrength x self = Return z -> 0 <= z.
Proof.
  intros Hx Hs. unfold int_times_fstrength, get_fstrength, int_mul_float.
  destruct (PyFloat.int_truediv (strength self) 100) as [f|] eqn:Hf;
    [|discriminate].
  cbn [bind].
  destruct (PyFloat.of_int x) as [fx|] eqn:Hfx; [|discriminate].
  cbn [bind]. intros Hz. eapply to_int_not_negative; [|exact Hz].
  apply mul_not_negative.
  - exact (of_int_not_negative x fx Hx Hfx).
  - apply (int_truediv_not_negative (strength self) 100 f Hs); [lia|exact Hf].
Qed.

(** For amounts up to 300 and strengths up to 100, the truncated float
    product is the floor of [x * s / 100], or one less where that
    quotient is a whole number. *)
Lemma int_times_fstrength_near_floor :
  Forall (fun x =>
            Forall (fun s => near_floor (Z.of_nat x) (Z.of_nat s) = true)
                   (seq 0 101))
         (seq 0 301).
Proof. apply (bool_decide_unpack _). vm_compute. exact I. Qed.

Lemma write_to_log_logged (context : ModifierContext) (text : string)
    (h : heap) :
  sink_ok context ->
  write_to_log context text h
  = Return {| damages := damages h; actors := actors h;
              combat_log := logged context text (combat_log h) |}.
Proof.
  unfold write_to_log, logged.
  intros [-> | ->]; [destruct h|]; reflexivity.
Qed.

(** ** The revive of the Idiot God blessing *)

(** C3, counterexample.  A revive with duration 1 applied while the
    defender stands ends with duration 1, not 2: [apply] first counts down
    to 0 and the behaviour then adds 1.  Applied to a fallen defender with
    100 max HP at strength 29 it restores 28 HP, where
    [floor(100 * 29 / 100)] is 29: the product is taken in binary64. *)
Lemma revive_scenario_differs :
  let revive := Modifier__init__ "IdiotGodBlessing.FreeRevive" 29 1 in
  let run := apply (IdiotGodBlessing_FreeRevive_function sample_hp_string) in
  run revive standing_context sample_heap
  = Return (VNone, set_duration revive 1, sample_heap) /\
  (exists h',
     run revive sample_context sample_heap
     = Return (VNone, set_duration revive 0, h') /\
     hp <$> actors h' !! 0%nat = Some 28) /\
  100 * 29 / 100 = 29.
Proof.
  split; [|split].
  - vm_compute. reflexivity.
  - eexists. split; vm_compute; reflexivity.
  - reflexivity.
Qed.

(** C3, amended.  A revive with duration 1, applied when the defender is
    at 0 HP, calls [modify_hp] with [int(maxHP * (strength / 100))], the
    product and the quotient taken in binary64, which restores exactly
    that many HP when it lies between 0 and max HP, and leaves the duration
    at 0; applied when the defender is above 0 HP it puts the duration back
    to 1, its value before the call, and changes nothing else. *)
Theorem revive_consumes_or_keeps_charge (get_hp_string : CombatActor -> string)
    (self : instance) (context : ModifierContext) (h : heap)
    (le : nat) (entity : CombatActor) :
  duration self = 1 ->
  ctx_get context "other" = VActor le ->
  actors h !! le = Some entity ->
  sink_ok context ->
  (hp entity = 0 ->
   forall amount,
     int_times_fstrength (max_hp entity) self = Return amount ->
     exists h',
       apply (IdiotGodBlessing_FreeRevive_function get_hp_string) self context h
       = Return (VNone, set_duration self 0, h') /\
       actors h' = <[le := modify_hp amount false entity]> (actors h) /\
       damages h' = damages h /\
       (0 <= amount <= max_hp entity ->
        hp (modify_hp amount false entity) = amount)) /\
  (hp entity <> 0 ->
   apply (IdiotGodBlessing_FreeRevive_function get_hp_string) self context h
   = Return (VNone, set_duration self 1, h)).
Proof.
  intros Hd Hother Hent Hsink.
  unfold apply, IdiotGodBlessing_FreeRevive_function. rewrite Hd.
  cbn [Z.ltb Z.compare set_duration duration cls strength Z.sub Z.add
       Z.opp Z.pos_sub Z.eqb].
  rewrite Hother. unfold deref_actor. rewrite Hent. cbn [bind]. unfold is_dead.
  split.
  - intros Hhp amount Hamount. rewrite Hhp. cbn [Z.eqb].
    change (1 - 1) with 0.
    change (int_times_fstrength (max_hp entity) (set_duration self 0))
      with (int_times_fstrength (max_hp entity) self).
    rewrite Hamount. cbn [bind].
    rewrite write_to_log_logged by exact Hsink. cbn [bind].
    eexists. split; [reflexivity|]. cbn [actors damages store_actor].
    repeat split. intros Hrange. unfold modify_hp. cbn [hp]. rewrite Hhp. lia.
  - intros Hhp. destruct (Z.eqb_spec (hp entity) 0) as [?|_]; [contradiction|].
    reflexivity.
Qed.

Lemma revive_consumes_or_keeps_charge_witness :
  let revive := Modifier__init__ "IdiotGodBlessing.FreeRevive" 50 1 in
  let run := apply (IdiotGodBlessing_FreeRevive_function sample_hp_string) in
  (exists h',
     run revive sample_context sample_heap
     = Return (VNone, set_duration revive 0, h') /\
     actors h'
     = <[0%nat := modify_hp 50 false (Build_CombatActor "Bob" 0 100)]>
         (actors sample_heap) /\
     damages h' = damages sample_heap /\
     (0 <= 50 <= 100 ->
      hp (modify_hp 50 false (Build_CombatActor "Bob" 0 100)) = 50)) /\
  run revive standing_context sample_heap
  = Return (VNone, set_duration revive 1, sample_heap).
Proof.
  intros revive run. split.
  - apply (proj1 (revive_consumes_or_keeps_charge sample_hp_string revive
                    sample_context sample_heap 0%nat
                    (Build_CombatActor "Bob" 0 100)
                    eq_refl eq_refl eq_refl (or_intror eq_refl))
                 eq_refl 50 eq_refl).
  - assert (Hother : ctx_get standing_context "other" = VActor 1%nat)
      by (vm_compute; reflexivity).
    assert (Hsink : sink_ok standing_context)
      by (right; vm_compute; reflexivity).
    apply (proj2 (revive_consumes_or_keeps_charge sample_hp_string revive
                    standing_context sample_heap
                    1%nat (Build_CombatActor "Al" 7 100)
                    eq_refl Hother eq_refl Hsink)).
    discriminate.
Defined.

(** ** Absorption *)

(** C4, counterexample.  A fire absorption of strength 29 that receives
    100 points of fire damage heals 28 HP, where [floor(100 * 29 / 100)]
    is 29: [29 / 100] and the product are rounded to binary64 before the
    truncation. *)
Lemma absorb_heals_one_less :
  (exists h',
     GenericDamageAbsorb_function registry sample_hp_string
       (Modifier__init__ "FireAbsorb" 29 (-1)) sample_context (fire_heap 100)
     = Return (VNone, Modifier__init__ "FireAbsorb" 29 (-1), h') /\
     hp <$> actors (fire_heap 100) !! 1%nat = Some 7 /\
     hp <$> actors h' !! 1%nat = Some (7 + 28)) /\
  100 * 29 / 100 = 29.
Proof.
  split; [|reflexivity].
  eexists. repeat split; vm_compute; reflexivity.
Qed.

(** C4, amended.  On a tracked amount that is not positive the absorption
    does nothing: no healing and no log write.  On a positive amount it
    heals the defender, past max HP if need be, by
    [int(amount * (strength / 100))] with the quotient and the product
    taken in binary64, and by 1 when that is 0; it writes one line to the
    log and leaves the damage value alone.  With a strength that is not
    negative the healing is at least 1 HP. *)
Theorem absorb_heals_fraction (st : module_state)
    (get_hp_string : CombatActor -> string)
    (self : instance) (context : ModifierContext) (h : heap)
    (l : nat) (damage : Damage) (key : string) (element : Z) :
  ctx_get context "damage" = VDamage l ->
  damages h !! l = Some damage ->
  self_DAMAGE_TYPE st self = Return key ->
  DamageOps.get_field damage key = Return element ->
  sink_ok context ->
  (element <= 0 ->
   GenericDamageAbsorb_function st get_hp_string self context h
   = Return (VNone, self, h)) /\
  (0 < element ->
   forall raw la a,
     int_times_fstrength element self = Return raw ->
     ctx_get context "target" = VActor la ->
     actors h !! la = Some a ->
     let healed := if raw =? 0 then 1 else raw in
     let a' := modify_hp healed true a in
     exists h',
       GenericDamageAbsorb_function st get_hp_string self context h
       = Return (VNone, self, h') /\
       actors h' = <[la := a']> (actors h) /\
       damages h' = damages h /\
       combat_log h'
       = logged context (absorb_text get_hp_string a' healed key)
           (combat_log h) /\
       healed <> 0 /\
       (0 <= strength self ->
        1 <= healed /\ (0 <= hp a -> hp a' = hp a + healed))).
Proof.
  intros Hdamage Hl Hkey Helement Hsink.
  unfold GenericDamageAbsorb_function.
  rewrite Hdamage. unfold deref_damage. rewrite Hl. cbn [bind].
  rewrite Hkey. cbn [bind]. rewrite Helement. cbn [bind].
  split.
  - intros Hle. destruct (Z.ltb_spec 0 element) as [?|_]; [lia|]. reflexivity.
  - intros Hpos raw la a Hraw Htarget Ha.
    set (healed := if raw =? 0 then 1 else raw).
    set (a' := modify_hp healed true a).
    destruct (Z.ltb_spec 0 element) as [_|?]; [|lia].
    rewrite Hraw. cbn [bind]. rewrite Htarget. unfold deref_actor.
    rewrite Ha. cbn [bind].
    rewrite write_to_log_logged by exact Hsink. cbn [bind].
    eexists. split; [reflexivity|].
    cbn [actors damages combat_log store_actor].
    split; [reflexivity|]. split; [reflexivity|]. split; [reflexivity|].
    assert (Hne : healed <> 0).
    { unfold healed. destruct (Z.eqb_spec raw 0); lia. }
    split; [exact Hne|].
    intros Hs.
    pose proof (int_times_fstrength_not_negative element self raw
                  ltac:(lia) Hs Hraw) as Hraw0.
    assert (Hh : 1 <= healed).
    { unfold healed in *. destruct (Z.eqb_spec raw 0); lia. }
    split; [exact Hh|].
    intros Hhp. unfold a', modify_hp. cbn [hp]. lia.
Qed.

Lemma absorb_heals_fraction_witness :
  let absorb := Modifier__init__ "FireAbsorb" 50 (-1) in
  let run := GenericDamageAbsorb_function registry sample_hp_string absorb
               sample_context in
  let Al := Build_CombatActor "Al" 7 100 in
  run (fire_heap 0) = Return (VNone, absorb, fire_heap 0) /\
  (exists h',
     run (fire_heap 1) = Return (VNone, absorb, h') /\
     actors h' = <[1%nat := modify_hp 1 true Al]> (actors (fire_heap 1)) /\
     hp (modify_hp 1 true Al) = 7 + 1) /\
  (exists h',
     run (fire_heap 10) = Return (VNone, absorb, h') /\
     actors h' = <[1%nat := modify_hp 5 true Al]> (actors (fire_heap 10)) /\
     hp (modify_hp 5 true Al) = 7 + 5).
Proof.
  intros absorb run Al.
  assert (Hkey : self_DAMAGE_TYPE registry absorb = Return "fire")
    by (vm_compute; reflexivity).
  assert (Hsink : sink_ok sample_context) by (right; reflexivity).
  split; [|split].
  - apply (proj1 (absorb_heals_fraction registry sample_hp_string absorb
                    sample_context (fire_heap 0) 0%nat
                    (Build_Damage 0 0 0 0 0 0 0 0) "fire" 0
                    eq_refl eq_refl Hkey eq_refl Hsink)).
    discriminate.
  - destruct (proj2 (absorb_heals_fraction registry sample_hp_string absorb
                       sample_context (fire_heap 1) 0%nat
                       (Build_Damage 0 0 0 0 1 0 0 0) "fire" 1
                       eq_refl eq_refl Hkey eq_refl Hsink)
                    eq_refl 0 1%nat Al eq_refl eq_refl eq_refl)
      as (h' & Hrun & Hactors & _ & _ & _ & Hheal).
    exists h'. split; [exact Hrun|]. split; [exact Hactors|].
    apply Hheal; discriminate.
  - destruct (proj2 (absorb_heals_fraction registry sample_hp_string absorb
                       sample_context (fire_heap 10) 0%nat
                       (Build_Damage 0 0 0 0 10 0 0 0) "fire" 10
                       eq_refl eq_refl Hkey eq_refl Hsink)
                    eq_refl 5 1%nat Al eq_refl eq_refl eq_refl)
      as (h' & Hrun & Hactors & _ & _ & _ & Hheal).
    exists h'. split; [exact Hrun|]. split; [exact Hactors|].
    apply Hheal; discriminate.
Defined.

(** ** Damage values in place *)

Lemma add_empty (d : Damage) : DamageOps.add d DamageOps.empty = d.
Proof.
  destruct d. unfold DamageOps.add, DamageOps.empty. cbn.
  rewrite !Z.add_0_r. reflexivity.
Qed.

Lemma set_field_known_key (choice : nat) (key : string) (d : Damage) (v : Z) :
  DamageOps.keys !! choice = Some key ->
  exists d',
    DamageOps.set_field d key v = Return d' /\
    DamageOps.get_field d' key = Return v.
Proof.
  intros Hkey. destruct d.
  do 8 (destruct choice as [|choice];
        [injection Hkey as <-; eexists; split; reflexivity|]).
  discriminate.
Qed.

(** Under the model of [Damage] taken from the spec, the two generic
    behaviours allocate their result and leave every existing damage
    value as it was. *)
Lemma generic_damage_functions_allocate (st : module_state)
    (scale_amount : Z -> spec_float -> Z) (f : behaviour)
    (self : instance) (context : ModifierContext) (h : heap)
    (v : value) (self' : instance) (h' : heap) :
  f = GenericDamageMult_function st scale_amount
  \/ f = GenericDamageBonus_function st ->
  f self context h = Return (v, self', h') ->
  forall l d, damages h !! l = Some d -> damages h' !! l = Some d.
Proof.
  intros [-> | ->];
    unfold GenericDamageMult_function, GenericDamageBonus_function,
      scale_single_value, add_single_value, new_damage;
    destruct (deref_damage _ h) as [[l0 d0]|]; try discriminate; cbn [bind];
    destruct (self_DAMAGE_TYPE st self); try discriminate; cbn [bind];
    try (destruct (PyFloat.int_truediv _ _); try discriminate; cbn [bind]);
    destruct (DamageOps.get_field d0 _); try discriminate; cbn [bind];
    destruct (DamageOps.set_field d0 _ _); try discriminate; cbn [bind];
    intros [= <- <- <-] l d Hl; cbn [damages];
    apply lookup_app_l_Some; exact Hl.
Qed.

(** C7.  [RouletteAttack.function] writes [self.strength] into the drawn
    category of the damage value it was given: after the call the supplied
    object holds the strength there, and the returned value, a new object,
    holds the same amounts, the empty value having been added to it. *)
Theorem roulette_overwrites_supplied_damage (choice : nat) (key : string)
    (self : instance) (context : ModifierContext) (h : heap)
    (l : nat) (damage : Damage) :
  ctx_get context "damage" = VDamage l ->
  damages h !! l = Some damage ->
  DamageOps.keys !! choice = Some key ->
  exists damage' h' l',
    DamageOps.set_field damage key (strength self) = Return damage' /\
    DamageOps.get_field damage' key = Return (strength self) /\
    RouletteAttack_function choice self context h
    = Return (VDamage l', self, h') /\
    damages h' !! l = Some damage' /\
    damages h' !! l' = Some damage' /\
    l' <> l.
Proof.
  intros Hctx Hl Hkey.
  destruct (set_field_known_key choice key damage (strength self) Hkey)
    as (damage' & Hset & Hget).
  pose proof (lookup_lt_Some _ _ _ Hl) as Hlt.
  exists damage'. eexists. exists (S (length (damages h))).
  split; [exact Hset|]. split; [exact Hget|].
  unfold RouletteAttack_function. rewrite Hctx. unfold deref_damage.
  rewrite Hl. cbn [bind]. rewrite Hkey.
  cbn [new_damage damages actors combat_log]. rewrite Hset. cbn [bind].
  cbn [store_damage damages actors combat_log].
  rewrite list_lookup_insert_ne by lia.
  rewrite lookup_app_r by lia. rewrite Nat.sub_diag. cbn [lookup list_lookup].
  rewrite add_empty, length_insert, length_app. cbn [length].
  rewrite Nat.add_1_r.
  split; [reflexivity|]. cbn [damages].
  split; [|split; [|lia]].
  - rewrite lookup_app_l by (rewrite length_insert, length_app; cbn; lia).
    apply list_lookup_insert_eq. rewrite length_app. cbn. lia.
  - rewrite lookup_app_r by (rewrite length_insert, length_app; cbn; lia).
    rewrite length_insert, length_app. cbn [length].
    rewrite Nat.add_1_r, Nat.sub_diag. reflexivity.
Qed.

Lemma roulette_overwrites_supplied_damage_witness :
  let roulette := Modifier__init__ "RouletteAttack" 3 (-1) in
  damages sample_heap !! 0%nat = Some (Build_Damage 1 2 3 4 10 6 7 8) /\
  exists damage' h' l',
    DamageOps.set_field (Build_Damage 1 2 3 4 10 6 7 8) "slash" 3
    = Return damage' /\
    DamageOps.get_field damage' "slash" = Return 3 /\
    RouletteAttack_function 0 roulette sample_context sample_heap
    = Return (VDamage l', roulette, h') /\
    damages h' !! 0%nat = Some damage' /\
    damages h' !! l' = Some damage' /\
    l' <> 0%nat.
Proof.
  intros roulette. split; [reflexivity|].
  apply (roulette_overwrites_supplied_damage 0 "slash" roulette sample_context
           sample_heap 0%nat (Build_Damage 1 2 3 4 10 6 7 8)
           eq_refl eq_refl eq_refl).
Defined.

(** ** Multipliers before bonuses *)

Lemma registry_ordering_keys (c : string) (o : class_obj) :
  classes registry !! c = Some o -> ordering_matches_hook o = true.
Proof.
  intros H. apply elem_of_map_to_list in H.
  assert (Hall : Forall (fun co => ordering_matches_hook co.2 = true)
                   (map_to_list (classes registry))).
  { apply (bool_decide_unpack _). vm_compute. exact I. }
  rewrite Forall_forall in Hall. exact (Hall _ H).
Qed.

Lemma derived_ordering_key (k : init_hook) (m : instance) :
  derives_from registry k m ->
  exists o,
    classes registry !! cls m = Some o /\ hook o = k /\
    ordering_matches_hook o = true.
Proof.
  unfold derives_from, class_attr.
  destruct (classes registry !! cls m) as [o|] eqn:Ho; [|discriminate].
  intros [= Hk]. exists o. split; [reflexivity|]. split; [exact Hk|].
  eapply registry_ordering_keys. exact Ho.
Qed.

Lemma ordering_key_mult (m : instance) :
  derives_from registry GenericDamageMult_hook m ->
  ordering_key registry m = Return (0, m).
Proof.
  intros H. destruct (derived_ordering_key _ _ H) as (o & Ho & Hk & Hord).
  unfold ordering_matches_hook in Hord. rewrite Hk in Hord.
  apply Z.eqb_eq in Hord.
  unfold ordering_key, class_of. rewrite Ho. cbn [bind]. rewrite Hord.
  reflexivity.
Qed.

Lemma ordering_key_bonus (m : instance) :
  derives_from registry GenericDamageBonus_hook m ->
  ordering_key registry m = Return (1, m).
Proof.
  intros H. destruct (derived_ordering_key _ _ H) as (o & Ho & Hk & Hord).
  unfold ordering_matches_hook in Hord. rewrite Hk in Hord.
  apply Z.eqb_eq in Hord.
  unfold ordering_key, class_of. rewrite Ho. cbn [bind]. rewrite Hord.
  reflexivity.
Qed.

Lemma filterM_in_phase (st : module_state) (phase : Z) (ms : list instance) :
  Forall (known_class st) ms ->
  filterM (in_phase st phase) ms = Return (filter (eligible st phase) ms).
Proof.
  induction 1 as [|m ms [o Ho] _ IH]; [reflexivity|].
  cbn [filterM]. unfold in_phase at 1, class_of. rewrite Ho. cbn [bind].
  rewrite IH. cbn [bind]. rewrite filter_cons.
  destruct (decide (eligible st phase m)) as [He|He];
    unfold eligible, class_attr in He; rewrite Ho in He.
  - rewrite bool_decide_eq_true_2 by exact He. reflexivity.
  - rewrite bool_decide_eq_false_2 by exact He. reflexivity.
Qed.

Lemma registry_damage_type_is_key (c key : string) :
  class_attr registry DAMAGE_TYPE c = Some key -> key ∈ DamageOps.keys.
Proof.
  unfold class_attr. destruct (classes registry !! c) as [o|] eqn:Ho;
    [|discriminate].
  intros Hkey. apply elem_of_map_to_list in Ho.
  assert (Hall : Forall (fun co : string * class_obj =>
                           match DAMAGE_TYPE co.2 with
                           | Some k => bool_decide (k ∈ DamageOps.keys)
                           | None => true
                           end = true)
                   (map_to_list (classes registry))).
  { apply (bool_decide_unpack _). vm_compute. exact I. }
  rewrite Forall_forall in Hall. specialize (Hall _ Ho). cbn [snd] in Hall.
  rewrite Hkey in Hall. apply bool_decide_eq_true in Hall. exact Hall.
Qed.

(** Writing one category of a damage value: that category reads as
    written, every other one as before. *)
Lemma set_field_get_field (key : string) (d d' : Damage) (y : Z) :
  DamageOps.set_field d key y = Return d' ->
  forall k x,
    DamageOps.get_field d k = Return x ->
    DamageOps.get_field d' k = Return (if bool_decide (k = key) then y else x).
Proof.
  destruct d as [a b c o f ac fr e]. unfold DamageOps.set_field.
  repeat (destruct (decide (key = _)) as [->|?];
          [intros [= <-] k x; unfold DamageOps.get_field;
           repeat (destruct (decide (k = _)) as [->|?];
                   [intros [= <-]; reflexivity|]);
           discriminate|]).
  discriminate.
Qed.

Lemma get_field_known_key (key : string) (d : Damage) :
  key ∈ DamageOps.keys -> exists v, DamageOps.get_field d key = Return v.
Proof.
  intros Hkey. unfold DamageOps.keys in Hkey.
  repeat (apply elem_of_cons in Hkey as [->|Hkey]; [eexists; reflexivity|]).
  inversion Hkey.
Qed.

Lemma set_field_known (key : string) (d : Damage) (y : Z) :
  key ∈ DamageOps.keys -> exists d', DamageOps.set_field d key y = Return d'.
Proof.
  intros Hkey. destruct d. unfold DamageOps.keys in Hkey.
  repeat (apply elem_of_cons in Hkey as [->|Hkey]; [eexists; reflexivity|]).
  inversion Hkey.
Qed.

Lemma apply_countdown (f : behaviour) (m : instance)
    (context : ModifierContext) (h : heap) :
  apply f m context h
  = if active m then f (counted_down m) context h else Return (VNone, m, h).
Proof.
  unfold apply, active, counted_down.
  destruct (Z.ltb_spec 0 (duration m)) as [Hpos|Hle].
  - destruct (Z.eqb_spec (duration m) 0); [lia|reflexivity].
  - destruct (Z.eqb_spec (duration m) 0); reflexivity.
Qed.

Lemma counted_down_same_class (m : instance) :
  cls (counted_down m) = cls m /\ strength (counted_down m) = strength m.
Proof. unfold counted_down. destruct (0 <? duration m); auto. Qed.

(** One multiplier in the pipeline. *)
Lemma multiplier_step (scale_amount : Z -> spec_float -> Z) (m : instance)
    (key : string) (factor : spec_float) (context : ModifierContext)
    (h : heap) (l : nat) (d : Damage) :
  class_attr registry DAMAGE_TYPE (cls m) = Some key ->
  PyFloat.int_truediv (100 + strength m) 100 = Return factor ->
  ctx_get context "damage" = VDamage l ->
  damages h !! l = Some d ->
  exists v h' l' d',
    apply (GenericDamageMult_function registry scale_amount) m context h
    = Return (v, counted_down m, h') /\
    ctx_get (fold_back v context) "damage" = VDamage l' /\
    damages h' !! l' = Some d' /\
    (forall k x,
       DamageOps.get_field d k = Return x ->
       DamageOps.get_field d' k
       = Return (after_mult scale_amount m key factor k x)) /\
    (forall l0 d0, damages h !! l0 = Some d0 -> damages h' !! l0 = Some d0).
Proof.
  intros Hkey Hfactor Hctx Hl. rewrite apply_countdown.
  unfold after_mult. destruct (active m) eqn:Hact.
  - destruct (counted_down_same_class m) as [Hc Hs].
    pose proof (registry_damage_type_is_key _ _ Hkey) as Hin.
    destruct (get_field_known_key key d Hin) as (v & Hv).
    destruct (set_field_known key d (scale_amount v factor) Hin) as (d' & Hd').
    unfold GenericDamageMult_function, scale_single_value, self_DAMAGE_TYPE,
      class_of.
    rewrite Hctx. unfold deref_damage. rewrite Hl. cbn [bind].
    rewrite Hc, Hs. unfold class_attr in Hkey.
    destruct (classes registry !! cls m) as [o|]; [|discriminate].
    cbn [bind]. rewrite Hkey. cbn [bind]. rewrite Hfactor. cbn [bind].
    rewrite Hv. cbn [bind]. rewrite Hd'. cbn [bind new_damage].
    eexists. eexists. exists (length (damages h)), d'.
    split; [reflexivity|]. cbn [fold_back damages].
    split; [unfold ctx_get; rewrite lookup_insert_eq; reflexivity|].
    split; [rewrite lookup_app_r by lia; rewrite Nat.sub_diag; reflexivity|].
    split.
    + intros k x Hx. rewrite (set_field_get_field _ _ _ _ Hd' k x Hx).
      cbn [andb]. destruct (bool_decide (k = key)) eqn:Hk; [|reflexivity].
      apply bool_decide_eq_true in Hk. subst k. congruence.
    + intros l0 d0 H0. apply lookup_app_l_Some. exact H0.
  - exists VNone, h, l, d. cbn [fold_back andb].
    replace (counted_down m) with m.
    + repeat split; auto.
    + unfold counted_down, active in *.
      destruct (Z.eqb_spec (duration m) 0) as [E|]; [|discriminate].
      rewrite E. reflexivity.
Qed.

(** One bonus in the pipeline. *)
Lemma bonus_step (b : instance) (key : string) (context : ModifierContext)
    (h : heap) (l : nat) (d : Damage) :
  class_attr registry DAMAGE_TYPE (cls b) = Some key ->
  ctx_get context "damage" = VDamage l ->
  damages h !! l = Some d ->
  exists v h' l' d',
    apply (GenericDamageBonus_function registry) b context h
    = Return (v, counted_down b, h') /\
    ctx_get (fold_back v context) "damage" = VDamage l' /\
    damages h' !! l' = Some d' /\
    (forall k x,
       DamageOps.get_field d k = Return x ->
       DamageOps.get_field d' k = Return (after_bonus b key k x)) /\
    (forall l0 d0, damages h !! l0 = Some d0 -> damages h' !! l0 = Some d0).
Proof.
  intros Hkey Hctx Hl. rewrite apply_countdown.
  unfold after_bonus. destruct (active b) eqn:Hact.
  - destruct (counted_down_same_class b) as [Hc Hs].
    pose proof (registry_damage_type_is_key _ _ Hkey) as Hin.
    destruct (get_field_known_key key d Hin) as (v & Hv).
    destruct (set_field_known key d (v + strength b) Hin) as (d' & Hd').
    unfold GenericDamageBonus_function, add_single_value, self_DAMAGE_TYPE,
      class_of.
    rewrite Hctx. unfold deref_damage. rewrite Hl. cbn [bind].
    rewrite Hc, Hs. unfold class_attr in Hkey.
    destruct (classes registry !! cls b) as [o|]; [|discriminate].
    cbn [bind]. rewrite Hkey. cbn [bind].
    rewrite Hv. cbn [bind]. rewrite Hd'. cbn [bind new_damage].
    eexists. eexists. exists (length (damages h)), d'.
    split; [reflexivity|]. cbn [fold_back damages].
    split; [unfold ctx_get; rewrite lookup_insert_eq; reflexivity|].
    split; [rewrite lookup_app_r by lia; rewrite Nat.sub_diag; reflexivity|].
    split.
    + intros k x Hx. rewrite (set_field_get_field _ _ _ _ Hd' k x Hx).
      cbn [andb]. destruct (bool_decide (k = key)) eqn:Hk; [|reflexivity].
      apply bool_decide_eq_true in Hk. subst k. congruence.
    + intros l0 d0 H0. apply lookup_app_l_Some. exact H0.
  - exists VNone, h, l, d. cbn [fold_back andb].
    replace (counted_down b) with b.
    + repeat split; auto.
    + unfold counted_down, active in *.
      destruct (Z.eqb_spec (duration b) 0) as [E|]; [|discriminate].
      rewrite E. reflexivity.
Qed.

(** C8.  The classes derived from [_GenericDamageMult] have ordering key 0
    and those derived from [_GenericDamageBonus] have ordering key 1.  In
    a phase where, of the modifiers handed over, two multipliers and one
    bonus are eligible, wherever the bonus stands among them, the
    dispatch returns a new damage value in which every category holds
    its amount scaled by the first multiplier, then by the second, each
    on its own category, and then raised by the strength of the bonus on
    the category of the bonus: the bonus is added to what the multipliers
    gave and is not itself multiplied.  A modifier that has expired is
    passed over, and the damage value handed over is left as it was. *)
Theorem dispatch_multiplies_before_bonus (function_of : instance -> behaviour)
    (scale_amount : Z -> spec_float -> Z) (phase : Z) (m1 m2 b : instance)
    (k1 k2 kb : string) (f1 f2 : spec_float)
    (ms : list instance) (context : ModifierContext) (h : heap)
    (l : nat) (d : Damage) :
  derives_from registry GenericDamageMult_hook m1 ->
  derives_from registry GenericDamageMult_hook m2 ->
  derives_from registry GenericDamageBonus_hook b ->
  function_of m1 = GenericDamageMult_function registry scale_amount ->
  function_of m2 = GenericDamageMult_function registry scale_amount ->
  function_of b = GenericDamageBonus_function registry ->
  class_attr registry DAMAGE_TYPE (cls m1) = Some k1 ->
  class_attr registry DAMAGE_TYPE (cls m2) = Some k2 ->
  class_attr registry DAMAGE_TYPE (cls b) = Some kb ->
  PyFloat.int_truediv (100 + strength m1) 100 = Return f1 ->
  PyFloat.int_truediv (100 + strength m2) 100 = Return f2 ->
  Forall (known_class registry) ms ->
  filter (eligible registry phase) ms = [m1; m2; b]
  \/ filter (eligible registry phase) ms = [m1; b; m2]
  \/ filter (eligible registry phase) ms = [b; m1; m2] ->
  ctx_get context "damage" = VDamage l ->
  damages h !! l = Some d ->
  ordering_key registry m1 = Return (0, m1) /\
  ordering_key registry m2 = Return (0, m2) /\
  ordering_key registry b = Return (1, b) /\
  exists l' h' d',
    dispatch registry function_of phase ms context h
    = Return (VDamage l', [counted_down m1; counted_down m2; counted_down b],
              h') /\
    damages h' !! l' = Some d' /\
    (forall k x,
       DamageOps.get_field d k = Return x ->
       DamageOps.get_field d' k
       = Return (after_bonus b kb k
                   (after_mult scale_amount m2 k2 f2 k
                      (after_mult scale_amount m1 k1 f1 k x)))) /\
    damages h' !! l = Some d.
Proof.
  intros Hm1 Hm2 Hb Hf1 Hf2 Hfb Hk1 Hk2 Hkb Hfac1 Hfac2 Hknown Hms Hctx Hl.
  pose proof (ordering_key_mult m1 Hm1) as K1.
  pose proof (ordering_key_mult m2 Hm2) as K2.
  pose proof (ordering_key_bonus b Hb) as Kb.
  split; [exact K1|]. split; [exact K2|]. split; [exact Kb|].
  assert (Hsorted :
    (let* keyed := mapM (ordering_key registry)
                     (filter (eligible registry phase) ms) in
     Return (map snd (sort_by_key keyed))) = Return [m1; m2; b]).
  { destruct Hms as [-> | [-> | ->]]; cbn [mapM];
      rewrite ?K1, ?K2, ?Kb; reflexivity. }
  unfold dispatch. rewrite (filterM_in_phase _ _ _ Hknown). cbn [bind].
  destruct (mapM (ordering_key registry) _) as [keyed|]; [|discriminate].
  cbn [bind] in Hsorted |- *. injection Hsorted as ->.
  cbn [apply_each]. rewrite Hf1, Hf2, Hfb.
  destruct (multiplier_step scale_amount m1 k1 f1 context h l d
              Hk1 Hfac1 Hctx Hl)
    as (v1 & h1 & l1 & d1 & Hrun1 & Hctx1 & Hl1 & Hd1 & Hkeep1).
  rewrite Hrun1. cbn [bind fst snd].
  destruct (multiplier_step scale_amount m2 k2 f2 (fold_back v1 context) h1
              l1 d1 Hk2 Hfac2 Hctx1 Hl1)
    as (v2 & h2 & l2 & d2 & Hrun2 & Hctx2 & Hl2 & Hd2 & Hkeep2).
  rewrite Hrun2. cbn [bind fst snd].
  destruct (bonus_step b kb (fold_back v2 (fold_back v1 context)) h2 l2 d2
              Hkb Hctx2 Hl2)
    as (v3 & h3 & l3 & d3 & Hrun3 & Hctx3 & Hl3 & Hd3 & Hkeep3).
  rewrite Hrun3. cbn [bind fst snd]. rewrite Hctx3.
  exists l3, h3, d3. split; [reflexivity|]. split; [exact Hl3|]. split.
  - intros k x Hx. apply Hd3, Hd2, Hd1. exact Hx.
  - apply Hkeep3, Hkeep2, Hkeep1. exact Hl.
Qed.

Lemma dispatch_multiplies_before_bonus_witness :
  let m1 := Modifier__init__ "FireAttackMult" 50 (-1) in
  let m2 := Modifier__init__ "FireAttackMult" 100 3 in
  let b := Modifier__init__ "FireAttackBonus" 3 (-1) in
  let shield := Modifier__init__ "FireDefendMult" 100 (-1) in
  exists l' h' d',
    dispatch registry sample_function_of ModifierType.PRE_ATTACK
      [b; shield; m1; m2] sample_context sample_heap
    = Return (VDamage l', [m1; set_duration m2 2; b], h') /\
    damages h' !! l' = Some d' /\
    DamageOps.get_field d' "fire" = Return (10 * 3 / 2 * 2 + 3) /\
    DamageOps.get_field d' "slash" = Return 1 /\
    damages h' !! 0%nat = Some (Build_Damage 1 2 3 4 10 6 7 8).
Proof.
  intros m1 m2 b shield.
  assert (Hknown : Forall (known_class registry) [b; shield; m1; m2]).
  { repeat constructor; eexists; vm_compute; reflexivity. }
  assert (Hms : filter (eligible registry ModifierType.PRE_ATTACK)
                  [b; shield; m1; m2] = [b; m1; m2])
    by (vm_compute; reflexivity).
  destruct (dispatch_multiplies_before_bonus sample_function_of
              truncating_scale ModifierType.PRE_ATTACK m1 m2 b
              "fire" "fire" "fire"
              (S754_finite false 6755399441055744 (-52))
              (S754_finite false 4503599627370496 (-51))
              [b; shield; m1; m2] sample_context sample_heap 0%nat
              (Build_Damage 1 2 3 4 10 6 7 8)
              eq_refl eq_refl eq_refl eq_refl eq_refl eq_refl
              eq_refl eq_refl eq_refl eq_refl eq_refl Hknown
              (or_intror (or_intror Hms)) eq_refl eq_refl)
    as (_ & _ & _ & l' & h' & d' & Hrun & Hl' & Hd' & Hkept).
  exists l', h', d'. split; [exact Hrun|]. split; [exact Hl'|].
  split; [exact (Hd' "fire" 10 eq_refl)|].
  split; [exact (Hd' "slash" 1 eq_refl)|exact Hkept].
Defined.

(** On the sample: 10 points of fire under a 50% and a 100% multiplier and
    a bonus of 3 dispatch to (10 * 1.5) * 2 + 3 = 33, while in the order
    given, bonus first, they would give int((10 + 3) * 1.5) * 2 = 38. *)
Lemma bonus_is_not_multiplied :
  let m1 := Modifier__init__ "FireAttackMult" 50 (-1) in
  let m2 := Modifier__init__ "FireAttackMult" 100 (-1) in
  let b := Modifier__init__ "FireAttackBonus" 3 (-1) in
  let fire_of r :=
    match r with
    | Return (VDamage l, _, h) => fire <$> damages h !! l
    | _ => None
    end in
  fire_of (dispatch registry sample_function_of ModifierType.PRE_ATTACK
             [b; m1; m2] sample_context sample_heap) = Some 33 /\
  fire_of (apply_each sample_function_of [b; m1; m2] sample_context
             sample_heap) = Some 38.
Proof. split; vm_compute; reflexivity. Qed.

(** ** Binary64 division of two ints *)

Lemma digits2_pos_bounds (p : positive) :
  2 ^ (Zpos (digits2_pos p) - 1) <= Zpos p < 2 ^ Zpos (digits2_pos p).
Proof.
  induction p as [p IH|p IH|]; cbn [digits2_pos].
  - rewrite Pos2Z.inj_succ.
    replace (Z.succ (Zpos (digits2_pos p)) - 1) with (Z.succ (Zpos (digits2_pos p) - 1)) by lia.
    rewrite !Z.pow_succ_r by lia. lia.
  - rewrite Pos2Z.inj_succ.
    replace (Z.succ (Zpos (digits2_pos p)) - 1) with (Z.succ (Zpos (digits2_pos p) - 1)) by lia.
    rewrite !Z.pow_succ_r by lia. lia.
  - simpl. lia.
Qed.

Lemma Zdigits2_unique (q k : Z) :
  2 ^ (k - 1) <= q < 2 ^ k -> 1 <= k -> Zdigits2 q = k.
Proof.
  intros Hq Hk.
  assert (0 < q) by (pose proof (Z.pow_pos_nonneg 2 (k - 1)); lia).
  destruct q as [|p|p]; try lia. cbn [Zdigits2].
  pose proof (digits2_pos_bounds p) as Hp.
  set (d := Zpos (digits2_pos p)) in *.
  assert (Hd : 1 <= d) by (unfold d; lia).
  destruct (Z.lt_trichotomy d k) as [Hlt|[Heq|Hgt]]; [|exact Heq|].
  - exfalso. assert (2 ^ d <= 2 ^ (k - 1)) by (apply Z.pow_le_mono_r; lia). lia.
  - exfalso. assert (2 ^ k <= 2 ^ (d - 1)) by (apply Z.pow_le_mono_r; lia). lia.
Qed.

Lemma new_location_located (b q r : Z) :
  0 < b -> 0 <= r < b -> located (b * q + r) b q (new_location b r).
Proof.
  intros Hb Hr. unfold new_location, new_location_even, new_location_odd.
  destruct (Z.even b) eqn:Heven.
  - destruct (Z.eqb_spec r 0) as [->|Hr0]; cbn [located]; [lia|].
    split; [lia|].
    destruct (Z.compare_spec (2 * r) b), (Z.compare_spec (2 * (b * q + r)) ((2 * q + 1) * b));
      try reflexivity; lia.
  - destruct (Z.eqb_spec r 0) as [->|Hr0]; cbn [located]; [lia|].
    split; [lia|].
    assert (Hodd : Z.odd b = true) by (rewrite <- Z.negb_even, Heven; reflexivity).
    apply Z.odd_spec in Hodd. destruct Hodd as [c Hc].
    destruct (Z.compare_spec (2 * r + 1) b), (Z.compare_spec (2 * (b * q + r)) ((2 * q + 1) * b));
      try reflexivity; lia.
Qed.

Lemma shr_1_arith (m : Z) (r s : bool) :
  0 <= m ->
  shr_1 (Build_shr_record m r s) = Build_shr_record (m / 2) (Z.odd m) (r || s).
Proof.
  intros Hm. rewrite <- Z.div2_div.
  destruct m as [|[p|p|]|p]; try lia; reflexivity.
Qed.

Lemma shr_1_located (num den m : Z) (l : location) :
  0 < den -> 0 <= m -> located num den m l ->
  let mrs := shr_1 (shr_record_of_loc m l) in
  shr_m mrs = m / 2 /\ located num (2 * den) (shr_m mrs) (loc_of_shr_record mrs).
Proof.
  intros Hden Hm Hloc.
  pose proof (Z.div2_odd m) as Hdiv. rewrite Z.div2_div in Hdiv.
  set (m' := m / 2) in *.
  assert (Hrec : forall r s, shr_1 (Build_shr_record m r s)
                             = Build_shr_record m' (Z.odd m) (r || s)).
  { intros r s. apply shr_1_arith. exact Hm. }
  destruct l as [|c]; cbn [located shr_record_of_loc] in *.
  - rewrite Hrec. cbn [shr_m orb]. split; [reflexivity|].
    destruct (Z.odd m); cbn [loc_of_shr_record located Z.b2z] in *.
    + split; [lia|]. symmetry. apply Z.compare_eq_iff. lia.
    + lia.
  - destruct Hloc as [Hrange Hc].
    assert (Hrs : forall r s, r || s = true ->
              located num (2 * den) m'
                (loc_of_shr_record (Build_shr_record m' (Z.odd m) (r || s)))).
    { intros r s ->. destruct (Z.odd m); cbn [loc_of_shr_record located Z.b2z] in *.
      - split; [lia|]. symmetry. apply Z.compare_gt_iff. lia.
      - split; [lia|]. symmetry. apply Z.compare_lt_iff. lia. }
    destruct c; rewrite Hrec; cbn [shr_m]; (split; [reflexivity|]);
      apply Hrs; reflexivity.
Qed.

Lemma round_nearest_even_located (num den m : Z) (l : location) :
  located num den m l ->
  round_nearest_even m l = m
  \/ (round_nearest_even m l = m + 1 /\ (2 * m + 1) * den <= 2 * num).
Proof.
  destruct l as [|[| |]]; cbn [located round_nearest_even]; auto.
  - intros [Hrange Hc]. symmetry in Hc. apply Z.compare_eq_iff in Hc.
    destruct (Z.even m); [left; reflexivity|right; split; [reflexivity|lia]].
  - intros [Hrange Hc]. symmetry in Hc. apply Z.compare_gt_iff in Hc.
    right. split; [reflexivity|lia].
Qed.

Lemma loc_of_shr_record_of_loc (m : Z) (l : location) :
  loc_of_shr_record (shr_record_of_loc m l) = l
  /\ shr_m (shr_record_of_loc m l) = m.
Proof. destruct l as [|[| |]]; split; reflexivity. Qed.

Lemma located_halve (n d m : Z) (l : location) :
  located (2 * n) (2 * d) m l -> located n d m l.
Proof.
  destruct l as [|c]; cbn [located].
  - lia.
  - intros [Hr Hc]. split; [lia|]. rewrite Hc.
    destruct (Z.compare_spec (2 * (2 * n)) ((2 * m + 1) * (2 * d))),
             (Z.compare_spec (2 * n) ((2 * m + 1) * d));
      try reflexivity; lia.
Qed.

Lemma located_floor (n d m : Z) (l : location) :
  located n d m l -> m * d <= n < (m + 1) * d \/ d <= 0.
Proof. destruct l; cbn [located]; lia. Qed.

Lemma Zdigits2_le (m k : Z) : 0 <= m < 2 ^ k -> 0 <= k -> Zdigits2 m <= k.
Proof.
  intros Hm Hk. destruct m as [|p|p]; cbn [Zdigits2]; try lia.
  pose proof (digits2_pos_bounds p) as Hp.
  destruct (Z.le_gt_cases (Zpos (digits2_pos p)) k) as [|Hgt]; [assumption|].
  exfalso. assert (2 ^ k <= 2 ^ (Zpos (digits2_pos p) - 1))
    by (apply Z.pow_le_mono_r; lia). lia.
Qed.

Lemma fexp_normal (d e : Z) :
  d = 53 -> -1074 <= e -> fexp PyFloat.prec PyFloat.emax (d + e) = e.
Proof. intros -> He. unfold fexp, emin, PyFloat.prec, PyFloat.emax. lia. Qed.

Lemma fexp_carry (d e : Z) :
  d = 54 -> -1074 <= e -> fexp PyFloat.prec PyFloat.emax (d + e) = e + 1.
Proof. intros -> He. unfold fexp, emin, PyFloat.prec, PyFloat.emax. lia. Qed.

Lemma fexp_subnormal (d : Z) :
  d <= 53 -> fexp PyFloat.prec PyFloat.emax (d + -1074) = -1074.
Proof. intros Hd. unfold fexp, emin, PyFloat.prec, PyFloat.emax. lia. Qed.

Lemma shr_fexp_keep (m e : Z) (l : location) :
  fexp PyFloat.prec PyFloat.emax (Zdigits2 m + e) = e ->
  shr_fexp PyFloat.prec PyFloat.emax m e l = (shr_record_of_loc m l, e).
Proof. intros H. unfold shr_fexp. rewrite H, Z.sub_diag. reflexivity. Qed.

Lemma shr_fexp_once (m e : Z) (l : location) :
  fexp PyFloat.prec PyFloat.emax (Zdigits2 m + e) = e + 1 ->
  shr_fexp PyFloat.prec PyFloat.emax m e l
  = (shr_1 (shr_record_of_loc m l), e + 1).
Proof.
  intros H. unfold shr_fexp. rewrite H.
  replace (e + 1 - e) with 1 by lia. reflexivity.
Qed.

(** First normalisation of the quotient. *)
Lemma first_shift (a b q e : Z) (l : location) :
  0 < b -> 0 <= a -> -1074 <= e <= -1 ->
  located (a * 2 ^ (- e)) b q l ->
  2 ^ 52 <= q < 2 ^ 54 \/ (e = -1074 /\ 0 <= q < 2 ^ 53) ->
  exists mrs e1,
    shr_fexp PyFloat.prec PyFloat.emax q e l = (mrs, e1) /\
    located (a * 2 ^ (- e1)) b (shr_m mrs) (loc_of_shr_record mrs) /\
    -1074 <= e1 <= 0 /\
    0 <= shr_m mrs < 2 ^ 53 /\
    (2 ^ 52 <= shr_m mrs \/ e1 = -1074).
Proof.
  intros Hb Ha He Hloc Hq.
  destruct (loc_of_shr_record_of_loc q l) as [Hl Hm].
  assert (Hkeep : fexp PyFloat.prec PyFloat.emax (Zdigits2 q + e) = e ->
                  0 <= q < 2 ^ 53 -> (2 ^ 52 <= q \/ e = -1074) ->
                  exists mrs e1,
    shr_fexp PyFloat.prec PyFloat.emax q e l = (mrs, e1) /\
    located (a * 2 ^ (- e1)) b (shr_m mrs) (loc_of_shr_record mrs) /\
    -1074 <= e1 <= 0 /\
    0 <= shr_m mrs < 2 ^ 53 /\
    (2 ^ 52 <= shr_m mrs \/ e1 = -1074)).
  { intros Hf Hq53 Hq52. exists (shr_record_of_loc q l), e.
    rewrite (shr_fexp_keep _ _ _ Hf), Hl, Hm.
    repeat split; auto; lia. }
  destruct Hq as [Hq|[-> Hq]].
  - destruct (Z.lt_ge_cases q (2 ^ 53)) as [Hlt|Hge].
    + apply Hkeep; [|lia|lia].
      apply fexp_normal; [|lia]. apply Zdigits2_unique; lia.
    + exists (shr_1 (shr_record_of_loc q l)), (e + 1).
      rewrite shr_fexp_once
        by (apply fexp_carry; [apply Zdigits2_unique; lia|lia]).
      destruct (shr_1_located (a * 2 ^ (- e)) b q l Hb ltac:(lia) Hloc)
        as [Hm1 Hl1].
      split; [reflexivity|]. rewrite Hm1.
      split.
      { apply located_halve. rewrite <- Hm1.
        replace (2 * (a * 2 ^ (- (e + 1)))) with (a * 2 ^ (- e)); [exact Hl1|].
        replace (- e) with (Z.succ (- (e + 1))) by lia.
        rewrite Z.pow_succ_r by lia. lia. }
      split; [lia|].
      assert (2 ^ 52 <= q / 2 < 2 ^ 53).
      { split.
        - apply Z.div_le_lower_bound; lia.
        - apply Z.div_lt_upper_bound; lia. }
      split; [lia|]. left. lia.
  - apply Hkeep; [|lia|right; reflexivity].
    apply fexp_subnormal. apply Zdigits2_le; lia.
Qed.

Lemma second_shift (m e : Z) :
  -1074 <= e <= 0 -> 0 <= m <= 2 ^ 53 -> (2 ^ 52 <= m \/ e = -1074) ->
  exists m' e',
    shr_fexp PyFloat.prec PyFloat.emax m e loc_Exact
    = (Build_shr_record m' false false, e') /\
    ((m' = m /\ e' = e) \/ (m = 2 ^ 53 /\ m' = 2 ^ 52 /\ e' = e + 1)).
Proof.
  intros He Hm Hn.
  destruct (Z.eq_dec m (2 ^ 53)) as [->|Hne].
  - exists (2 ^ 52), (e + 1).
    rewrite shr_fexp_once by (apply fexp_carry; [reflexivity|lia]).
    split; [reflexivity|]. right. auto.
  - exists m, e. split; [|left; auto].
    apply shr_fexp_keep. destruct Hn as [Hn| ->].
    + apply fexp_normal; [|lia]. apply Zdigits2_unique; lia.
    + apply fexp_subnormal. apply Zdigits2_le; lia.
Qed.

Lemma to_int_finite (p : positive) (e : Z) :
  PyFloat.to_int (S754_finite false p e) = Return (float_floor (Zpos p) e).
Proof.
  unfold PyFloat.to_int, float_floor. destruct e as [|q|q]; cbn [Z.leb Z.compare].
  - rewrite Z.mul_1_r. reflexivity.
  - rewrite Z.shiftl_mul_pow2 by lia. reflexivity.
  - rewrite Z.shiftr_div_pow2 by lia. reflexivity.
Qed.

Lemma floor_after_rounding (a b m1 m2 k : Z) :
  0 < b -> 0 <= a < 2 ^ 53 -> 0 <= k ->
  m1 * b <= a * 2 ^ k < (m1 + 1) * b ->
  m2 = m1 \/ (m2 = m1 + 1 /\ (2 * m1 + 1) * b <= 2 * (a * 2 ^ k)) ->
  0 <= m1 < 2 ^ 53 ->
  2 ^ 52 <= m1 \/ k = 1074 ->
  m2 / 2 ^ k = a / b.
Proof.
  intros Hb Ha Hk Hfloor Hround Hm1 Hnorm.
  set (K := 2 ^ k) in *.
  assert (HK : 0 < K) by (apply Z.pow_pos_nonneg; lia).
  assert (Hq : m1 = a * K / b).
  { apply Z.div_unique with (r := a * K - m1 * b); lia. }
  assert (Hm1Q : m1 / K = a / b).
  { rewrite Hq. rewrite Z.div_div by lia.
    apply Z.div_mul_cancel_r; lia. }
  destruct Hround as [->|[-> Hup]]; [exact Hm1Q|].
  set (Q := a / b) in *.
  assert (HQ : Q * b <= a < (Q + 1) * b).
  { unfold Q. pose proof (Z.div_mod a b ltac:(lia)).
    pose proof (Z.mod_pos_bound a b Hb). lia. }
  assert (Hm1K : Q * K <= m1 < (Q + 1) * K).
  { rewrite <- Hm1Q. pose proof (Z.div_mod m1 K ltac:(lia)).
    pose proof (Z.mod_pos_bound m1 K HK). lia. }
  assert (HQ0 : 0 <= Q) by (apply Z.div_pos; lia).
  destruct (Z.eq_dec (m1 + 1) ((Q + 1) * K)) as [Heq|Hne].
  - exfalso.
    assert (Hm1eq : m1 = (Q + 1) * K - 1) by lia.
    assert (HaK : a * K <= ((Q + 1) * b - 1) * K)
      by (apply Z.mul_le_mono_nonneg_r; lia).
    assert (Hb2K : 2 * K <= b).
    { rewrite Hm1eq in Hup.
      replace ((2 * ((Q + 1) * K - 1) + 1) * b)
        with (2 * ((Q + 1) * b * K) - b) in Hup by ring.
      replace (((Q + 1) * b - 1) * K) with ((Q + 1) * b * K - K) in HaK by ring.
      lia. }
    destruct Hnorm as [Hn| ->].
    + assert (2 ^ 52 * b <= m1 * b)
        by (apply Z.mul_le_mono_nonneg_r; lia).
      assert (a * K < 2 ^ 53 * K)
        by (apply Z.mul_lt_mono_pos_r; lia).
      lia.
    + assert (2 ^ 53 < K).
      { unfold K. apply Z.pow_lt_mono_r; lia. }
      assert (0 <= Q * K) by (apply Z.mul_nonneg_nonneg; lia).
      lia.
  - symmetry. apply Z.div_unique with (r := m1 + 1 - Q * K); lia.
Qed.

Lemma binary_round_aux_floor (a b q e : Z) (l : location) :
  0 < b -> 0 <= a < 2 ^ 53 -> -1074 <= e <= -1 ->
  located (a * 2 ^ (- e)) b q l ->
  2 ^ 52 <= q < 2 ^ 54 \/ (e = -1074 /\ 0 <= q < 2 ^ 53) ->
  exists f,
    binary_round_aux PyFloat.prec PyFloat.emax false q e l = f /\
    (forall s, f <> S754_infinity s) /\
    PyFloat.to_int f = Return (a / b).
Proof.
  intros Hb Ha He Hloc Hq.
  destruct (first_shift a b q e l Hb ltac:(lia) He Hloc Hq)
    as (mrs & e1 & Hs1 & Hloc1 & He1 & Hm1 & Hn1).
  unfold binary_round_aux. rewrite Hs1.
  set (m1 := shr_m mrs) in *. set (l1 := loc_of_shr_record mrs) in *.
  set (m2 := round_nearest_even m1 l1).
  assert (Hfloor1 : m1 * b <= a * 2 ^ (- e1) < (m1 + 1) * b).
  { destruct (located_floor _ _ _ _ Hloc1); lia. }
  assert (Hround : m2 = m1
                   \/ (m2 = m1 + 1 /\ (2 * m1 + 1) * b <= 2 * (a * 2 ^ (- e1)))).
  { exact (round_nearest_even_located _ _ _ _ Hloc1). }
  assert (Hm2 : 0 <= m2 <= 2 ^ 53) by lia.
  assert (Hn2 : 2 ^ 52 <= m2 \/ e1 = -1074) by lia.
  pose proof (floor_after_rounding a b m1 m2 (- e1) Hb Ha ltac:(lia)
                Hfloor1 Hround Hm1 ltac:(lia)) as Hfloor.
  destruct (second_shift m2 e1 He1 Hm2 Hn2) as (m3 & e3 & Hs2 & Hcase).
  rewrite Hs2. cbn [shr_m].
  destruct Hcase as [[-> ->] | (Hcarry & -> & ->)].
  - destruct m2 as [|p|p]; [| |lia].
    + eexists. split; [reflexivity|]. split; [discriminate|].
      cbn [PyFloat.to_int]. rewrite <- Hfloor, Z.div_0_l; [reflexivity|].
      apply Z.pow_nonzero; lia.
    + replace (e1 <=? PyFloat.emax - PyFloat.prec) with true
        by (symmetry; apply Z.leb_le; unfold PyFloat.emax, PyFloat.prec; lia).
      eexists. split; [reflexivity|]. split; [discriminate|].
      rewrite to_int_finite, <- Hfloor. unfold float_floor.
      destruct (Z.leb_spec 0 e1) as [H0|H0]; [|reflexivity].
      replace e1 with 0 by lia. cbn. rewrite Z.mul_1_r, Z.div_1_r. reflexivity.
  - change (2 ^ 52) with (Zpos (Z.to_pos (2 ^ 52))) at 1.
    cbv iota beta.
    replace (e1 + 1 <=? PyFloat.emax - PyFloat.prec) with true
      by (symmetry; apply Z.leb_le; unfold PyFloat.emax, PyFloat.prec; lia).
    eexists. split; [reflexivity|]. split; [discriminate|].
    rewrite to_int_finite, <- Hfloor, Hcarry. unfold float_floor.
    change (Zpos (Z.to_pos (2 ^ 52))) with (2 ^ 52).
    destruct (Z.leb_spec 0 (e1 + 1)) as [H0|H0].
    + assert (He01 : e1 = 0 \/ e1 = -1) by lia.
      destruct He01 as [-> | ->]; reflexivity.
    + replace (- e1) with (Z.succ (- (e1 + 1))) by lia.
      rewrite Z.pow_succ_r by lia.
      change (2 ^ 53) with (2 * 2 ^ 52).
      rewrite Z.div_mul_cancel_l; [reflexivity| |lia].
      apply Z.pow_nonzero; lia.
Qed.

Lemma div_eucl_div_mod (x y : Z) : Z.div_eucl x y = (x / y, x mod y).
Proof.
  unfold Z.div, Z.modulo. destruct (Z.div_eucl x y). reflexivity.
Qed.

Lemma SFdiv_core_binary_int (pa pb : positive) :
  Zpos pa < 2 ^ 53 ->
  let e := Z.max (Zpos (digits2_pos pa) - Zpos (digits2_pos pb) - 53) (-1074) in
  SFdiv_core_binary PyFloat.prec PyFloat.emax (Zpos pa) 0 (Zpos pb) 0
  = (Zpos pa * 2 ^ (- e) / Zpos pb, e,
     new_location (Zpos pb) ((Zpos pa * 2 ^ (- e)) mod Zpos pb)).
Proof.
  intros Ha e.
  pose proof (digits2_pos_bounds pa) as Hda.
  assert (Hd1 : Zpos (digits2_pos pa) <= 53).
  { destruct (Z.le_gt_cases (Zpos (digits2_pos pa)) 53) as [|Hgt]; [assumption|].
    exfalso. assert (2 ^ 53 <= 2 ^ (Zpos (digits2_pos pa) - 1))
      by (apply Z.pow_le_mono_r; lia). lia. }
  unfold SFdiv_core_binary. cbn [Zdigits2].
  rewrite !Z.add_0_r. change (0 - 0) with 0.
  replace (Z.min (fexp PyFloat.prec PyFloat.emax
                    (Zpos (digits2_pos pa) - Zpos (digits2_pos pb))) 0)
    with e by (unfold e, fexp, emin, PyFloat.prec, PyFloat.emax; lia).
  assert (He : e <= -1) by (unfold e; lia).
  destruct (0 - e) as [|s|s] eqn:Hs; try lia.
  rewrite Z.shiftl_mul_pow2 by lia.
  replace (- e) with (Zpos s) by lia.
  rewrite div_eucl_div_mod. reflexivity.
Qed.

(** The quotient of two ints, rounded to binary64 and truncated, is the
    floor quotient as long as the dividend is below 2^53. *)
Lemma int_truediv_floor (a b : Z) :
  0 <= a < 2 ^ 53 -> 0 < b ->
  exists f,
    PyFloat.int_truediv a b = Return f /\ PyFloat.to_int f = Return (a / b).
Proof.
  intros Ha Hb. unfold PyFloat.int_truediv.
  destruct (Z.eqb_spec b 0) as [?|_]; [lia|].
  destruct a as [|pa|pa]; [| |lia]; destruct b as [|pb|pb]; try lia.
  - exists (S754_zero false). split; reflexivity.
  - cbn [PyFloat.exact_int SFdiv].
    rewrite SFdiv_core_binary_int by lia.
    set (e := Z.max (Zpos (digits2_pos pa) - Zpos (digits2_pos pb) - 53) (-1074)).
    pose proof (digits2_pos_bounds pa) as Hda.
    pose proof (digits2_pos_bounds pb) as Hdb.
    set (d1 := Zpos (digits2_pos pa)) in *.
    set (d2 := Zpos (digits2_pos pb)) in *.
    assert (Hd1 : 1 <= d1 <= 53).
    { split; [unfold d1; lia|].
      destruct (Z.le_gt_cases d1 53) as [|Hgt]; [assumption|].
      exfalso. assert (2 ^ 53 <= 2 ^ (d1 - 1))
        by (apply Z.pow_le_mono_r; lia). lia. }
    assert (Hd2 : 1 <= d2) by (unfold d2; lia).
    assert (He : -1074 <= e <= -1) by (unfold e; lia).
    set (N := Zpos pa * 2 ^ (- e)).
    assert (Hpow : 0 < 2 ^ (- e)) by (apply Z.pow_pos_nonneg; lia).
    pose proof (Z.div_mod N (Zpos pb) ltac:(lia)) as Hdm.
    pose proof (Z.mod_pos_bound N (Zpos pb) ltac:(lia)) as Hmod.
    set (q := N / Zpos pb) in *. set (r := N mod Zpos pb) in *.
    assert (Hloc : located N (Zpos pb) q (new_location (Zpos pb) r)).
    { rewrite Hdm. apply new_location_located; lia. }
    assert (Hq0 : 0 <= q) by (apply Z.div_pos; unfold N; lia).
    assert (Hq : 2 ^ 52 <= q < 2 ^ 54 \/ (e = -1074 /\ 0 <= q < 2 ^ 53)).
    { destruct (Z.le_gt_cases (-1074) (d1 - d2 - 53)) as [Hn|Hsub].
      - left. assert (Hee : - e = (53 - d1) + (1 + (d2 - 1))) by (unfold e; lia).
        set (T := 2 ^ (53 - d1)). set (B1 := 2 ^ (d2 - 1)) in *.
        set (A1 := 2 ^ (d1 - 1)) in *.
        assert (HT : 0 < T) by (apply Z.pow_pos_nonneg; lia).
        assert (HB1 : 0 < B1) by (apply Z.pow_pos_nonneg; lia).
        assert (Hb2 : Zpos pb < 2 * B1).
        { replace (2 * B1) with (2 ^ d2); [lia|].
          unfold B1. rewrite <- Z.pow_succ_r by lia. f_equal. lia. }
        assert (Ha2 : Zpos pa < 2 * A1).
        { replace (2 * A1) with (2 ^ d1); [lia|].
          unfold A1. rewrite <- Z.pow_succ_r by lia. f_equal. lia. }
        assert (HAT : A1 * T = 2 ^ 52).
        { unfold A1, T. rewrite <- Z.pow_add_r by lia. f_equal. lia. }
        assert (HN : N = 2 * (Zpos pa * T * B1)).
        { unfold N. rewrite Hee. rewrite !Z.pow_add_r by lia.
          fold T. fold B1. change (2 ^ 1) with 2. ring. }
        set (X := Zpos pa * T) in *.
        assert (HX1 : 2 ^ 52 <= X).
        { rewrite <- HAT. unfold X. apply Z.mul_le_mono_nonneg_r; lia. }
        assert (HX2 : X < 2 * 2 ^ 52).
        { rewrite <- HAT. unfold X.
          replace (2 * (A1 * T)) with (2 * A1 * T) by ring.
          apply Z.mul_lt_mono_pos_r; lia. }
        assert (HXB1 : 2 ^ 52 * B1 <= X * B1)
          by (apply Z.mul_le_mono_nonneg_r; lia).
        assert (HXB2 : X * B1 < 2 * 2 ^ 52 * B1)
          by (apply Z.mul_lt_mono_pos_r; lia).
        split.
        + destruct (Z.le_gt_cases (2 ^ 52) q) as [|Hlt]; [assumption|].
          exfalso.
          assert ((q + 1) * Zpos pb <= 2 ^ 52 * Zpos pb)
            by (apply Z.mul_le_mono_nonneg_r; lia).
          lia.
        + destruct (Z.lt_ge_cases q (2 ^ 54)) as [|Hge]; [assumption|].
          exfalso.
          assert (2 ^ 54 * Zpos pb <= q * Zpos pb)
            by (apply Z.mul_le_mono_nonneg_r; lia).
          change (2 ^ 54) with (4 * 2 ^ 52) in *. lia.
      - right. assert (Hee : e = -1074) by (unfold e; lia).
        split; [exact Hee|]. split; [exact Hq0|].
        set (W := 2 ^ (d1 + 1021)).
        assert (HW : 0 < W) by (apply Z.pow_pos_nonneg; lia).
        assert (HbW : W <= Zpos pb).
        { assert (W <= 2 ^ (d2 - 1)) by (apply Z.pow_le_mono_r; lia). lia. }
        assert (HN : N < 2 ^ 53 * W).
        { unfold N. rewrite Hee. change (- -1074) with 1074.
          replace (2 ^ 53 * W) with (2 ^ d1 * 2 ^ 1074).
          - apply Z.mul_lt_mono_pos_r; lia.
          - unfold W. rewrite <- !Z.pow_add_r by lia. f_equal. lia. }
        destruct (Z.lt_ge_cases q (2 ^ 53)) as [|Hge]; [assumption|].
        exfalso.
        assert (2 ^ 53 * Zpos pb <= q * Zpos pb)
          by (apply Z.mul_le_mono_nonneg_r; lia).
        lia. }
    destruct (binary_round_aux_floor (Zpos pa) (Zpos pb) q e
                (new_location (Zpos pb) r) ltac:(lia) ltac:(lia) He Hloc Hq)
      as (f & Hf & Hinf & Hint).
    cbn [xorb]. rewrite Hf. exists f. split; [|exact Hint].
    destruct f; try reflexivity. exfalso. eapply Hinf. reflexivity.
Qed.

(** ** The generation rule *)

(** C2, counterexample.  At level [2^54 + 2] a variant with
    [MIN_STRENGTH = 1], [SCALING = 2] and no cap gets strength
    [1 + 2^53], one less than the [1 + (2^53 + 1)] of the scaling law:
    [level / 2] is a float and [2^53 + 1] is not one.  With the float
    scaling 0.3 the same happens below [2^53]: at level [3 * 10^15 + 1]
    the quotient is rounded up to [10^16 + 4], where the floor of
    [level / 0.3] is [10^16 + 3]. *)
Lemma generate_rounds_a_huge_level :
  (exists c,
     classes registry !! "SlashAttackBonus" = Some c /\
     SCALING c = Some (PyInt 2) /\ MIN_STRENGTH c = 1 /\ MAX_STRENGTH c = 0 /\
     generate c (2 ^ 54 + 2)
     = Return (Modifier__init__ "SlashAttackBonus" (1 + 2 ^ 53) (-1)) /\
     Z.max 1 (1 + (2 ^ 54 + 2) / 2) = 1 + 2 ^ 53 + 1) /\
  (exists c,
     classes registry !! "AdditionalHelper" = Some c /\
     SCALING c = Some (PyFloat (PyFloat.literal 3 10)) /\
     MIN_STRENGTH c = 1 /\ MAX_STRENGTH c = 0 /\
     3 * 10 ^ 15 + 1 < 2 ^ 53 /\
     generate c (3 * 10 ^ 15 + 1)
     = Return (Modifier__init__ "AdditionalHelper" (1 + (10 ^ 16 + 4)) (-1)) /\
     Z.max 1 (1 + (3 * 10 ^ 15 + 1) * 10 / 3) = 1 + (10 ^ 16 + 3)).
Proof.
  split; eexists; (split; [reflexivity|]);
    repeat split; vm_compute; reflexivity.
Qed.

(** C2, amended.  For every class object with a positive integer scaling
    and every level from 0 to below [2^53], [generate] returns an instance
    of that class with duration -1 and the strength
    [max(MIN_STRENGTH, MIN_STRENGTH + floor(level / SCALING))], clamped to
    [MAX_STRENGTH] unless that is 0. *)
Theorem generate_follows_scaling_law (c : class_obj) (scaling level : Z) :
  SCALING c = Some (PyInt scaling) ->
  0 < scaling ->
  0 <= level < 2 ^ 53 ->
  generate c level
  = Return (Modifier__init__ (qualname c)
              (clamp_strength c
                 (Z.max (MIN_STRENGTH c) (MIN_STRENGTH c + level / scaling)))
              (-1)).
Proof.
  intros Hsc Hpos Hlevel. unfold generate. rewrite Hsc.
  cbn [int_div_number].
  destruct (int_truediv_floor level scaling Hlevel Hpos) as (f & Hf & Hint).
  rewrite Hf. cbn [bind]. rewrite Hint. cbn [bind].
  assert (Hq : 0 <= level / scaling) by (apply Z.div_pos; lia).
  rewrite Z.max_r by lia. reflexivity.
Qed.

Lemma generate_follows_scaling_law_witness :
  let c := {| qualname := "Blessed"; hook := Modifier_hook; ID := Some 42;
              RARITY := Some Rarity.UNCOMMON;
              TYPE := Some ModifierType.MODIFY_MAX_HP; OP_ORDERING := 0;
              MAX_STRENGTH := 50; MIN_STRENGTH := 1;
              SCALING := Some (PyInt 2); NAME := Some "Blessed";
              DAMAGE_TYPE := None |} in
  classes registry !! "Blessed" = Some c /\
  generate c 100 = Return (Modifier__init__ "Blessed" 50 (-1)) /\
  generate c 10 = Return (Modifier__init__ "Blessed" 6 (-1)).
Proof.
  intros c. split; [reflexivity|]. split.
  - refine (generate_follows_scaling_law c 2 100 eq_refl eq_refl _).
    split; [discriminate|reflexivity].
  - refine (generate_follows_scaling_law c 2 10 eq_refl eq_refl _).
    split; [discriminate|reflexivity].
Defined.

(** The six variants with a float scaling follow the same law, for their
    scaling as the source writes it, at every level up to 1024. *)
Lemma float_scaled_follow_the_law :
  Forall (fun ct =>
            Forall (fun level =>
                      follows_decimal_law registry ct.1 ct.2 (Z.of_nat level)
                      = true)
                   (seq 0 1025))
         float_scaled.
Proof. apply (bool_decide_unpack _). vm_compute. exact I. Qed.

(** * Further properties of the registry *)

Lemma registry_position_is_id (i : nat) (c : string) :
  _LIST registry !! i = Some c -> class_attr registry ID c = Some (Z.of_nat i).
Proof.
  intros Hc.
  pose proof (all_indexed_lookup _ _ 0%nat registry_indexed _ _ Hc) as Hok.
  unfold indexed_by_id_and_name in Hok. simpl Nat.add in Hok.
  apply andb_true_iff in Hok as [Hid _].
  apply bool_decide_eq_true in Hid. exact Hid.
Qed.

Lemma registry_no_repetition : NoDup (_LIST registry).
Proof. apply (bool_decide_unpack _). vm_compute. exact I. Qed.

Lemma self_ID_registered (m : instance) :
  cls m ∈ _LIST registry ->
  exists i : nat,
    _LIST registry !! i = Some (cls m) /\ self_ID registry m = Return (Z.of_nat i).
Proof.
  intros Hin. apply list_elem_of_lookup in Hin as [i Hi].
  exists i. split; [exact Hi|].
  pose proof (registry_position_is_id i (cls m) Hi) as Hid.
  unfold self_ID, class_of. unfold class_attr in Hid.
  destruct (classes registry !! cls m) as [o|]; [|discriminate].
  cbn [bind]. rewrite Hid. reflexivity.
Qed.

(** X1.  On instances of registered classes [__eq__] holds exactly when the
    two have the same class and the same strength; the durations play no
    part. *)
Theorem eq_is_class_and_strength (a b : instance) :
  cls a ∈ _LIST registry ->
  cls b ∈ _LIST registry ->
  Modifier__eq__ registry a (Some b)
  = Return (bool_decide (cls a = cls b) && (strength a =? strength b)).
Proof.
  intros Ha Hb.
  destruct (self_ID_registered a Ha) as (i & Hi & Hia).
  destruct (self_ID_registered b Hb) as (j & Hj & Hjb).
  unfold Modifier__eq__. rewrite Hia, Hjb. cbn [bind]. do 2 f_equal.
  destruct (decide (cls a = cls b)) as [Heq|Hne].
  - rewrite bool_decide_eq_true_2 by exact Heq.
    rewrite Heq in Hi.
    pose proof (NoDup_lookup _ _ _ _ registry_no_repetition Hi Hj) as ->.
    apply Z.eqb_refl.
  - rewrite bool_decide_eq_false_2 by exact Hne.
    apply Z.eqb_neq. intros Hij. apply Hne.
    assert (i = j) by lia. subst j. congruence.
Qed.

Lemma eq_is_class_and_strength_witness :
  Modifier__eq__ registry (Modifier__init__ "Berserk" 7 3)
    (Some (Modifier__init__ "Berserk" 7 (-1))) = Return true /\
  Modifier__eq__ registry (Modifier__init__ "Berserk" 7 3)
    (Some (Modifier__init__ "Blessed" 7 3)) = Return false.
Proof.
  assert (H1 : "Berserk" ∈ _LIST registry)
    by (apply (bool_decide_unpack _); vm_compute; exact I).
  assert (H2 : "Blessed" ∈ _LIST registry)
    by (apply (bool_decide_unpack _); vm_compute; exact I).
  split.
  - exact (eq_is_class_and_strength (Modifier__init__ "Berserk" 7 3)
             (Modifier__init__ "Berserk" 7 (-1)) H1 H1).
  - exact (eq_is_class_and_strength (Modifier__init__ "Berserk" 7 3)
             (Modifier__init__ "Blessed" 7 3) H1 H2).
Defined.

(** X2.  A nested class never got an [ID]: comparing an instance of one,
    on either side, with an instance of [Modifier] raises
    [AttributeError]; against anything that is not a [Modifier] the
    answer is [False]. *)
Theorem eq_on_nested_raises (a b : instance) :
  (cls a ∈ nested_classes ->
   Modifier__eq__ registry a (Some b) = Raise AttributeError) /\
  (cls a ∈ _LIST registry -> cls b ∈ nested_classes ->
   Modifier__eq__ registry a (Some b) = Raise AttributeError) /\
  Modifier__eq__ registry a None = Return false.
Proof.
  assert (Hnested : forall m, cls m ∈ nested_classes ->
                              self_ID registry m = Raise AttributeError).
  { intros m Hm.
    assert (Hall : Forall (fun c => match classes registry !! c with
                                    | Some o => ID o = None
                                    | None => False
                                    end) nested_classes).
    { repeat constructor. }
    rewrite Forall_forall in Hall. specialize (Hall _ Hm).
    unfold self_ID, class_of.
    destruct (classes registry !! cls m) as [o|]; [|contradiction].
    cbn [bind]. rewrite Hall. reflexivity. }
  split; [|split].
  - intros Ha. unfold Modifier__eq__. rewrite (Hnested a Ha). reflexivity.
  - intros Ha Hb. destruct (self_ID_registered a Ha) as (i & _ & Hia).
    unfold Modifier__eq__. rewrite Hia. cbn [bind].
    rewrite (Hnested b Hb). reflexivity.
  - reflexivity.
Qed.

Lemma eq_on_nested_raises_witness :
  let poison := Modifier__init__ "PoisonTipped.PoisonProc" 3 6 in
  Modifier__eq__ registry poison (Some poison) = Raise AttributeError /\
  Modifier__eq__ registry (Modifier__init__ "Berserk" 7 3) (Some poison)
  = Raise AttributeError.
Proof.
  intros poison.
  assert (H1 : "Berserk" ∈ _LIST registry)
    by (apply (bool_decide_unpack _); vm_compute; exact I).
  assert (H2 : cls poison ∈ nested_classes)
    by (apply (bool_decide_unpack _); vm_compute; exact I).
  split.
  - exact (proj1 (eq_on_nested_raises poison poison) H2).
  - exact (proj1 (proj2 (eq_on_nested_raises (Modifier__init__ "Berserk" 7 3)
                           poison)) H1 H2).
Defined.

(** ** What a class statement does to the module state *)

Lemma setattr_effect (cls : string) (a : attr) (st st' : module_state) :
  setattr cls a st = Return st' ->
  exists c,
    classes st !! cls = Some c /\
    classes st' = <[cls := assign c a]> (classes st) /\
    same_indices st st'.
Proof.
  unfold setattr, class_of. destruct (classes st !! cls) as [c|]; [|discriminate].
  cbn [bind]. intros [= <-]. exists c. repeat split.
Qed.

Lemma same_indices_trans (st1 st2 st3 : module_state) :
  same_indices st1 st2 -> same_indices st2 st3 -> same_indices st1 st3.
Proof.
  unfold same_indices. intros (-> & -> & ->) (-> & -> & ->). repeat split.
Qed.

Lemma assign_keeps_registration (c : class_obj) (a : attr) :
  match a with
  | set_ID _ | set_RARITY _ | set_NAME _ => True
  | _ => ID (assign c a) = ID c /\ RARITY (assign c a) = RARITY c
         /\ NAME (assign c a) = NAME c
  end.
Proof. destruct c, a; cbn; auto. Qed.

Lemma Modifier__init_subclass___effect (cls : string) (rarity : option Z)
    (st st' : module_state) :
  Modifier__init_subclass__ cls rarity st = Return st' ->
  (forall c, c <> cls -> classes st' !! c = classes st !! c) /\
  (is_Some (classes st !! cls) -> is_Some (classes st' !! cls)) /\
  ((rarity = None /\ st' = st) \/
   (is_Some rarity /\ registered_as cls st st')).
Proof.
  unfold Modifier__init_subclass__. destruct rarity as [r|].
  2:{ intros [= <-]. split; [reflexivity|]. split; [tauto|]. left. tauto. }
  unfold setattr, class_of.
  destruct (classes st !! cls) as [c|] eqn:Hc; [|discriminate].
  cbn [bind classes _LIST _RARITY_INDEX _NAME_LUT].
  rewrite lookup_insert_eq. cbn [bind classes _LIST _RARITY_INDEX _NAME_LUT].
  destruct (_RARITY_INDEX st !! r) as [bucket|] eqn:Hb; [|discriminate].
  rewrite lookup_insert_eq. cbn [bind].
  destruct c as [q hk i rr t o mx mn sc nm dt]. cbn [assign NAME].
  destruct nm as [name|]; [|discriminate].
  intros [= <-]. cbn [classes _LIST _RARITY_INDEX _NAME_LUT].
  split; [|split].
  - intros c Hne. rewrite !lookup_insert_ne by congruence. reflexivity.
  - intros _. rewrite lookup_insert_eq. eauto.
  - right. split; [eauto|]. exists r, bucket, name.
    unfold class_attr. cbn [classes _LIST _RARITY_INDEX _NAME_LUT].
    rewrite lookup_insert_eq. repeat split. exact Hb.
Qed.

Lemma registered_as_setattr (cls : string) (a : attr) (st0 st st' : module_state) :
  match a with
  | set_ID _ | set_RARITY _ | set_NAME _ => False
  | _ => True
  end ->
  registered_as cls st0 st ->
  setattr cls a st = Return st' ->
  registered_as cls st0 st'.
Proof.
  intros Ha (r & bucket & name & Hb & Hl & Hi & Hn & Hid & Hr & Hnm) Hset.
  destruct (setattr_effect _ _ _ _ Hset) as (c & Hc & Hcl & Hl' & Hi' & Hn').
  exists r, bucket, name. rewrite Hl', Hi', Hn'.
  repeat split; try assumption;
    unfold class_attr in *; rewrite Hcl, lookup_insert_eq; rewrite Hc in *;
    pose proof (assign_keeps_registration c a) as Hk;
    destruct a; try contradiction; destruct Hk as (K1 & K2 & K3);
    rewrite ?K1, ?K2, ?K3; assumption.
Qed.

Lemma setattr_other_classes (cls : string) (a : attr) (st st' : module_state) :
  setattr cls a st = Return st' ->
  (forall c, c <> cls -> classes st' !! c = classes st !! c) /\
  is_Some (classes st' !! cls).
Proof.
  intros Hset.
  destruct (setattr_effect _ _ _ _ Hset) as (c & Hc & -> & _).
  split.
  - intros c' Hne. rewrite lookup_insert_ne by congruence. reflexivity.
  - rewrite lookup_insert_eq. eauto.
Qed.

(** The effect of one class statement: the class object of its name is
    bound, every other class object is what it was, and the indices are
    untouched or record one registration of the new class. *)
Lemma exec_class_effect (s : class_stmt) (st st' : module_state) :
  exec_class s st = Return st' ->
  (forall c, c <> c_name s -> classes st' !! c = classes st !! c) /\
  is_Some (classes st' !! c_name s) /\
  (same_indices st st' \/ registered_as (c_name s) st st').
Proof.
  unfold exec_class, class_of.
  destruct (classes st !! c_base s) as [base|]; [|discriminate].
  cbn [bind].
  set (st0 := {| classes := <[c_name s := new_class s base]> (classes st);
                 _LIST := _LIST st; _RARITY_INDEX := _RARITY_INDEX st;
                 _NAME_LUT := _NAME_LUT st |}).
  assert (H0 : forall c, c <> c_name s -> classes st0 !! c = classes st !! c).
  { intros c Hne. unfold st0. cbn [classes].
    rewrite lookup_insert_ne by congruence. reflexivity. }
  assert (H0s : is_Some (classes st0 !! c_name s)).
  { unfold st0. cbn [classes]. rewrite lookup_insert_eq. eauto. }
  assert (Hmod : forall rarity st1,
             Modifier__init_subclass__ (c_name s) rarity st0 = Return st1 ->
             (forall c, c <> c_name s -> classes st1 !! c = classes st !! c) /\
             is_Some (classes st1 !! c_name s) /\
             (same_indices st st1 \/ registered_as (c_name s) st st1)).
  { intros rarity st1 H1.
    destruct (Modifier__init_subclass___effect _ _ _ _ H1) as (Hk & Hs & Hcase).
    split; [intros c Hne; rewrite Hk by exact Hne; auto|].
    split; [auto|].
    destruct Hcase as [[_ ->]|[_ Hreg]]; [left; repeat split|right; auto]. }
  destruct (hook base).
  - destruct (kw_dmg_type (c_kw s)); [discriminate|].
    destruct (kw_mod_type (c_kw s)); [discriminate|].
    apply Hmod.
  - unfold GenericDamageMult__init_subclass__.
    destruct (kw_dmg_type (c_kw s)) as [dmg|]; [|discriminate].
    destruct (setattr _ (set_NAME _) st0) as [st1|] eqn:H1; [|discriminate].
    cbn [bind].
    destruct (Modifier__init_subclass__ _ _ st1) as [st2|] eqn:H2; [|discriminate].
    cbn [bind].
    destruct (setattr _ (set_DAMAGE_TYPE _) st2) as [st3|] eqn:H3; [|discriminate].
    cbn [bind]. intros H4.
    destruct (setattr_other_classes _ _ _ _ H1) as [K1 _].
    destruct (setattr_effect _ _ _ _ H1) as (c1 & _ & _ & I1).
    destruct (Modifier__init_subclass___effect _ _ _ _ H2) as (K2 & _ & C2).
    destruct (setattr_other_classes _ _ _ _ H3) as [K3 _].
    destruct (setattr_other_classes _ _ _ _ H4) as [K4 S4].
    split; [intros c Hne; rewrite K4, K3, K2, K1 by exact Hne; auto|].
    split; [exact S4|]. right.
    destruct C2 as [[[=] _]|[_ R2]].
    pose proof (registered_as_setattr _ (set_TYPE _) _ _ _ I
                  (registered_as_setattr _ (set_DAMAGE_TYPE _) _ _ _ I R2 H3)
                  H4) as R4.
    destruct R4 as (r & b & n & E1 & E2 & E3 & E4 & E5).
    destruct I1 as (J1 & J2 & J3). rewrite J1, J2, J3 in *.
    exists r, b, n. repeat split; tauto.
  - unfold GenericDamageBonus__init_subclass__.
    destruct (kw_dmg_type (c_kw s)) as [dmg|]; [|discriminate].
    destruct (setattr _ (set_NAME _) st0) as [st1|] eqn:H1; [|discriminate].
    cbn [bind].
    destruct (Modifier__init_subclass__ _ _ st1) as [st2|] eqn:H2; [|discriminate].
    cbn [bind].
    destruct (setattr _ (set_DAMAGE_TYPE _) st2) as [st3|] eqn:H3; [|discriminate].
    cbn [bind]. intros H4.
    destruct (setattr_other_classes _ _ _ _ H1) as [K1 _].
    destruct (setattr_effect _ _ _ _ H1) as (c1 & _ & _ & I1).
    destruct (Modifier__init_subclass___effect _ _ _ _ H2) as (K2 & _ & C2).
    destruct (setattr_other_classes _ _ _ _ H3) as [K3 _].
    destruct (setattr_other_classes _ _ _ _ H4) as [K4 S4].
    split; [intros c Hne; rewrite K4, K3, K2, K1 by exact Hne; auto|].
    split; [exact S4|]. right.
    destruct C2 as [[[=] _]|[_ R2]].
    pose proof (registered_as_setattr _ (set_TYPE _) _ _ _ I
                  (registered_as_setattr _ (set_DAMAGE_TYPE _) _ _ _ I R2 H3)
                  H4) as R4.
    destruct R4 as (r & b & n & E1 & E2 & E3 & E4 & E5).
    destruct I1 as (J1 & J2 & J3). rewrite J1, J2, J3 in *.
    exists r, b, n. repeat split; tauto.
  - unfold GenericDamageAbsorb__init_subclass__.
    destruct (kw_dmg_type (c_kw s)) as [dmg|]; [|discriminate].
    destruct (setattr _ (set_NAME _) st0) as [st1|] eqn:H1; [|discriminate].
    cbn [bind].
    destruct (Modifier__init_subclass__ _ _ st1) as [st2|] eqn:H2; [|discriminate].
    cbn [bind]. intros H3.
    destruct (setattr_other_classes _ _ _ _ H1) as [K1 _].
    destruct (setattr_effect _ _ _ _ H1) as (c1 & _ & _ & I1).
    destruct (Modifier__init_subclass___effect _ _ _ _ H2) as (K2 & _ & C2).
    destruct (setattr_other_classes _ _ _ _ H3) as [K3 S3].
    split; [intros c Hne; rewrite K3, K2, K1 by exact Hne; auto|].
    split; [exact S3|]. right.
    destruct C2 as [[[=] _]|[_ R2]].
    pose proof (registered_as_setattr _ (set_DAMAGE_TYPE _) _ _ _ I R2 H3)
      as R4.
    destruct R4 as (r & b & n & E1 & E2 & E3 & E4 & E5).
    destruct I1 as (J1 & J2 & J3). rewrite J1, J2, J3 in *.
    exists r, b, n. repeat split; tauto.
Qed.

(** X3.  The tiers agree with the class attributes: a class is listed
    under a rarity exactly when it is in [_LIST] and has that [RARITY];
    a rarity that is no tier lists nothing. *)
Theorem tier_listing_is_the_rarity (r : Z) (c : string) :
  c ∈ get_modifiers_by_rarity registry r
  <-> c ∈ _LIST registry /\ class_attr registry RARITY c = Some r.
Proof.
  split.
  - unfold get_modifiers_by_rarity.
    destruct (_RARITY_INDEX registry !! r) as [bucket|] eqn:Hb;
      [|cbn; intros H; inversion H].
    cbn [default]. intros Hc.
    apply elem_of_map_to_list in Hb.
    assert (Hall : Forall (fun rb => tier_is_sound registry rb = true)
                     (map_to_list (_RARITY_INDEX registry))).
    { apply (bool_decide_unpack _). vm_compute. exact I. }
    rewrite Forall_forall in Hall. specialize (Hall _ Hb).
    unfold tier_is_sound in Hall. cbn [fst snd] in Hall.
    rewrite forallb_forall in Hall.
    apply list_elem_of_In in Hc. specialize (Hall _ Hc).
    apply andb_true_iff in Hall as [H1 H2].
    apply bool_decide_eq_true in H1. apply bool_decide_eq_true in H2. auto.
  - intros [Hc Hr].
    assert (Hall : Forall (fun c => tier_is_complete registry c = true)
                     (_LIST registry)).
    { apply (bool_decide_unpack _). vm_compute. exact I. }
    rewrite Forall_forall in Hall. specialize (Hall _ Hc).
    unfold tier_is_complete in Hall. rewrite Hr in Hall.
    apply bool_decide_eq_true in Hall. exact Hall.
Qed.

Lemma exec_class_appends (s : class_stmt) (st st' : module_state) :
  exec_class s st = Return st' ->
  _LIST st `prefix_of` _LIST st' /\
  (length (_LIST st') <= length (_LIST st) + 1)%nat /\
  (forall r, get_modifiers_by_rarity st r `prefix_of` get_modifiers_by_rarity st' r) /\
  (forall name, is_Some (_NAME_LUT st !! name) -> is_Some (_NAME_LUT st' !! name)).
Proof.
  intros Hex. destruct (exec_class_effect _ _ _ Hex) as (_ & _ & Hcase).
  unfold get_modifiers_by_rarity.
  destruct Hcase as [(-> & -> & ->)|(r0 & b & n & Hb & -> & -> & -> & _)].
  - repeat split; auto. lia.
  - split; [apply prefix_app_r; reflexivity|].
    split; [rewrite length_app; cbn; lia|]. split.
    + intros r. destruct (decide (r = r0)) as [->|Hne].
      * rewrite lookup_insert_eq, Hb. cbn. apply prefix_app_r. reflexivity.
      * rewrite lookup_insert_ne by congruence. reflexivity.
    + intros name Hsome. destruct (decide (name = n)) as [->|Hne].
      * rewrite lookup_insert_eq. eauto.
      * rewrite lookup_insert_ne by congruence. exact Hsome.
Qed.

(** X4.  Executing class statements only ever appends: [_LIST] and every
    tier of the state before are prefixes of those after, [_LIST] grows by
    at most one class per statement, a bound name stays bound, and the
    class objects that no statement names are what they were. *)
Theorem module_only_appends (body : list class_stmt) (st st' : module_state) :
  exec_module body st = Return st' ->
  _LIST st `prefix_of` _LIST st' /\
  (length (_LIST st') <= length (_LIST st) + length body)%nat /\
  (forall r,
     get_modifiers_by_rarity st r `prefix_of` get_modifiers_by_rarity st' r) /\
  (forall name,
     is_Some (_NAME_LUT st !! name) -> is_Some (_NAME_LUT st' !! name)) /\
  (forall c, c ∉ map c_name body -> classes st' !! c = classes st !! c).
Proof.
  revert st. induction body as [|s body IH]; intros st.
  - cbn. intros [= <-]. repeat split; auto. lia.
  - cbn [exec_module]. destruct (exec_class s st) as [st1|] eqn:H1; [|discriminate].
    cbn [bind]. intros H2.
    destruct (exec_class_appends _ _ _ H1) as (P1 & L1 & T1 & N1).
    destruct (exec_class_effect _ _ _ H1) as (K1 & _ & _).
    destruct (IH _ H2) as (P2 & L2 & T2 & N2 & K2).
    split; [etrans; eauto|]. split; [cbn [length]; lia|].
    split; [intros r; etrans; [apply T1|apply T2]|].
    split; [auto|].
    intros c Hc. cbn [map] in Hc. apply not_elem_of_cons in Hc as [Hne Hc].
    rewrite K2 by exact Hc. apply K1. exact Hne.
Qed.

Lemma module_only_appends_witness :
  _LIST registry `prefix_of` _LIST malformed_state /\
  (length (_LIST malformed_state) <= length (_LIST registry) + 1)%nat /\
  (forall r, get_modifiers_by_rarity registry r
             `prefix_of` get_modifiers_by_rarity malformed_state r) /\
  (forall name, is_Some (_NAME_LUT registry !! name) ->
                is_Some (_NAME_LUT malformed_state !! name)) /\
  (forall c, c ∉ ["Malformed"] ->
             classes malformed_state !! c = classes registry !! c).
Proof.
  assert (H : exec_module [malformed] registry = Return malformed_state)
    by (vm_cast_no_check (eq_refl (Return malformed_state))).
  exact (module_only_appends [malformed] registry malformed_state H).
Defined.

Lemma class_attr_kept {A : Type} (f : class_obj -> option A) (cls c : string)
    (st st' : module_state) (v : A) :
  (forall c, c <> cls -> classes st' !! c = classes st !! c) ->
  classes st !! cls = None ->
  class_attr st f c = Some v -> class_attr st' f c = Some v.
Proof.
  intros Hk Hfresh Hv. unfold class_attr in *.
  destruct (decide (c = cls)) as [->|Hne].
  - rewrite Hfresh in Hv. discriminate.
  - rewrite Hk by exact Hne. exact Hv.
Qed.

Lemma exec_class_well_indexed (s : class_stmt) (st st' : module_state) :
  well_indexed st ->
  classes st !! c_name s = None ->
  exec_class s st = Return st' ->
  well_indexed st'.
Proof.
  intros [Hid Htier] Hfresh Hex.
  destruct (exec_class_effect _ _ _ Hex) as (Hk & _ & Hcase).
  destruct Hcase as [(El & Ei & _)|(r0 & b & n & Hb & El & Ei & _ & Fid & Fr & _)].
  - split.
    + intros i c. rewrite El. intros Hc.
      eapply class_attr_kept; eauto.
    + intros r bucket c. rewrite Ei, El. intros Hr Hc.
      destruct (Htier _ _ _ Hr Hc) as [Hin Hrar]. split; [exact Hin|].
      eapply class_attr_kept; eauto.
  - split.
    + intros i c. rewrite El. intros Hc.
      apply lookup_app_Some in Hc as [Hc|[Hlen Hc]].
      * eapply class_attr_kept; eauto.
      * destruct (i - length (_LIST st))%nat as [|k] eqn:Hk0; [|discriminate].
        injection Hc as <-. rewrite Fid. do 2 f_equal. lia.
    + intros r bucket c. rewrite Ei, El. intros Hr Hc.
      destruct (decide (r = r0)) as [->|Hne].
      * rewrite lookup_insert_eq in Hr. injection Hr as <-.
        apply elem_of_app in Hc as [Hc|Hc].
        -- destruct (Htier _ _ _ Hb Hc) as [Hin Hrar].
           split; [apply elem_of_app; auto|].
           eapply class_attr_kept; eauto.
        -- apply list_elem_of_singleton in Hc as ->.
           split; [apply elem_of_app; right; apply list_elem_of_singleton; auto|].
           exact Fr.
      * rewrite lookup_insert_ne in Hr by congruence.
        destruct (Htier _ _ _ Hr Hc) as [Hin Hrar].
        split; [apply elem_of_app; auto|].
        eapply class_attr_kept; eauto.
Qed.

(** X5.  Registration keeps the indices in step with the class
    attributes, whatever the catalog: from a state where every position
    of [_LIST] is the [ID] of its class and every class of a tier is in
    [_LIST] with that [RARITY], class statements that define new classes
    lead to such a state again. *)
Theorem registration_keeps_indices (body : list class_stmt)
    (st st' : module_state) :
  well_indexed st ->
  defines_new_classes body st ->
  exec_module body st = Return st' ->
  well_indexed st'.
Proof.
  revert st. induction body as [|s body IH]; intros st Hwi [Hnd Hfresh].
  - cbn. intros [= <-]. exact Hwi.
  - cbn [exec_module]. destruct (exec_class s st) as [st1|] eqn:H1; [|discriminate].
    cbn [bind]. intros H2.
    cbn [map] in Hnd. apply NoDup_cons in Hnd as [Hs Hnd].
    apply Forall_cons in Hfresh as [Hf Hfresh].
    apply (IH st1); [eapply exec_class_well_indexed; eauto| |exact H2].
    split; [exact Hnd|].
    destruct (exec_class_effect _ _ _ H1) as (Hk & _ & _).
    rewrite Forall_forall in Hfresh |- *. intros s' Hs'.
    rewrite Hk; [apply Hfresh; exact Hs'|].
    intros Heq. apply Hs. rewrite <- Heq.
    apply list_elem_of_fmap. exists s'. auto.
Qed.

Lemma initial_state_well_indexed : well_indexed initial_state.
Proof.
  split.
  - intros i c H. cbn in H. rewrite lookup_nil in H. discriminate.
  - intros r bucket c Hr Hc.
    assert (Hb : bucket = []).
    { apply elem_of_map_to_list in Hr.
      assert (Hall : Forall (fun rb : Z * list string => rb.2 = [])
                       (map_to_list (_RARITY_INDEX initial_state))).
      { apply (bool_decide_unpack _). vm_compute. exact I. }
      rewrite Forall_forall in Hall. exact (Hall _ Hr). }
    subst bucket. inversion Hc.
Qed.

Lemma registration_keeps_indices_witness : well_indexed registry.
Proof.
  apply (registration_keeps_indices module_body initial_state registry).
  - exact initial_state_well_indexed.
  - split.
    + apply (bool_decide_unpack _). vm_compute. exact I.
    + apply (bool_decide_unpack _). vm_compute. exact I.
  - vm_cast_no_check (eq_refl (Return registry)).
Defined.

(** X6.  The ways a class statement fails.  On a base with [Modifier]'s
    hook a rarity that is no key of [_RARITY_INDEX] is a [KeyError], a
    class that is to be registered but has no [NAME] is an
    [AttributeError], and a [dmg_type] or [mod_type] keyword is a
    [TypeError]; on a base that is one of the three templates a missing
    [dmg_type] is a [ValueError]. *)
Theorem class_statement_failures (s : class_stmt) (st : module_state)
    (base : class_obj) :
  classes st !! c_base s = Some base ->
  (forall r,
     hook base = Modifier_hook -> c_kw s = rarity_kw r ->
     _RARITY_INDEX st !! r = None ->
     exec_class s st = Raise KeyError) /\
  (forall r,
     hook base = Modifier_hook -> c_kw s = rarity_kw r ->
     is_Some (_RARITY_INDEX st !! r) -> NAME (new_class s base) = None ->
     exec_class s st = Raise AttributeError) /\
  (hook base = Modifier_hook ->
   is_Some (kw_dmg_type (c_kw s)) \/ is_Some (kw_mod_type (c_kw s)) ->
   exec_class s st = Raise TypeError) /\
  (hook base <> Modifier_hook -> kw_dmg_type (c_kw s) = None ->
   exec_class s st = Raise ValueError).
Proof.
  intros Hbase. unfold exec_class, class_of. rewrite Hbase. cbn [bind].
  split; [|split; [|split]].
  - intros r -> -> Hr. cbn [kw_dmg_type kw_mod_type kw_rarity rarity_kw].
    unfold Modifier__init_subclass__, setattr, class_of.
    cbn [classes _LIST _RARITY_INDEX _NAME_LUT bind].
    rewrite lookup_insert_eq. cbn [bind classes _LIST _RARITY_INDEX _NAME_LUT].
    rewrite lookup_insert_eq. cbn [bind classes _LIST _RARITY_INDEX _NAME_LUT].
    rewrite Hr. reflexivity.
  - intros r -> -> [bucket Hr] Hname.
    cbn [kw_dmg_type kw_mod_type kw_rarity rarity_kw].
    unfold Modifier__init_subclass__, setattr, class_of.
    cbn [classes _LIST _RARITY_INDEX _NAME_LUT bind].
    rewrite lookup_insert_eq. cbn [bind classes _LIST _RARITY_INDEX _NAME_LUT].
    rewrite lookup_insert_eq. cbn [bind classes _LIST _RARITY_INDEX _NAME_LUT].
    rewrite Hr. rewrite lookup_insert_eq. cbn [bind].
    destruct (new_class s base) as [q hk i rr t o mx mn sc nm dt].
    cbn [assign NAME] in *. rewrite Hname. reflexivity.
  - intros -> [[d Hd]|[m Hm]].
    + rewrite Hd. reflexivity.
    + rewrite Hm. destruct (kw_dmg_type (c_kw s)); reflexivity.
  - intros Hhook Hd.
    unfold GenericDamageMult__init_subclass__,
      GenericDamageBonus__init_subclass__, GenericDamageAbsorb__init_subclass__.
    rewrite Hd. destruct (hook base); [contradiction| | |]; reflexivity.
Qed.

Lemma class_statement_failures_witness :
  exec_class (class_ "Mythic" "Modifier" (rarity_kw 4) [set_NAME "Mythic"])
    registry = Raise KeyError /\
  exec_class (class_ "Nameless" "Modifier" (rarity_kw Rarity.RARE) [])
    registry = Raise AttributeError /\
  exec_class (class_ "Stray" "Modifier" (absorb_kw "fire") [set_NAME "Stray"])
    registry = Raise TypeError /\
  exec_class (class_ "Untyped" "_GenericDamageAbsorb" no_kwargs [])
    registry = Raise ValueError.
Proof.
  assert (Hm : classes registry !! "Modifier" = Some Modifier)
    by (vm_compute; reflexivity).
  assert (Ha : exists base, classes registry !! "_GenericDamageAbsorb" = Some base
                            /\ hook base = GenericDamageAbsorb_hook)
    by (eexists; split; vm_compute; reflexivity).
  destruct Ha as (absorb & Ha & Hhook).
  split; [|split; [|split]].
  - refine (proj1 (class_statement_failures
                     (class_ "Mythic" "Modifier" (rarity_kw 4) [set_NAME "Mythic"])
                     registry Modifier Hm) 4 eq_refl eq_refl _).
    vm_compute. reflexivity.
  - refine (proj1 (proj2 (class_statement_failures
                     (class_ "Nameless" "Modifier" (rarity_kw Rarity.RARE) [])
                     registry Modifier Hm)) Rarity.RARE eq_refl eq_refl _ eq_refl).
    eexists. vm_compute. reflexivity.
  - refine (proj1 (proj2 (proj2 (class_statement_failures
                     (class_ "Stray" "Modifier" (absorb_kw "fire")
                        [set_NAME "Stray"])
                     registry Modifier Hm))) eq_refl _).
    left. eexists. reflexivity.
  - refine (proj2 (proj2 (proj2 (class_statement_failures
                     (class_ "Untyped" "_GenericDamageAbsorb" no_kwargs [])
                     registry absorb Ha))) _ eq_refl).
    rewrite Hhook. discriminate.
Defined.

(** ** Truncation toward zero *)

Lemma binary_round_aux_opp (s : bool) (m e : Z) (l : location) :
  binary_round_aux PyFloat.prec PyFloat.emax (negb s) m e l
  = SFopp (binary_round_aux PyFloat.prec PyFloat.emax s m e l).
Proof.
  unfold binary_round_aux.
  destruct (shr_fexp _ _ m e l) as [mrs' e'].
  destruct (shr_fexp _ _ _ e' loc_Exact) as [mrs'' e''].
  destruct (shr_m mrs''); try reflexivity.
  destruct (Z.leb _ _); reflexivity.
Qed.

Lemma to_int_opp (f : spec_float) (z : Z) :
  PyFloat.to_int f = Return z -> PyFloat.to_int (SFopp f) = Return (- z).
Proof.
  destruct f as [s|s| |s m e]; cbn [PyFloat.to_int SFopp]; try discriminate.
  - intros [= <-]. reflexivity.
  - intros [= <-]. f_equal. destruct s; cbn [negb]; lia.
Qed.

(** The quotient of two ints, rounded to binary64 and truncated, is the
    quotient rounded toward zero as long as the dividend is within
    [2^53]. *)
Lemma int_truediv_quot (a b : Z) :
  - 2 ^ 53 < a < 2 ^ 53 -> b <> 0 ->
  exists f,
    PyFloat.int_truediv a b = Return f /\ PyFloat.to_int f = Return (a ÷ b).
Proof.
  intros Ha Hb.
  assert (Hpos : forall pa pb, Zpos pa < 2 ^ 53 ->
            forall sa sb : bool, exists f,
              PyFloat.int_truediv (if sa then Zneg pa else Zpos pa)
                                  (if sb then Zneg pb else Zpos pb) = Return f
              /\ PyFloat.to_int f
                 = Return (if xorb sa sb then - (Zpos pa / Zpos pb)
                           else Zpos pa / Zpos pb)).
  { intros pa pb Hpa sa sb.
    destruct (int_truediv_floor (Zpos pa) (Zpos pb) ltac:(lia) ltac:(lia))
      as (f & Hf & Hint).
    unfold PyFloat.int_truediv in Hf |- *. cbn [Z.eqb] in Hf.
    replace ((if sb then Zneg pb else Zpos pb) =? 0) with false
      by (destruct sb; reflexivity).
    assert (Hdiv : SFdiv PyFloat.prec PyFloat.emax
                     (PyFloat.exact_int (if sa then Zneg pa else Zpos pa))
                     (PyFloat.exact_int (if sb then Zneg pb else Zpos pb))
                   = if xorb sa sb
                     then SFopp (SFdiv PyFloat.prec PyFloat.emax
                                   (PyFloat.exact_int (Zpos pa))
                                   (PyFloat.exact_int (Zpos pb)))
                     else SFdiv PyFloat.prec PyFloat.emax
                            (PyFloat.exact_int (Zpos pa))
                            (PyFloat.exact_int (Zpos pb))).
    { destruct sa, sb; cbn [PyFloat.exact_int SFdiv xorb];
        destruct (SFdiv_core_binary _ _ _ _ _ _) as [[mz ez] lz];
        try reflexivity;
        exact (binary_round_aux_opp false mz ez lz). }
    rewrite Hdiv.
    destruct (SFdiv PyFloat.prec PyFloat.emax (PyFloat.exact_int (Zpos pa))
                (PyFloat.exact_int (Zpos pb))) as [s|s| |s m e];
      try discriminate; injection Hf as <-;
      (destruct (xorb sa sb);
       [eexists; split; [reflexivity|]; exact (to_int_opp _ _ Hint)
       |eexists; split; [reflexivity|]; exact Hint]). }
  destruct a as [|pa|pa].
  - exists (S754_zero (match b with Zneg _ => true | _ => false end)).
    unfold PyFloat.int_truediv.
    destruct b as [|pb|pb]; [contradiction| |]; split; reflexivity.
  - destruct b as [|pb|pb]; [contradiction| |].
    + destruct (Hpos pa pb ltac:(lia) false false) as (f & Hf & Hint).
      exists f. split; [exact Hf|]. rewrite Hint. cbn [xorb].
      rewrite Z.quot_div_nonneg by lia. reflexivity.
    + destruct (Hpos pa pb ltac:(lia) false true) as (f & Hf & Hint).
      exists f. split; [exact Hf|]. rewrite Hint. cbn [xorb].
      change (Zneg pb) with (- Zpos pb).
      rewrite Z.quot_opp_r by lia.
      rewrite Z.quot_div_nonneg by lia. reflexivity.
  - destruct b as [|pb|pb]; [contradiction| |].
    + destruct (Hpos pa pb ltac:(lia) true false) as (f & Hf & Hint).
      exists f. split; [exact Hf|]. rewrite Hint. cbn [xorb].
      change (Zneg pa) with (- Zpos pa).
      rewrite Z.quot_opp_l by lia.
      rewrite Z.quot_div_nonneg by lia. reflexivity.
    + destruct (Hpos pa pb ltac:(lia) true true) as (f & Hf & Hint).
      exists f. split; [exact Hf|]. rewrite Hint. cbn [xorb].
      change (Zneg pa) with (- Zpos pa). change (Zneg pb) with (- Zpos pb).
      rewrite Z.quot_opp_opp by lia.
      rewrite Z.quot_div_nonneg by lia. reflexivity.
Qed.

(** X7.  [generate] truncates toward zero and has no floor of its own:
    for an integer [SCALING] other than 0 and a level within [2^53] of
    either sign, the strength is [MIN_STRENGTH] plus the quotient rounded
    toward zero, capped by a [MAX_STRENGTH] other than 0; a negative
    level leads below [MIN_STRENGTH]. *)
Theorem generate_truncates_toward_zero (c : class_obj) (scaling level : Z) :
  SCALING c = Some (PyInt scaling) ->
  scaling <> 0 ->
  - 2 ^ 53 < level < 2 ^ 53 ->
  generate c level
  = Return (Modifier__init__ (qualname c)
              (clamp_strength c (MIN_STRENGTH c + level ÷ scaling)) (-1)).
Proof.
  intros Hsc Hnz Hlevel. unfold generate. rewrite Hsc. cbn [int_div_number].
  destruct (int_truediv_quot level scaling Hlevel Hnz) as (f & Hf & Hint).
  rewrite Hf. cbn [bind]. rewrite Hint. reflexivity.
Qed.

Lemma generate_truncates_toward_zero_witness :
  let c := {| qualname := "Thorns"; hook := Modifier_hook; ID := Some 44;
              RARITY := Some Rarity.UNCOMMON;
              TYPE := Some ModifierType.PRE_DEFEND; OP_ORDERING := 0;
              MAX_STRENGTH := 0; MIN_STRENGTH := 1;
              SCALING := Some (PyInt 5); NAME := Some "Thorns";
              DAMAGE_TYPE := None |} in
  classes registry !! "Thorns" = Some c /\
  generate c (-4) = Return (Modifier__init__ "Thorns" 1 (-1)) /\
  generate c (-12) = Return (Modifier__init__ "Thorns" (-1) (-1)).
Proof.
  intros c. split; [reflexivity|]. split.
  - refine (generate_truncates_toward_zero c 5 (-4) eq_refl _ _);
      [discriminate|split; reflexivity].
  - refine (generate_truncates_toward_zero c 5 (-12) eq_refl _ _);
      [discriminate|split; reflexivity].
Defined.

Lemma clamp_strength_monotone (c : class_obj) (x y : Z) :
  x <= y -> clamp_strength c x <= clamp_strength c y.
Proof.
  intros Hxy. unfold clamp_strength.
  destruct (Z.eqb_spec (MAX_STRENGTH c) 0); cbn [negb andb]; [exact Hxy|].
  destruct (Z.ltb_spec (MAX_STRENGTH c) x), (Z.ltb_spec (MAX_STRENGTH c) y); lia.
Qed.

Lemma clamp_strength_bounds (c : class_obj) (x : Z) :
  MIN_STRENGTH c <= x ->
  (MAX_STRENGTH c = 0 \/ MIN_STRENGTH c <= MAX_STRENGTH c) ->
  MIN_STRENGTH c <= clamp_strength c x /\
  (MAX_STRENGTH c <> 0 -> clamp_strength c x <= MAX_STRENGTH c).
Proof.
  intros Hx Hcap. unfold clamp_strength.
  destruct (Z.eqb_spec (MAX_STRENGTH c) 0); cbn [negb andb]; [lia|].
  destruct (Z.ltb_spec (MAX_STRENGTH c) x); lia.
Qed.

Lemma registry_integer_scaled (cls : string) (c : class_obj) :
  classes registry !! cls = Some c ->
  integer_scaled c = true /\ qualname c = cls.
Proof.
  intros H. apply elem_of_map_to_list in H.
  assert (Hall : Forall (fun co : string * class_obj =>
                           integer_scaled co.2 = true /\ qualname co.2 = co.1)
                   (map_to_list (classes registry))).
  { apply (bool_decide_unpack _). vm_compute. exact I. }
  rewrite Forall_forall in Hall. exact (Hall _ H).
Qed.

(** X8.  Across the catalog: a class of the module whose [SCALING] is an
    integer generates, at every level from 0 to below [2^53], an instance
    of itself whose strength is at least [MIN_STRENGTH], at most a
    [MAX_STRENGTH] other than 0, and does not go down when the level goes
    up. *)
Theorem catalog_generate_in_range (cls : string) (c : class_obj)
    (scaling level level' : Z) :
  classes registry !! cls = Some c ->
  SCALING c = Some (PyInt scaling) ->
  0 <= level <= level' ->
  level' < 2 ^ 53 ->
  exists s s',
    generate c level = Return (Modifier__init__ cls s (-1)) /\
    generate c level' = Return (Modifier__init__ cls s' (-1)) /\
    MIN_STRENGTH c <= s <= s' /\
    (MAX_STRENGTH c <> 0 -> s' <= MAX_STRENGTH c).
Proof.
  intros Hc Hsc Hle Hlt.
  destruct (registry_integer_scaled cls c Hc) as [Hint Hq].
  unfold integer_scaled in Hint. rewrite Hsc in Hint.
  apply andb_true_iff in Hint as [Hk Hcap].
  apply Z.ltb_lt in Hk. apply orb_true_iff in Hcap.
  assert (Hcap' : MAX_STRENGTH c = 0 \/ MIN_STRENGTH c <= MAX_STRENGTH c).
  { destruct Hcap as [H|H]; [left; apply Z.eqb_eq|right; apply Z.leb_le]; exact H. }
  assert (Hgen : forall l, 0 <= l < 2 ^ 53 ->
            generate c l
            = Return (Modifier__init__ cls
                        (clamp_strength c (MIN_STRENGTH c + l / scaling)) (-1))).
  { intros l Hl. unfold generate. rewrite Hsc. cbn [int_div_number].
    destruct (int_truediv_floor l scaling Hl Hk) as (f & Hf & Hi).
    rewrite Hf. cbn [bind]. rewrite Hi. cbn [bind]. rewrite Hq. reflexivity. }
  exists (clamp_strength c (MIN_STRENGTH c + level / scaling)),
         (clamp_strength c (MIN_STRENGTH c + level' / scaling)).
  split; [apply Hgen; lia|]. split; [apply Hgen; lia|].
  assert (Hq0 : 0 <= level / scaling) by (apply Z.div_pos; lia).
  assert (Hq1 : level / scaling <= level' / scaling)
    by (apply Z.div_le_mono; lia).
  pose proof (clamp_strength_bounds c (MIN_STRENGTH c + level / scaling)
                ltac:(lia) Hcap') as [B1 _].
  pose proof (clamp_strength_bounds c (MIN_STRENGTH c + level' / scaling)
                ltac:(lia) Hcap') as [_ B2].
  pose proof (clamp_strength_monotone c (MIN_STRENGTH c + level / scaling)
                (MIN_STRENGTH c + level' / scaling) ltac:(lia)).
  repeat split; assumption || lia.
Qed.

Lemma catalog_generate_in_range_witness :
  exists c s s',
    classes registry !! "Vampiric" = Some c /\
    generate c 30 = Return (Modifier__init__ "Vampiric" s (-1)) /\
    generate c 4000 = Return (Modifier__init__ "Vampiric" s' (-1)) /\
    MIN_STRENGTH c <= s <= s' /\
    (MAX_STRENGTH c <> 0 -> s' <= MAX_STRENGTH c).
Proof.
  assert (Hc : exists c, classes registry !! "Vampiric" = Some c
                         /\ SCALING c = Some (PyInt 20))
    by (eexists; split; vm_compute; reflexivity).
  destruct Hc as (c & Hc & Hsc).
  destruct (catalog_generate_in_range "Vampiric" c 20 30 4000 Hc Hsc
              ltac:(lia) ltac:(reflexivity)) as (s & s' & H).
  exists c, s, s'. split; [exact Hc|exact H].
Defined.

(** * Further properties of the effects *)

Lemma with_hp_same (a : CombatActor) : with_hp a (hp a) = a.
Proof. destruct a. reflexivity. Qed.

Lemma modify_hp_damage (a : CombatActor) (s : Z) :
  0 <= s -> hp a <= max_hp a ->
  modify_hp (- s) false a = with_hp a (Z.max 0 (hp a - s)).
Proof.
  intros Hs Hhp. unfold modify_hp, with_hp. f_equal. lia.
Qed.

Lemma store_actor_logged (context : ModifierContext) (text : string)
    (l : nat) (a : CombatActor) (h : heap) :
  sink_ok context ->
  write_to_log context text (store_actor l a h)
  = Return {| damages := damages h; actors := <[l := a]> (actors h);
              combat_log := logged context text (combat_log h) |}.
Proof. intros Hsink. rewrite write_to_log_logged by exact Hsink. reflexivity. Qed.

(** X9.  Poison over the turns.  A [PoisonProc] of strength [s] and
    duration [d], applied at the start of [n] turns of the poisoned
    actor, takes [s] HP in each of the first [d] turns, never below 0,
    and is inert afterwards: the actor ends at
    [max(0, hp - s * min(n, d))] and the duration at [max(0, d - n)]. *)
Theorem poison_ticks_until_expiry (get_hp_string : CombatActor -> string)
    (n : nat) (s d : Z) (context : ModifierContext) (h : heap)
    (l : nat) (a : CombatActor) :
  ctx_get context "entity" = VActor l ->
  actors h !! l = Some a ->
  sink_ok context ->
  0 <= s -> 0 <= d ->
  0 <= hp a <= max_hp a ->
  exists h',
    apply_times (PoisonTipped_PoisonProc_function get_hp_string) n
      (Modifier__init__ "PoisonTipped.PoisonProc" s d) context h
    = Return (Modifier__init__ "PoisonTipped.PoisonProc" s
                (Z.max 0 (d - Z.of_nat n)), h') /\
    actors h'
    = <[l := with_hp a (Z.max 0 (hp a - s * Z.min (Z.of_nat n) d))]> (actors h) /\
    damages h' = damages h.
Proof.
  intros Hctx Ha Hsink Hs. revert d h a Ha.
  induction n as [|n IH]; intros d h a Ha Hd Hhp.
  - exists h. cbn [apply_times]. split; [do 2 f_equal; unfold Modifier__init__; f_equal; lia|].
    split; [|reflexivity].
    replace (Z.min (Z.of_nat 0) d) with 0 by lia.
    rewrite Z.mul_0_r, Z.sub_0_r, Z.max_r by lia.
    rewrite with_hp_same. symmetry. apply list_insert_id. exact Ha.
  - cbn [apply_times]. unfold apply at 1.
    cbn [Modifier__init__ duration strength cls set_duration].
    destruct (Z.ltb_spec 0 d) as [Hpos|Hzero].
    + unfold PoisonTipped_PoisonProc_function at 1.
      rewrite Hctx. unfold deref_actor. rewrite Ha.
      cbn [bind strength]. rewrite store_actor_logged by exact Hsink.
      cbn [bind snd].
      change (set_duration (Modifier__init__ "PoisonTipped.PoisonProc" s d)
                (d - 1))
        with (Modifier__init__ "PoisonTipped.PoisonProc" s (d - 1)).
      change (strength (Modifier__init__ "PoisonTipped.PoisonProc" s (d - 1)))
        with s.
      rewrite modify_hp_damage by lia.
      set (a1 := with_hp a (Z.max 0 (hp a - s))).
      set (h1 := {| damages := damages h; actors := <[l := a1]> (actors h);
                    combat_log := _ |}).
      assert (Ha1 : actors h1 !! l = Some a1).
      { unfold h1. cbn [actors]. apply list_lookup_insert_eq.
        exact (lookup_lt_Some _ _ _ Ha). }
      destruct (IH (d - 1) h1 a1 Ha1 ltac:(lia)) as (h' & Hrun & Hact & Hdam).
      { unfold a1, with_hp. cbn [hp max_hp]. lia. }
      exists h'. rewrite Hrun.
      split; [do 2 f_equal; unfold Modifier__init__; f_equal; lia|].
      split; [|rewrite Hdam; reflexivity].
      rewrite Hact. unfold h1. cbn [actors]. rewrite list_insert_insert_eq.
      f_equal. unfold a1, with_hp. cbn [hp max_hp actor_name]. f_equal.
      assert (Hm : 0 <= s * Z.min (Z.of_nat n) (d - 1))
        by (apply Z.mul_nonneg_nonneg; lia).
      replace (Z.min (Z.of_nat (S n)) d) with (1 + Z.min (Z.of_nat n) (d - 1))
        by lia.
      rewrite Z.mul_add_distr_l, Z.mul_1_r. lia.
    + assert (d = 0) by lia. subst d. cbn [Z.eqb bind snd].
      destruct (IH 0 h a Ha ltac:(lia) Hhp) as (h' & Hrun & Hact & Hdam).
      exists h'. rewrite Hrun.
      split; [do 2 f_equal; unfold Modifier__init__; f_equal; lia|].
      split; [|exact Hdam].
      rewrite Hact. do 3 f_equal. lia.
Qed.

Lemma poison_ticks_until_expiry_witness :
  exists h',
    apply_times (PoisonTipped_PoisonProc_function sample_hp_string) 5
      (Modifier__init__ "PoisonTipped.PoisonProc" 2 4)
      {[ "entity" := VActor 1%nat; "context" := VContainer ]} sample_heap
    = Return (Modifier__init__ "PoisonTipped.PoisonProc" 2 (Z.max 0 (4 - 5)), h') /\
    actors h'
    = <[1%nat := with_hp (Build_CombatActor "Al" 7 100)
                   (Z.max 0 (7 - 2 * Z.min 5 4))]> (actors sample_heap) /\
    damages h' = damages sample_heap.
Proof.
  apply (poison_ticks_until_expiry sample_hp_string 5 2 4
           {[ "entity" := VActor 1%nat; "context" := VContainer ]} sample_heap
           1%nat (Build_CombatActor "Al" 7 100)).
  - reflexivity.
  - reflexivity.
  - right. reflexivity.
  - lia.
  - lia.
  - cbn. lia.
Defined.

Lemma big_hits_cons (d : Damage) (ds : list Damage) :
  big_hits (d :: ds)
  = (if 1 <? DamageOps.total d then 1 else 0) + big_hits ds.
Proof.
  unfold big_hits. rewrite filter_cons.
  destruct (Z.ltb_spec 1 (DamageOps.total d)) as [Hb|Hs].
  - rewrite decide_True by exact Hb. cbn [length]. lia.
  - rewrite decide_False by lia. lia.
Qed.

Lemma big_hits_not_negative (ds : list Damage) : 0 <= big_hits ds.
Proof. unfold big_hits. lia. Qed.

Lemma ctx_get_other_key (context : ModifierContext) (k k' : string) (v : value) :
  k <> k' -> ctx_get (<[k := v]> context) k' = ctx_get context k'.
Proof.
  intros Hne. unfold ctx_get. rewrite lookup_insert_ne by exact Hne. reflexivity.
Qed.

Lemma ctx_get_same_key (context : ModifierContext) (k : string) (v : value) :
  ctx_get (<[k := v]> context) k = v.
Proof. unfold ctx_get. rewrite lookup_insert_eq. reflexivity. Qed.

Lemma sink_ok_other_key (context : ModifierContext) (k : string) (v : value) :
  k <> "context" -> sink_ok context -> sink_ok (<[k := v]> context).
Proof.
  intros Hne. unfold sink_ok. rewrite ctx_get_other_key by exact Hne. tauto.
Qed.

(** X10.  The Eldritch Shield over a series of hits.  A [TankHits] of
    duration [d], applied to one hit after the other, answers each of the
    first [d] hits with a total above 1 by a new empty damage value; a hit
    with a total of 1 or less is handed back as it is and costs no
    charge; once [d] hits above 1 have come the shield answers nothing.
    After the series the duration is [max(0, d - big)], where [big]
    counts the hits above 1, the heap holds [min(d, big)] more damage
    values, all empty, and no actor has changed. *)
Theorem shield_takes_the_first_big_hits (hits : list nat) (ds : list Damage)
    (d : Z) (context : ModifierContext) (h : heap)
    (lt : nat) (t : CombatActor) :
  Forall2 (fun l d0 => damages h !! l = Some d0) hits ds ->
  ctx_get context "target" = VActor lt ->
  actors h !! lt = Some t ->
  sink_ok context ->
  0 <= d ->
  exists vs h',
    apply_to_hits EldritchShield_TankHits_function hits
      (Modifier__init__ "EldritchShield.TankHits" 0 d) context h
    = Return (vs,
              Modifier__init__ "EldritchShield.TankHits" 0
                (Z.max 0 (d - big_hits ds)), h') /\
    damages h'
    = damages h ++ replicate (Z.to_nat (Z.min d (big_hits ds))) DamageOps.empty /\
    actors h' = actors h /\
    length vs = length hits /\
    (forall i l d0 v,
       hits !! i = Some l -> ds !! i = Some d0 -> vs !! i = Some v ->
       shield_answer h h' d (big_hits (take i ds)) l d0 v).
Proof.
  intros Hhits Htarget Ht Hsink. revert d h Hhits Ht.
  revert ds. induction hits as [|l hits IH]; intros ds d h Hhits Ht Hd.
  - apply Forall2_nil_inv_l in Hhits as ->.
    exists [], h. cbn [apply_to_hits].
    change (big_hits []) with 0.
    replace (Z.max 0 (d - 0)) with d by lia.
    split; [reflexivity|].
    replace (Z.to_nat (Z.min d 0)) with 0%nat by lia.
    cbn [replicate]. rewrite app_nil_r.
    repeat split; auto. intros i l d0 v Hi. rewrite lookup_nil in Hi.
    discriminate.
  - apply Forall2_cons_inv_l in Hhits as (d0 & ds' & Hl & Hrest & ->).
    rewrite big_hits_cons. pose proof (big_hits_not_negative ds') as Hbig.
    cbn [apply_to_hits]. unfold apply at 1.
    cbn [Modifier__init__ duration].
    destruct (Z.ltb_spec 0 d) as [Hpos|Hzero].
    + unfold EldritchShield_TankHits_function at 1.
      rewrite ctx_get_same_key. unfold deref_damage. rewrite Hl.
      cbn [bind].
      destruct (Z.ltb_spec 1 (DamageOps.total d0)) as [Hb|Hs].
      * rewrite ctx_get_other_key by discriminate.
        rewrite Htarget. unfold deref_actor. rewrite Ht. cbn [bind].
        rewrite write_to_log_logged
          by (apply sink_ok_other_key; [discriminate|exact Hsink]).
        cbn [bind new_damage damages actors combat_log fst snd].
        set (h1 := {| damages := damages h ++ [DamageOps.empty];
                      actors := actors h; combat_log := _ |}).
        destruct (IH ds' (d - 1) h1)
          as (vs & h' & Hrun & Hdam & Hact & Hlen & Hans).
        { eapply Forall2_impl; [exact Hrest|].
          intros l' d' Hl'. unfold h1. cbn [damages].
          apply lookup_app_l_Some. exact Hl'. }
        { exact Ht. }
        { lia. }
        change (set_duration
                  (Modifier__init__ "EldritchShield.TankHits" 0 d) (d - 1))
          with (Modifier__init__ "EldritchShield.TankHits" 0 (d - 1)).
        rewrite Hrun. cbn [bind fst snd].
        replace (Z.max 0 (d - (1 + big_hits ds')))
          with (Z.max 0 (d - 1 - big_hits ds')) by lia.
        assert (Hdam' : damages h'
                        = damages h
                          ++ replicate (Z.to_nat (Z.min d (1 + big_hits ds')))
                               DamageOps.empty).
        { rewrite Hdam. unfold h1. cbn [damages]. rewrite <- app_assoc.
          f_equal.
          replace (Z.to_nat (Z.min d (1 + big_hits ds')))
            with (S (Z.to_nat (Z.min (d - 1) (big_hits ds')))) by lia.
          reflexivity. }
        eexists. exists h'. split; [reflexivity|].
        split; [exact Hdam'|]. split; [exact Hact|].
        split; [cbn [length]; lia|].
        intros i l0 d1 v Hi Hdi Hvi. unfold shield_answer.
        destruct i as [|i]; cbn [lookup list_lookup take] in Hi, Hdi, Hvi |- *.
        -- injection Hi as <-. injection Hdi as <-. injection Hvi as <-.
           change (big_hits []) with 0.
           destruct (Z.leb_spec d 0) as [?|_]; [lia|].
           destruct (Z.ltb_spec 1 (DamageOps.total d0)) as [_|?]; [|lia].
           exists (length (damages h)). split; [reflexivity|].
           split; [lia|].
           rewrite Hdam'. rewrite lookup_app_r by lia. rewrite Nat.sub_diag.
           replace (Z.to_nat (Z.min d (1 + big_hits ds')))
             with (S (Z.to_nat (Z.min (d - 1) (big_hits ds')))) by lia.
           reflexivity.
        -- specialize (Hans i l0 d1 v Hi Hdi Hvi). unfold shield_answer in Hans.
           change (take (S i) (d0 :: ds')) with (d0 :: take i ds').
           rewrite big_hits_cons.
           destruct (Z.ltb_spec 1 (DamageOps.total d0)) as [_|?]; [|lia].
           destruct (Z.leb_spec (d - 1) (big_hits (take i ds'))) as [H1|H1];
             destruct (Z.leb_spec d (1 + big_hits (take i ds'))) as [H2|H2];
             try lia; [exact Hans|].
           destruct (1 <? DamageOps.total d1); [|exact Hans].
           destruct Hans as (l' & -> & Hfresh & Hempty).
           exists l'. split; [reflexivity|]. split; [|exact Hempty].
           unfold h1 in Hfresh. cbn [damages] in Hfresh.
           rewrite length_app in Hfresh. cbn [length] in Hfresh. lia.
      * cbn [bind fst snd set_duration cls strength duration].
        replace (d - 1 + 1) with d by lia.
        change (set_duration
                  (set_duration (Modifier__init__ "EldritchShield.TankHits" 0 d)
                     (d - 1)) d)
          with (Modifier__init__ "EldritchShield.TankHits" 0 d).
        destruct (IH ds' d h Hrest Ht Hd)
          as (vs & h' & Hrun & Hdam & Hact & Hlen & Hans).
        rewrite Hrun. cbn [bind fst snd].
        rewrite Z.add_0_l.
        eexists. exists h'. split; [reflexivity|].
        split; [exact Hdam|]. split; [exact Hact|].
        split; [cbn [length]; lia|].
        intros i l0 d1 v Hi Hdi Hvi. unfold shield_answer.
        destruct i as [|i]; cbn [lookup list_lookup take] in Hi, Hdi, Hvi |- *.
        -- injection Hi as <-. injection Hdi as <-. injection Hvi as <-.
           change (big_hits []) with 0.
           destruct (Z.leb_spec d 0) as [?|_]; [lia|].
           destruct (Z.ltb_spec 1 (DamageOps.total d0)) as [?|_]; [lia|].
           reflexivity.
        -- specialize (Hans i l0 d1 v Hi Hdi Hvi). unfold shield_answer in Hans.
           change (take (S i) (d0 :: ds')) with (d0 :: take i ds').
           rewrite big_hits_cons.
           destruct (Z.ltb_spec 1 (DamageOps.total d0)) as [?|_]; [lia|].
           rewrite Z.add_0_l. exact Hans.
    + assert (d = 0) by lia. subst d. cbn [Z.eqb bind fst snd].
      destruct (IH ds' 0 h Hrest Ht Hd)
        as (vs & h' & Hrun & Hdam & Hact & Hlen & Hans).
      rewrite Hrun. cbn [bind fst snd].
      replace (Z.max 0 (0 - ((if 1 <? DamageOps.total d0 then 1 else 0)
                             + big_hits ds')))
        with (Z.max 0 (0 - big_hits ds'))
        by (destruct (1 <? DamageOps.total d0); lia).
      replace (Z.to_nat (Z.min 0 ((if 1 <? DamageOps.total d0 then 1 else 0)
                                  + big_hits ds')))
        with (Z.to_nat (Z.min 0 (big_hits ds')))
        by (destruct (1 <? DamageOps.total d0); lia).
      eexists. exists h'. split; [reflexivity|].
      split; [exact Hdam|]. split; [exact Hact|].
      split; [cbn [length]; lia|].
      intros i l0 d1 v Hi Hdi Hvi. unfold shield_answer.
      destruct i as [|i]; cbn [lookup list_lookup take] in Hi, Hdi, Hvi |- *.
      * injection Hvi as <-. change (big_hits []) with 0. reflexivity.
      * specialize (Hans i l0 d1 v Hi Hdi Hvi). unfold shield_answer in Hans.
        change (take (S i) (d0 :: ds')) with (d0 :: take i ds').
        pose proof (big_hits_not_negative (take i ds')) as Hnn.
        pose proof (big_hits_not_negative (d0 :: take i ds')) as Hnn'.
        destruct (Z.leb_spec 0 (big_hits (take i ds'))) as [_|?]; [|lia].
        destruct (Z.leb_spec 0 (big_hits (d0 :: take i ds'))) as [_|?]; [|lia].
        exact Hans.
Qed.

Lemma shield_takes_the_first_big_hits_witness :
  let h := {| damages := [Build_Damage 4 0 0 0 0 0 0 0;
                          Build_Damage 1 0 0 0 0 0 0 0;
                          Build_Damage 0 0 0 0 9 0 0 0];
              actors := [Build_CombatActor "Al" 7 100];
              combat_log := [] |} in
  exists vs h',
    apply_to_hits EldritchShield_TankHits_function [0; 1; 2; 0; 2]%nat
      (Modifier__init__ "EldritchShield.TankHits" 0 2)
      {[ "target" := VActor 0%nat ]} h
    = Return (vs, Modifier__init__ "EldritchShield.TankHits" 0 0, h') /\
    damages h' = damages h ++ [DamageOps.empty; DamageOps.empty] /\
    actors h' = actors h /\
    length vs = 5%nat /\
    (exists l', vs !! 0%nat = Some (VDamage l') /\ (3 <= l')%nat /\
                damages h' !! l' = Some DamageOps.empty) /\
    vs !! 1%nat = Some (VDamage 1%nat) /\
    vs !! 3%nat = Some VNone.
Proof.
  intros h.
  destruct (shield_takes_the_first_big_hits [0; 1; 2; 0; 2]%nat
              [Build_Damage 4 0 0 0 0 0 0 0; Build_Damage 1 0 0 0 0 0 0 0;
               Build_Damage 0 0 0 0 9 0 0 0; Build_Damage 4 0 0 0 0 0 0 0;
               Build_Damage 0 0 0 0 9 0 0 0]
              2 {[ "target" := VActor 0%nat ]} h 0%nat
              (Build_CombatActor "Al" 7 100))
    as (vs & h' & Hrun & Hdam & Hact & Hlen & Hans).
  - repeat constructor.
  - reflexivity.
  - reflexivity.
  - left. reflexivity.
  - lia.
  - exists vs, h'. split; [exact Hrun|]. split; [exact Hdam|].
    split; [exact Hact|]. split; [exact Hlen|].
    destruct vs as [|v0 [|v1 [|v2 [|v3 vs]]]]; try discriminate.
    split; [|split].
    + pose proof (Hans 0%nat 0%nat (Build_Damage 4 0 0 0 0 0 0 0) v0
                    eq_refl eq_refl eq_refl) as H0.
      unfold shield_answer in H0. change (2 <=? big_hits (take 0 _)) with false in H0.
      change (1 <? DamageOps.total _) with true in H0. cbv iota in H0.
      destruct H0 as (l' & -> & Hfresh & Hempty).
      exists l'. split; [reflexivity|]. split; [exact Hfresh|exact Hempty].
    + pose proof (Hans 1%nat 1%nat (Build_Damage 1 0 0 0 0 0 0 0) v1
                    eq_refl eq_refl eq_refl) as H1.
      vm_compute in H1. rewrite H1. reflexivity.
    + pose proof (Hans 3%nat 0%nat (Build_Damage 4 0 0 0 0 0 0 0) v3
                    eq_refl eq_refl eq_refl) as H3.
      vm_compute in H3. rewrite H3. reflexivity.
Defined.

Lemma timed_append_spawns (l : nat) (m : instance) (a : arena) :
  timed_of (timed_append l m a) l = timed_of a l ++ [m] /\
  (forall l', l' <> l -> timed_of (timed_append l m a) l' = timed_of a l').
Proof.
  unfold timed_of at 1 3, timed_append. cbn [timed_modifiers]. split.
  - rewrite lookup_insert_eq. reflexivity.
  - intros l' Hne. rewrite lookup_insert_ne by congruence. reflexivity.
Qed.

(** X11.  What the five spawning effects leave behind.  Each appends one
    instance of its nested class to the timed modifiers of one actor and
    touches nothing else: [PoisonTipped] poisons the actor under
    ["other"] with its own strength for twice as many turns and hands the
    damage on; [EldritchShield], [UnyieldingWill], [IdiotGodBlessing] and
    [AdditionalHelper] attach to the actor under ["entity"] a shield of
    [strength] charges, a revive of [strength] charges, a revive of one
    charge that carries the strength, and a permanent helper. *)
Theorem spawners_attach_one_sub_effect (self : instance)
    (context : ModifierContext) (a : arena)
    (le lo : nat) (entity other : CombatActor) :
  ctx_get context "entity" = VActor le ->
  actors (objects a) !! le = Some entity ->
  ctx_get context "other" = VActor lo ->
  actors (objects a) !! lo = Some other ->
  sink_ok context ->
  let s := strength self in
  spawns PoisonTipped_function self context a lo
    (Modifier__init__ "PoisonTipped.PoisonProc" s (s * 2))
    (ctx_get context "damage") /\
  spawns EldritchShield_function self context a le
    (Modifier__init__ "EldritchShield.TankHits" 0 s) (VInt 0) /\
  spawns UnyieldingWill_function self context a le
    (Modifier__init__ "UnyieldingWill.FreeRevive" 1 s) VNone /\
  spawns IdiotGodBlessing_function self context a le
    (Modifier__init__ "IdiotGodBlessing.FreeRevive" s 1) (VInt 0) /\
  spawns AdditionalHelper_function self context a le
    (Modifier__init__ "AdditionalHelper.Helper" s (-1)) (VInt 0).
Proof.
  intros He Hent Ho Hoth Hsink s.
  unfold spawns, PoisonTipped_function, EldritchShield_function,
    UnyieldingWill_function, IdiotGodBlessing_function,
    AdditionalHelper_function.
  rewrite He, Ho. unfold deref_actor. rewrite Hent, Hoth. cbn [bind].
  rewrite !write_to_log_logged by exact Hsink. cbn [bind].
  repeat split; eexists; (split; [reflexivity|]);
    cbn [objects timed_modifiers actors damages timed_append];
    (split; [apply timed_append_spawns|]);
    (split; [apply timed_append_spawns|]); split; reflexivity.
Qed.

Lemma spawners_attach_one_sub_effect_witness :
  let a := {| objects := sample_heap; timed_modifiers := ∅ |} in
  let context : ModifierContext :=
    {[ "entity" := VActor 1%nat; "other" := VActor 0%nat;
       "damage" := VDamage 0%nat ]} in
  spawns PoisonTipped_function (Modifier__init__ "PoisonTipped" 3 (-1))
    context a 0%nat (Modifier__init__ "PoisonTipped.PoisonProc" 3 6)
    (VDamage 0%nat) /\
  spawns EldritchShield_function (Modifier__init__ "EldritchShield" 3 (-1))
    context a 1%nat (Modifier__init__ "EldritchShield.TankHits" 0 3) (VInt 0).
Proof.
  intros a context. split.
  - exact (proj1 (spawners_attach_one_sub_effect
                    (Modifier__init__ "PoisonTipped" 3 (-1)) context a
                    1%nat 0%nat (Build_CombatActor "Al" 7 100)
                    (Build_CombatActor "Bob" 0 100)
                    eq_refl eq_refl eq_refl eq_refl (or_introl eq_refl))).
  - exact (proj1 (proj2 (spawners_attach_one_sub_effect
                    (Modifier__init__ "EldritchShield" 3 (-1)) context a
                    1%nat 0%nat (Build_CombatActor "Al" 7 100)
                    (Build_CombatActor "Bob" 0 100)
                    eq_refl eq_refl eq_refl eq_refl (or_introl eq_refl)))).
Defined.

(** ** Leeching and standing up again *)

Lemma small_product_near_floor (x : Z) (self : instance) :
  0 <= x <= 300 -> 0 <= strength self <= 100 ->
  exists z,
    int_times_fstrength x self = Return z /\
    0 <= z /\ x * strength self / 100 - 1 <= z <= x * strength self / 100.
Proof.
  intros Hx Hs.
  pose proof int_times_fstrength_near_floor as Hall.
  rewrite Forall_forall in Hall.
  specialize (Hall (Z.to_nat x)). rewrite Forall_forall in Hall.
  specialize (Hall ltac:(apply elem_of_seq; lia) (Z.to_nat (strength self))
                ltac:(apply elem_of_seq; lia)).
  rewrite !Z2Nat.id in Hall by lia.
  unfold near_floor in Hall.
  change (int_times_fstrength x (Modifier__init__ "" (strength self) (-1)))
    with (int_times_fstrength x self) in Hall.
  destruct (int_times_fstrength x self) as [z|] eqn:Hz; [|discriminate].
  exists z. split; [reflexivity|].
  split; [exact (int_times_fstrength_not_negative x self z ltac:(lia)
                   ltac:(lia) Hz)|].
  destruct (x * strength self mod 100 =? 0).
  - apply orb_true_iff in Hall as [H|H]; apply Z.eqb_eq in H; lia.
  - apply Z.eqb_eq in Hall. lia.
Qed.

(** X12.  [Vampiric] always leeches.  For a hit of 0 to 300 points in
    total and a strength of 0 to 100 the attacker is healed by
    [int(total * (strength / 100))], which is the floor of
    [total * strength / 100] or one less, and by 1 HP when that is 0: at
    least 1 HP even after a hit that dealt nothing.  The healing stops at
    max HP, and the damage value is left alone. *)
Theorem vampiric_leeches_at_least_one (get_hp_string : CombatActor -> string)
    (self : instance) (context : ModifierContext) (h : heap)
    (l la : nat) (damage : Damage) (a : CombatActor) :
  ctx_get context "damage" = VDamage l ->
  damages h !! l = Some damage ->
  ctx_get context "supplier" = VActor la ->
  actors h !! la = Some a ->
  sink_ok context ->
  0 <= DamageOps.total damage <= 300 ->
  0 <= strength self <= 100 ->
  0 <= hp a -> 0 <= max_hp a ->
  exists healing h',
    Vampiric_function get_hp_string self context h = Return (VNone, self, h') /\
    1 <= healing /\
    DamageOps.total damage * strength self / 100 - 1 <= healing
    <= Z.max 1 (DamageOps.total damage * strength self / 100) /\
    actors h'
    = <[la := with_hp a (Z.min (hp a + healing) (max_hp a))]> (actors h) /\
    damages h' = damages h.
Proof.
  intros Hd Hl Hs Ha Hsink Htotal Hstr Hhp Hmax.
  destruct (small_product_near_floor _ self Htotal Hstr) as (z & Hz & Hz0 & Hzf).
  exists (if z =? 0 then 1 else z).
  unfold Vampiric_function. rewrite Hd. unfold deref_damage. rewrite Hl.
  cbn [bind]. rewrite Hz. cbn [bind]. rewrite Hs. unfold deref_actor.
  rewrite Ha. cbn [bind]. rewrite store_actor_logged by exact Hsink.
  cbn [bind]. eexists. split; [reflexivity|]. cbn [actors damages].
  assert (Hheal : 1 <= (if z =? 0 then 1 else z)).
  { destruct (Z.eqb_spec z 0); lia. }
  split; [exact Hheal|]. split; [destruct (Z.eqb_spec z 0); lia|].
  split; [|reflexivity].
  f_equal. unfold modify_hp, with_hp. f_equal. lia.
Qed.

Lemma vampiric_leeches_at_least_one_witness :
  exists healing h',
    Vampiric_function sample_hp_string (Modifier__init__ "Vampiric" 10 (-1))
      {[ "damage" := VDamage 0%nat; "supplier" := VActor 1%nat ]}
      (fire_heap 0)
    = Return (VNone, Modifier__init__ "Vampiric" 10 (-1), h') /\
    1 <= healing /\
    0 * 10 / 100 - 1 <= healing <= Z.max 1 (0 * 10 / 100) /\
    actors h'
    = <[1%nat := with_hp (Build_CombatActor "Al" 7 100)
                   (Z.min (7 + healing) 100)]> (actors (fire_heap 0)) /\
    damages h' = damages (fire_heap 0).
Proof.
  apply (vampiric_leeches_at_least_one sample_hp_string
           (Modifier__init__ "Vampiric" 10 (-1))
           {[ "damage" := VDamage 0%nat; "supplier" := VActor 1%nat ]}
           (fire_heap 0) 0%nat 1%nat (Build_Damage 0 0 0 0 0 0 0 0)
           (Build_CombatActor "Al" 7 100)).
  - reflexivity.
  - reflexivity.
  - reflexivity.
  - reflexivity.
  - left. reflexivity.
  - split; vm_compute; discriminate.
  - split; vm_compute; discriminate.
  - vm_compute; discriminate.
  - vm_compute; discriminate.
Defined.

(** X13.  The revive of [UnyieldingWill].  Applied with a charge left to
    a defender at 0 HP it writes its line and restores half of max HP,
    rounded down, which costs the charge: with a max HP of 1 the defender
    stays at 0.  Applied to a defender who stands it changes nothing, the
    charge included. *)
Theorem unyielding_will_restores_half (self : instance)
    (context : ModifierContext) (h : heap) (ld : nat) (defender : CombatActor) :
  0 < duration self ->
  ctx_get context "other" = VActor ld ->
  actors h !! ld = Some defender ->
  sink_ok context ->
  0 <= max_hp defender < 2 ^ 53 ->
  (hp defender = 0 ->
   apply UnyieldingWill_FreeRevive_function self context h
   = Return (VNone, set_duration self (duration self - 1),
             {| damages := damages h;
                actors := <[ld := with_hp defender (max_hp defender / 2)]>
                            (actors h);
                combat_log := logged context
                                (actor_name defender +:+ " still stands.")
                                (combat_log h) |})) /\
  (hp defender <> 0 ->
   apply UnyieldingWill_FreeRevive_function self context h
   = Return (VNone, self, h)).
Proof.
  intros Hd Ho Hdef Hsink Hmax.
  unfold apply, UnyieldingWill_FreeRevive_function.
  destruct (Z.ltb_spec 0 (duration self)) as [_|?]; [|lia].
  rewrite Ho. unfold deref_actor. rewrite Hdef. cbn [bind]. split.
  - intros Hhp. rewrite Hhp. cbn [Z.eqb].
    rewrite write_to_log_logged by exact Hsink. cbn [bind].
    destruct (int_truediv_floor (max_hp defender) 2 Hmax ltac:(lia))
      as (f & Hf & Hint).
    rewrite Hf. cbn [bind]. rewrite Hint. cbn [bind].
    unfold store_actor. cbn [damages actors combat_log].
    do 3 f_equal. unfold modify_hp, with_hp. f_equal.
    rewrite Hhp.
    assert (0 <= max_hp defender / 2 <= max_hp defender).
    { split; [apply Z.div_pos; lia|].
      apply Z.div_le_upper_bound; lia. }
    f_equal. lia.
  - intros Hhp. destruct (Z.eqb_spec (hp defender) 0) as [?|_]; [contradiction|].
    do 2 f_equal. destruct self as [c s d]. unfold set_duration.
    cbn [cls strength duration]. f_equal. f_equal. lia.
Qed.

Lemma unyielding_will_restores_half_witness :
  let revive := Modifier__init__ "UnyieldingWill.FreeRevive" 1 2 in
  let h := {| damages := []; actors := [Build_CombatActor "Bob" 0 1];
              combat_log := [] |} in
  apply UnyieldingWill_FreeRevive_function revive
    {[ "other" := VActor 0%nat; "context" := VContainer ]} h
  = Return (VNone, set_duration revive 1,
            {| damages := [];
               actors := [Build_CombatActor "Bob" 0 1];
               combat_log := ["Bob still stands."] |}).
Proof.
  intros revive h.
  refine (proj1 (unyielding_will_restores_half revive
                   {[ "other" := VActor 0%nat; "context" := VContainer ]} h
                   0%nat (Build_CombatActor "Bob" 0 1)
                   eq_refl eq_refl eq_refl (or_intror eq_refl) _) eq_refl).
  split; [discriminate|reflexivity].
Defined.

(** ** Hit points stay in range *)

Lemma modify_hp_in_range (amount : Z) (a : CombatActor) :
  hp_in_range a -> hp_in_range (modify_hp amount false a).
Proof. unfold hp_in_range, modify_hp. cbn [hp max_hp]. lia. Qed.

Lemma store_actor_in_range (l : nat) (a : CombatActor) (h : heap) :
  Forall hp_in_range (actors h) -> hp_in_range a ->
  Forall hp_in_range (actors (store_actor l a h)).
Proof.
  intros Hall Ha. unfold store_actor. cbn [actors].
  apply Forall_insert; assumption.
Qed.

Lemma write_to_log_frame (context : ModifierContext) (text : string)
    (h h' : heap) :
  write_to_log context text h = Return h' ->
  actors h' = actors h /\ damages h' = damages h.
Proof.
  unfold write_to_log. destruct (ctx_get context "context");
    try discriminate; intros [= <-]; auto.
Qed.

(** X14.  The five effects that only move hit points without overheal
    ([PoisonProc], [Thorns], [Brutal], [LambEmbrace], [Dread]): whatever
    the strength, a call that returns has changed no damage value and not
    its own duration, and has left every actor between 0 and max HP if
    all were; and the call does return when the context holds the actor
    the effect looks for and a log sink or none. *)
Theorem hp_effects_keep_hp_in_range (get_hp_string : CombatActor -> string)
    (f : behaviour) (key : string)
    (self : instance) (context : ModifierContext) (h : heap) :
  (f = PoisonTipped_PoisonProc_function get_hp_string /\ key = "entity")
  \/ (f = Thorns_function get_hp_string /\ key = "other")
  \/ (f = Brutal_function get_hp_string /\ key = "other")
  \/ (f = LambEmbrace_function get_hp_string /\ key = "entity")
  \/ (f = Dread_function get_hp_string /\ key = "opponent") ->
  (forall v self' h',
     f self context h = Return (v, self', h') ->
     self' = self /\ damages h' = damages h /\
     length (actors h') = length (actors h) /\
     (Forall hp_in_range (actors h) -> Forall hp_in_range (actors h'))) /\
  (forall l a,
     ctx_get context key = VActor l -> actors h !! l = Some a ->
     sink_ok context ->
     exists v h', f self context h = Return (v, self, h')).
Proof.
  intros Hf. split.
  - intros v self' h'.
    destruct Hf as [[-> _]|[[-> _]|[[-> _]|[[-> _]|[-> _]]]]];
      unfold PoisonTipped_PoisonProc_function, Thorns_function,
        Brutal_function, LambEmbrace_function, Dread_function;
      (destruct (deref_actor _ h) as [[l a]|] eqn:Hd; [|discriminate]);
      cbn [bind];
      (destruct (write_to_log context _ _) as [h1|] eqn:Hw; [|discriminate]);
      cbn [bind]; intros [= <- <- <-];
      destruct (write_to_log_frame _ _ _ _ Hw) as [Ea Ed];
      rewrite Ea, Ed; cbn [store_actor actors damages];
      (split; [reflexivity|]); (split; [reflexivity|]);
      (split; [apply length_insert|]);
      intros Hall; apply Forall_insert; try exact Hall;
      apply modify_hp_in_range;
      unfold deref_actor in Hd;
      (destruct (ctx_get context _) as [| | |la|]; try discriminate);
      (destruct (actors h !! la) as [a0|] eqn:Hla; [|discriminate]);
      injection Hd as <- <-;
      rewrite Forall_forall in Hall; apply Hall;
      eapply list_elem_of_lookup_2; exact Hla.
  - intros l a Hkey Ha Hsink.
    destruct Hf as [[-> ->]|[[-> ->]|[[-> ->]|[[-> ->]|[-> ->]]]]];
      unfold PoisonTipped_PoisonProc_function, Thorns_function,
        Brutal_function, LambEmbrace_function, Dread_function;
      rewrite Hkey; unfold deref_actor; rewrite Ha; cbn [bind];
      rewrite write_to_log_logged by exact Hsink; cbn [bind];
      eexists; eexists; reflexivity.
Qed.

Lemma hp_effects_keep_hp_in_range_witness :
  exists v h',
    Thorns_function sample_hp_string (Modifier__init__ "Thorns" 9 (-1))
      sample_context sample_heap
    = Return (v, Modifier__init__ "Thorns" 9 (-1), h') /\
    damages h' = damages sample_heap /\
    Forall hp_in_range (actors h').
Proof.
  pose proof (hp_effects_keep_hp_in_range sample_hp_string
                (Thorns_function sample_hp_string) "other"
                (Modifier__init__ "Thorns" 9 (-1)) sample_context sample_heap
                (or_intror (or_introl (conj eq_refl eq_refl)))) as [Hsafe Hruns].
  destruct (Hruns 0%nat (Build_CombatActor "Bob" 0 100) eq_refl eq_refl
              (or_intror eq_refl)) as (v & h' & Hrun).
  destruct (Hsafe v _ h' Hrun) as (_ & Hdam & _ & Hrange).
  exists v, h'. split; [exact Hrun|]. split; [exact Hdam|].
  apply Hrange. repeat constructor; cbn; lia.
Defined.



(** X16.  The Shade Helper acts on the draws below 40, that is on 39 of
    the 100 draws of [randint(1, 100)]: it then takes [strength] HP from
    the opponent and writes one line; on a draw of 40 or more it does
    nothing at all. *)
Theorem helper_acts_below_forty (get_hp_string : CombatActor -> string)
    (roll : Z) (self : instance) (context : ModifierContext) (h : heap)
    (le lo : nat) (entity opponent : CombatActor) :
  ctx_get context "entity" = VActor le ->
  actors h !! le = Some entity ->
  ctx_get context "opponent" = VActor lo ->
  actors h !! lo = Some opponent ->
  sink_ok context ->
  (roll < 40 ->
   exists text,
     AdditionalHelper_Helper_function get_hp_string roll self context h
     = Return (VNone, self,
               {| damages := damages h;
                  actors := <[lo := modify_hp (- strength self) false opponent]>
                              (actors h);
                  combat_log := logged context text (combat_log h) |})) /\
  (40 <= roll ->
   AdditionalHelper_Helper_function get_hp_string roll self context h
   = Return (VNone, self, h)).
Proof.
  intros He Hent Ho Hopp Hsink. unfold AdditionalHelper_Helper_function. split.
  - intros Hroll. destruct (Z.ltb_spec roll 40) as [_|?]; [|lia].
    rewrite Ho, He. unfold deref_actor. rewrite Hopp. cbn [bind].
    cbn [store_actor actors].
    destruct (<[lo := _]> (actors h) !! le) as [e|] eqn:Hle.
    + cbn [bind]. rewrite write_to_log_logged by exact Hsink. cbn [bind].
      eexists. reflexivity.
    + exfalso. apply lookup_ge_None in Hle. rewrite length_insert in Hle.
      pose proof (lookup_lt_Some _ _ _ Hent). lia.
  - intros Hroll. destruct (Z.ltb_spec roll 40) as [?|_]; [lia|]. reflexivity.
Qed.

Lemma helper_acts_below_forty_witness :
  let helper := Modifier__init__ "AdditionalHelper.Helper" 5 (-1) in
  let context : ModifierContext :=
    {[ "entity" := VActor 0%nat; "opponent" := VActor 1%nat ]} in
  (exists text,
     AdditionalHelper_Helper_function sample_hp_string 39 helper context
       sample_heap
     = Return (VNone, helper,
               {| damages := damages sample_heap;
                  actors := <[1%nat := modify_hp (- 5) false
                                         (Build_CombatActor "Al" 7 100)]>
                              (actors sample_heap);
                  combat_log := logged context text (combat_log sample_heap) |}))
  /\ AdditionalHelper_Helper_function sample_hp_string 40 helper context
       sample_heap
     = Return (VNone, helper, sample_heap).
Proof.
  intros helper context.
  pose proof (helper_acts_below_forty sample_hp_string) as H.
  split.
  - refine (proj1 (H 39 helper context sample_heap 0%nat 1%nat
                     (Build_CombatActor "Bob" 0 100)
                     (Build_CombatActor "Al" 7 100)
                     eq_refl eq_refl eq_refl eq_refl (or_introl eq_refl)) _).
    reflexivity.
  - refine (proj2 (H 40 helper context sample_heap 0%nat 1%nat
                     (Build_CombatActor "Bob" 0 100)
                     (Build_CombatActor "Al" 7 100)
                     eq_refl eq_refl eq_refl eq_refl (or_introl eq_refl)) _).
    discriminate.
Defined.

(** ** The generic variants *)

Lemma set_field_total (key : string) (d : Damage) :
  key ∈ DamageOps.keys ->
  exists v,
    DamageOps.get_field d key = Return v /\
    forall x, exists d',
      DamageOps.set_field d key x = Return d' /\
      DamageOps.get_field d' key = Return x /\
      DamageOps.total d' = DamageOps.total d - v + x.
Proof.
  intros Hkey. destruct d as [a b c o f ac fr e].
  unfold DamageOps.keys in Hkey.
  repeat (apply elem_of_cons in Hkey as [->|Hkey];
          [eexists; split; [reflexivity|]; intros x; eexists;
           split; [reflexivity|]; split; [reflexivity|];
           unfold DamageOps.total; cbn; lia|]).
  inversion Hkey.
Qed.

Lemma module_body_dmg_type (s : class_stmt) (key : string) (self : instance) :
  s ∈ module_body ->
  kw_dmg_type (c_kw s) = Some key ->
  cls self = c_name s ->
  self_DAMAGE_TYPE registry self = Return key /\ key ∈ DamageOps.keys.
Proof.
  intros Hs Hkw Hcls.
  assert (Hall : Forall (fun s => keeps_dmg_type registry s = true) module_body).
  { apply (bool_decide_unpack _). vm_compute. exact I. }
  rewrite Forall_forall in Hall. specialize (Hall _ Hs).
  unfold keeps_dmg_type in Hall. rewrite Hkw in Hall.
  apply andb_true_iff in Hall as [Hattr Hin].
  apply bool_decide_eq_true in Hattr. apply bool_decide_eq_true in Hin.
  split; [|exact Hin].
  unfold self_DAMAGE_TYPE, class_of. rewrite Hcls.
  unfold class_attr in Hattr.
  destruct (classes registry !! c_name s) as [o|]; [|discriminate].
  cbn [bind]. rewrite Hattr. reflexivity.
Qed.

(** X17.  A variant of the two damage templates changes one category and
    no other.  For a class statement of the module with a [dmg_type], an
    instance of its class has that [dmg_type] as its [DAMAGE_TYPE], a
    category of the damage value.  The behaviour of a bonus returns a new
    damage value in which that category is raised by the strength, that
    of a multiplier one in which it is scaled by
    [(100 + strength) / 100]; every other category holds what it held,
    and so does the damage value handed over. *)
Theorem generic_variants_change_one_category
    (scale_amount : Z -> spec_float -> Z) (s : class_stmt) (key : string)
    (self : instance) (context : ModifierContext) (h : heap)
    (l : nat) (d : Damage) :
  s ∈ module_body ->
  kw_dmg_type (c_kw s) = Some key ->
  cls self = c_name s ->
  ctx_get context "damage" = VDamage l ->
  damages h !! l = Some d ->
  self_DAMAGE_TYPE registry self = Return key /\
  key ∈ DamageOps.keys /\
  (c_base s = "_GenericDamageBonus" ->
   exists d',
     GenericDamageBonus_function registry self context h
     = Return (VDamage (length (damages h)), self,
               {| damages := damages h ++ [d']; actors := actors h;
                  combat_log := combat_log h |}) /\
     (forall k x,
        DamageOps.get_field d k = Return x ->
        DamageOps.get_field d' k
        = Return (if bool_decide (k = key) then x + strength self else x)) /\
     DamageOps.total d' = DamageOps.total d + strength self) /\
  (c_base s = "_GenericDamageMult" ->
   - 2 ^ 53 < 100 + strength self < 2 ^ 53 ->
   exists factor d',
     PyFloat.int_truediv (100 + strength self) 100 = Return factor /\
     PyFloat.to_int factor = Return ((100 + strength self) ÷ 100) /\
     GenericDamageMult_function registry scale_amount self context h
     = Return (VDamage (length (damages h)), self,
               {| damages := damages h ++ [d']; actors := actors h;
                  combat_log := combat_log h |}) /\
     (forall k x,
        DamageOps.get_field d k = Return x ->
        DamageOps.get_field d' k
        = Return (if bool_decide (k = key) then scale_amount x factor
                  else x))).
Proof.
  intros Hs Hkw Hcls Hctx Hl.
  destruct (module_body_dmg_type s key self Hs Hkw Hcls) as [Hkey Hin].
  split; [exact Hkey|]. split; [exact Hin|].
  destruct (set_field_total key d Hin) as (v & Hget & Hset).
  split.
  - intros _.
    destruct (Hset (v + strength self)) as (d' & Hd' & _ & Htotal).
    exists d'. split; [|split; [|lia]].
    + unfold GenericDamageBonus_function, add_single_value.
      rewrite Hctx. unfold deref_damage. rewrite Hl. cbn [bind].
      rewrite Hkey. cbn [bind]. rewrite Hget. cbn [bind]. rewrite Hd'.
      reflexivity.
    + intros k x Hx. rewrite (set_field_get_field _ _ _ _ Hd' k x Hx).
      destruct (bool_decide (k = key)) eqn:Hk; [|reflexivity].
      apply bool_decide_eq_true in Hk. subst k. congruence.
  - intros _ Hrange.
    destruct (int_truediv_quot (100 + strength self) 100 Hrange ltac:(lia))
      as (factor & Hfactor & Hint).
    destruct (Hset (scale_amount v factor)) as (d' & Hd' & _ & _).
    exists factor, d'. split; [exact Hfactor|]. split; [exact Hint|]. split.
    + unfold GenericDamageMult_function, scale_single_value.
      rewrite Hctx. unfold deref_damage. rewrite Hl. cbn [bind].
      rewrite Hkey. cbn [bind]. rewrite Hfactor. cbn [bind].
      rewrite Hget. cbn [bind]. rewrite Hd'. reflexivity.
    + intros k x Hx. rewrite (set_field_get_field _ _ _ _ Hd' k x Hx).
      destruct (bool_decide (k = key)) eqn:Hk; [|reflexivity].
      apply bool_decide_eq_true in Hk. subst k. congruence.
Qed.

Lemma generic_variants_change_one_category_witness :
  let bonus := Modifier__init__ "FireAttackBonus" 5 (-1) in
  exists d',
    GenericDamageBonus_function registry bonus sample_context sample_heap
    = Return (VDamage 1%nat, bonus,
              {| damages := damages sample_heap ++ [d'];
                 actors := actors sample_heap;
                 combat_log := combat_log sample_heap |}) /\
    DamageOps.get_field d' "fire" = Return (10 + 5) /\
    DamageOps.get_field d' "slash" = Return 1 /\
    DamageOps.get_field d' "electric" = Return 8.
Proof.
  intros bonus.
  assert (Hs : class_ "FireAttackBonus" "_GenericDamageBonus"
                 (dmg_kw "fire" ModifierType.PRE_ATTACK) [] ∈ module_body)
    by (apply (list_elem_of_lookup_2 _ 23%nat); reflexivity).
  destruct (proj1 (proj2 (proj2
              (generic_variants_change_one_category truncating_scale
                 (class_ "FireAttackBonus" "_GenericDamageBonus"
                    (dmg_kw "fire" ModifierType.PRE_ATTACK) [])
                 "fire" bonus sample_context sample_heap 0%nat
                 (Build_Damage 1 2 3 4 10 6 7 8)
                 Hs eq_refl eq_refl eq_refl eq_refl))) eq_refl)
    as (d' & Hrun & Hcat & _).
  exists d'. split; [exact Hrun|].
  split; [exact (Hcat "fire" 10 eq_refl)|].
  split; [exact (Hcat "slash" 1 eq_refl)|exact (Hcat "electric" 8 eq_refl)].
Defined.

(** ** Blessed *)

Lemma blessed_table :
  Forall (fun v =>
            Forall (fun s => blessed_near_floor (Z.of_nat v) (Z.of_nat s) = true)
                   (seq 0 51))
         (seq 0 151).
Proof. apply (bool_decide_unpack _). vm_compute. exact I. Qed.

Lemma one_plus_fstrength_returns (self : instance) :
  - 2 ^ 53 < strength self < 2 ^ 53 ->
  exists factor, one_plus_fstrength self = Return factor.
Proof.
  intros Hs. unfold one_plus_fstrength, get_fstrength.
  destruct (int_truediv_quot (strength self) 100 Hs ltac:(lia)) as (f & Hf & _).
  rewrite Hf. cbn [bind]. eexists. reflexivity.
Qed.

(** X18.  [Blessed] never lowers max HP.  For a max HP of 0 to 150 and a
    strength of 0 to 50, the cap of the class, it returns
    [int(value * (1 + strength / 100))] taken in binary64: a number from
    [value] up, the floor of [value * (100 + strength) / 100] or one less;
    it changes no object.  Without a number under ["value"] the call is a
    [TypeError] for a strength within [2^53]; the factor is evaluated
    first, so that with a strength of [10^400] the call is an
    [OverflowError] whatever the context holds. *)
Theorem blessed_raises_max_hp (self : instance) (context : ModifierContext)
    (h : heap) (v : Z) :
  (ctx_get context "value" = VInt v ->
   0 <= v <= 150 -> 0 <= strength self <= 50 ->
   exists z,
     Blessed_function self context h = Return (VInt z, self, h) /\
     v <= z /\
     v * (100 + strength self) / 100 - 1 <= z <= v * (100 + strength self) / 100)
  /\ (ctx_get context "value" = VNone ->
      - 2 ^ 53 < strength self < 2 ^ 53 ->
      Blessed_function self context h = Raise TypeError)
  /\ (strength self = 10 ^ 400 ->
      Blessed_function self context h = Raise OverflowError).
Proof.
  split; [|split].
  - intros Hctx Hv Hs.
    pose proof blessed_table as Hall.
    rewrite Forall_forall in Hall.
    specialize (Hall (Z.to_nat v)). rewrite Forall_forall in Hall.
    specialize (Hall ltac:(apply elem_of_seq; lia) (Z.to_nat (strength self))
                  ltac:(apply elem_of_seq; lia)).
    rewrite !Z2Nat.id in Hall by lia.
    unfold blessed_near_floor in Hall.
    change (one_plus_fstrength (Modifier__init__ "" (strength self) (-1)))
      with (one_plus_fstrength self) in Hall.
    unfold Blessed_function. rewrite Hctx.
    destruct (one_plus_fstrength self) as [factor|]; [|discriminate].
    cbn [bind] in Hall |- *.
    destruct (int_times_float v factor) as [z|]; [|discriminate].
    exists z. split; [reflexivity|].
    apply andb_true_iff in Hall as [Hle Hfloor]. apply Z.leb_le in Hle.
    split; [exact Hle|].
    destruct (v * (100 + strength self) mod 100 =? 0).
    + apply orb_true_iff in Hfloor as [H|H]; apply Z.eqb_eq in H; lia.
    + apply Z.eqb_eq in Hfloor. lia.
  - intros Hctx Hs. unfold Blessed_function. rewrite Hctx.
    destruct (one_plus_fstrength_returns self Hs) as (factor & ->).
    reflexivity.
  - intros Hs. unfold Blessed_function.
    assert (Hover : one_plus_fstrength self = Raise OverflowError).
    { unfold one_plus_fstrength, get_fstrength. rewrite Hs.
      vm_compute. reflexivity. }
    rewrite Hover. reflexivity.
Qed.

Lemma blessed_raises_max_hp_witness :
  Blessed_function (Modifier__init__ "Blessed" 16 (-1))
    {[ "value" := VInt 25 ]} sample_heap
  = Return (VInt 28, Modifier__init__ "Blessed" 16 (-1), sample_heap)
  /\ 25 * (100 + 16) / 100 = 29
  /\ Blessed_function (Modifier__init__ "Blessed" 16 (-1)) ∅ sample_heap
     = Raise TypeError
  /\ Blessed_function (Modifier__init__ "Blessed" (10 ^ 400) (-1)) ∅
       sample_heap
     = Raise OverflowError.
Proof.
  split; [|split; [reflexivity|split]].
  - assert (Hctx : ctx_get ({[ "value" := VInt 25 ]} : ModifierContext) "value"
                   = VInt 25) by (vm_compute; reflexivity).
    destruct (proj1 (blessed_raises_max_hp (Modifier__init__ "Blessed" 16 (-1))
                       {[ "value" := VInt 25 ]} sample_heap 25)
                Hctx ltac:(split; discriminate) ltac:(split; discriminate))
      as (z & Hrun & _).
    rewrite Hrun. vm_compute in Hrun. injection Hrun as <-. reflexivity.
  - refine (proj1 (proj2 (blessed_raises_max_hp
                            (Modifier__init__ "Blessed" 16 (-1)) ∅
                            sample_heap 0)) eq_refl _).
    split; reflexivity.
  - exact (proj2 (proj2 (blessed_raises_max_hp
                           (Modifier__init__ "Blessed" (10 ^ 400) (-1)) ∅
                           sample_heap 0)) eq_refl).
Defined.

(** * Properties of players, guilds and quests *)

Lemma level_up_more_fuel (fuel extra : nat) (p p' : Classes.Player) :
  Classes.level_up fuel p = Some p' ->
  Classes.level_up (fuel + extra) p = Some p'.
Proof.
  revert p. induction fuel as [|fuel IH]; intros p; [discriminate|].
  cbn [Classes.level_up Nat.add].
  destruct (Classes.get_required_xp p <=? Classes.xp p); [apply IH|auto].
Qed.

Lemma xp_to_reach_next (l : Z) :
  0 <= l ->
  Classes.xp_to_reach (Z.to_nat (l + 1))
  = Classes.xp_to_reach (Z.to_nat l) + (100 * l + 5 * l * l).
Proof.
  intros Hl. replace (Z.to_nat (l + 1)) with (S (Z.to_nat l)) by lia.
  cbn [Classes.xp_to_reach]. rewrite Z2Nat.id by lia. reflexivity.
Qed.

Lemma level_up_loop (fuel : nat) (p : Classes.Player) :
  0 <= Classes.level p ->
  Z.max 0 (Classes.xp p) + (if Classes.level p =? 0 then 1 else 0)
  < Z.of_nat fuel ->
  exists p',
    Classes.level_up fuel p = Some p' /\
    Classes.xp p' < Classes.get_required_xp p' /\
    Classes.level p <= Classes.level p' /\
    Classes.lifetime_xp p' = Classes.lifetime_xp p /\
    Classes.same_but_level_xp p p' /\
    (Classes.get_required_xp p <= Classes.xp p ->
     Classes.level p < Classes.level p') /\
    (Classes.xp p < Classes.get_required_xp p -> p' = p).
Proof.
  revert p. induction fuel as [|fuel IH]; intros p Hl Hfuel.
  - destruct (Classes.level p =? 0); lia.
  - cbn [Classes.level_up].
    destruct (Z.leb_spec (Classes.get_required_xp p) (Classes.xp p)) as [Hge|Hlt].
    + set (p1 := Classes.set_level_xp p (Classes.level p + 1)
                   (Classes.xp p - Classes.get_required_xp p)).
      assert (Hreq : Classes.get_required_xp p
                     = 100 * Classes.level p
                       + 5 * Classes.level p * Classes.level p)
        by reflexivity.
      assert (Hsq : 0 <= Classes.level p * Classes.level p)
        by (apply Z.mul_nonneg_nonneg; lia).
      destruct (IH p1) as (p' & Hrun & Hset & Hlev & Hlife & Hsame & _ & _).
      { unfold p1. cbn. lia. }
      { unfold p1. cbn [Classes.set_level_xp Classes.level Classes.xp].
        destruct (Z.eqb_spec (Classes.level p + 1) 0) as [?|_]; [lia|].
        destruct (Z.eqb_spec (Classes.level p) 0) as [E|E].
        - rewrite E in *. lia.
        - assert (Classes.level p <= Classes.level p * Classes.level p)
            by (replace (Classes.level p) with (Classes.level p * 1) at 1 by lia;
                apply Z.mul_le_mono_nonneg_l; lia).
          lia. }
      exists p'. split; [exact Hrun|]. split; [exact Hset|].
      unfold p1 in Hlev, Hlife, Hsame.
      cbn [Classes.set_level_xp Classes.level Classes.xp] in Hlev.
      split; [lia|]. split; [|split; [|split; [lia|lia]]].
      * rewrite Hlife. unfold Classes.lifetime_xp.
        cbn [Classes.set_level_xp Classes.level Classes.xp].
        rewrite xp_to_reach_next by exact Hl. lia.
      * unfold Classes.same_but_level_xp in *. rewrite Hsame.
        destruct p. reflexivity.
    + exists p. split; [reflexivity|]. split; [exact Hlt|].
      split; [lia|]. split; [reflexivity|].
      split; [destruct p; reflexivity|]. split; [lia|reflexivity].
Qed.

(** X19.  [Player.level_up] comes to an end for a player at level 0 or
    above: the loop stops within [xp + 2] tests, at a level that is not
    lower, with the banked experience below the threshold of that level.
    It only moves experience into levels: the banked experience plus the
    thresholds passed so far is what it was, and every other attribute is
    untouched.  Below the threshold it changes nothing. *)
Theorem level_up_settles (p : Classes.Player) :
  0 <= Classes.level p ->
  exists p',
    (forall fuel, (Z.to_nat (Classes.xp p) + 2 <= fuel)%nat ->
                  Classes.level_up fuel p = Some p') /\
    Classes.xp p' < Classes.get_required_xp p' /\
    Classes.level p <= Classes.level p' /\
    Classes.lifetime_xp p' = Classes.lifetime_xp p /\
    Classes.same_but_level_xp p p' /\
    (Classes.xp p < Classes.get_required_xp p -> p' = p).
Proof.
  intros Hl.
  destruct (level_up_loop (Z.to_nat (Classes.xp p) + 2) p Hl)
    as (p' & Hrun & Hset & Hlev & Hlife & Hsame & _ & Hid).
  { destruct (Classes.level p =? 0); lia. }
  exists p'. split; [|auto 6].
  intros fuel Hfuel.
  replace fuel with (Z.to_nat (Classes.xp p) + 2
                     + (fuel - (Z.to_nat (Classes.xp p) + 2)))%nat by lia.
  apply level_up_more_fuel. exact Hrun.
Qed.

Lemma level_up_settles_witness :
  let p := Classes.Build_Player 7 None 1 330 0 ∅ 0 0 in
  exists p',
    (forall fuel, (332 <= fuel)%nat -> Classes.level_up fuel p = Some p') /\
    Classes.xp p' < Classes.get_required_xp p' /\
    Classes.level p <= Classes.level p' /\
    Classes.lifetime_xp p' = Classes.lifetime_xp p /\
    Classes.same_but_level_xp p p' /\
    (Classes.xp p < Classes.get_required_xp p -> p' = p).
Proof.
  intros p. apply (level_up_settles p). discriminate.
Defined.

(** X20.  [Player.add_xp] answers whether the level rose.  For a player
    at level 0 or above it returns [True] exactly when the experience
    with the amount added reaches the threshold of the level, which is
    exactly when the level ends higher than it was.  Either way the
    banked experience ends below the threshold of the final level, the
    banked experience plus the thresholds passed has grown by the
    amount, and no other attribute has changed. *)
Theorem add_xp_reports_the_level_up (p : Classes.Player) (amount : Z) :
  0 <= Classes.level p ->
  exists b p',
    (forall fuel, (Z.to_nat (Classes.xp p + amount) + 2 <= fuel)%nat ->
                  Classes.add_xp fuel p amount = Some (b, p')) /\
    (b = true <-> Classes.level p < Classes.level p') /\
    (b = true <-> Classes.get_required_xp p <= Classes.xp p + amount) /\
    Classes.xp p' < Classes.get_required_xp p' /\
    Classes.lifetime_xp p' = Classes.lifetime_xp p + amount /\
    Classes.same_but_level_xp p p'.
Proof.
  intros Hl. unfold Classes.add_xp.
  set (p0 := Classes.set_level_xp p (Classes.level p) (Classes.xp p + amount)).
  assert (Hreq0 : Classes.get_required_xp p0 = Classes.get_required_xp p)
    by reflexivity.
  assert (Hxp0 : Classes.xp p0 = Classes.xp p + amount) by reflexivity.
  assert (Hlife0 : Classes.lifetime_xp p0 = Classes.lifetime_xp p + amount).
  { unfold Classes.lifetime_xp, p0. cbn. lia. }
  destruct (Z.leb_spec (Classes.get_required_xp p0) (Classes.xp p0)) as [Hge|Hlt].
  - destruct (level_up_loop (Z.to_nat (Classes.xp p0) + 2) p0 Hl)
      as (p' & Hrun & Hset & Hlev & Hlife & Hsame & Hrise & _).
    { change (Classes.level p0) with (Classes.level p).
      destruct (Classes.level p =? 0); lia. }
    exists true, p'. split; [|split; [|split; [|split; [|split]]]].
    + intros fuel Hfuel.
      replace fuel with (Z.to_nat (Classes.xp p0) + 2
                         + (fuel - (Z.to_nat (Classes.xp p0) + 2)))%nat
        by (rewrite Hxp0; lia).
      rewrite (level_up_more_fuel _ _ _ _ Hrun). reflexivity.
    + specialize (Hrise Hge). change (Classes.level p0) with (Classes.level p) in Hrise.
      tauto.
    + rewrite <- Hreq0, <- Hxp0. tauto.
    + exact Hset.
    + rewrite Hlife. exact Hlife0.
    + unfold Classes.same_but_level_xp in *. rewrite Hsame. destruct p.
      reflexivity.
  - exists false, p0. split; [|split; [|split; [|split; [|split]]]].
    + reflexivity.
    + change (Classes.level p0) with (Classes.level p).
      split; [discriminate|lia].
    + rewrite <- Hreq0, <- Hxp0. split; [discriminate|lia].
    + exact Hlt.
    + exact Hlife0.
    + unfold Classes.same_but_level_xp, p0. destruct p. reflexivity.
Qed.

Lemma add_xp_reports_the_level_up_witness :
  let p := Classes.Build_Player 7 None 1 100 0 ∅ 0 0 in
  exists b p',
    (forall fuel, (332 <= fuel)%nat -> Classes.add_xp fuel p 230 = Some (b, p')) /\
    (b = true <-> Classes.level p < Classes.level p') /\
    (b = true <-> Classes.get_required_xp p <= Classes.xp p + 230) /\
    Classes.xp p' < Classes.get_required_xp p' /\
    Classes.lifetime_xp p' = Classes.lifetime_xp p + 230 /\
    Classes.same_but_level_xp p p'.
Proof.
  intros p. apply (add_xp_reports_the_level_up p 230). discriminate.
Defined.

(** X21.  The two upgrades of a player charge the price of the level they
    lead to, not the price [can_upgrade_gear] and [can_upgrade_home]
    compare the money with: the level goes up before the price is read.
    A player who can just afford the upgrade ends with less than no
    money. *)
Theorem player_upgrades_charge_the_next_level (p : Classes.Player) :
  Classes.gear_level (Classes.upgrade_gear p) = Classes.gear_level p + 1 /\
  Classes.money (Classes.upgrade_gear p)
  = Classes.money p - Classes.get_gear_upgrade_required_money p
    - (101 + 2 * Classes.gear_level p) /\
  Classes.home_level (Classes.upgrade_home p) = Classes.home_level p + 1 /\
  Classes.money (Classes.upgrade_home p)
  = Classes.money p - Classes.get_home_upgrade_required_money p
    - (1004 + 8 * Classes.home_level p) /\
  (0 <= Classes.gear_level p ->
   Classes.money p = Classes.get_gear_upgrade_required_money p ->
   Classes.can_upgrade_gear p = true /\
   Classes.money (Classes.upgrade_gear p) < 0) /\
  (0 <= Classes.home_level p ->
   Classes.money p = Classes.get_home_upgrade_required_money p ->
   Classes.can_upgrade_home p = true /\
   Classes.money (Classes.upgrade_home p) < 0).
Proof.
  unfold Classes.upgrade_gear, Classes.upgrade_home, Classes.can_upgrade_gear,
    Classes.can_upgrade_home, Classes.get_gear_upgrade_required_money,
    Classes.get_home_upgrade_required_money.
  destruct p as [pid g l x m zp gl hl]. cbn.
  repeat split; try lia; apply Z.leb_le; lia.
Qed.

Lemma player_upgrades_charge_the_next_level_witness :
  let p := Classes.Build_Player 7 None 1 0 309 ∅ 3 2 in
  Classes.can_upgrade_gear p = true /\
  Classes.money (Classes.upgrade_gear p) < 0.
Proof.
  intros p.
  apply (proj1 (proj2 (proj2 (proj2 (proj2
           (player_upgrades_charge_the_next_level p)))))).
  - discriminate.
  - reflexivity.
Defined.

(** X22.  A guild upgrade that [can_upgrade] allows is paid for.  When
    [can_upgrade] answers [True], [upgrade] takes from the founder the
    price of the current level, which the founder has, and lifts the
    guild one level, to the maximum at most; no other player and no other
    guild changes.  At the maximum level [can_upgrade] answers [False]
    whatever the founder owns. *)
Theorem guild_upgrade_is_paid_for (MAX_LEVEL : Z) (g : nat) (w : Classes.world)
    (self : Classes.Guild) (f : Classes.Player) :
  Classes.guilds w !! g = Some self ->
  Classes.players w !! Classes.founder self = Some f ->
  (Classes.can_upgrade MAX_LEVEL g w = Return true ->
   exists w',
     Classes.upgrade g w = Return w' /\
     Classes.guilds w'
     = <[g := Classes.Build_Guild (Classes.guild_id self)
                (Classes.guild_level self + 1) (Classes.founder self)]>
         (Classes.guilds w) /\
     Classes.players w'
     = <[Classes.founder self :=
           Classes.set_money f
             (Classes.money f - Classes.get_upgrade_required_money self)]>
         (Classes.players w) /\
     0 <= Classes.money f - Classes.get_upgrade_required_money self /\
     Classes.guild_level self + 1 <= MAX_LEVEL) /\
  (MAX_LEVEL <= Classes.guild_level self ->
   Classes.can_upgrade MAX_LEVEL g w = Return false).
Proof.
  intros Hg Hf. unfold Classes.can_upgrade, Classes.upgrade.
  rewrite Hg, Hf. split.
  - destruct (Z.ltb_spec (Classes.guild_level self) MAX_LEVEL) as [Hlt|Hge];
      [|discriminate].
    intros [= Hcan]. apply Z.leb_le in Hcan.
    eexists. split; [reflexivity|]. cbn [Classes.guilds Classes.players].
    repeat split; lia.
  - intros Hmax.
    destruct (Z.ltb_spec (Classes.guild_level self) MAX_LEVEL) as [Hlt|Hge];
      [lia|reflexivity].
Qed.

Lemma guild_upgrade_is_paid_for_witness :
  let founder := Classes.Build_Player 7 (Some 0%nat) 5 0 20020 ∅ 0 0 in
  let w := {| Classes.players := [founder];
              Classes.guilds := [Classes.Build_Guild 1 2 0] |} in
  exists w',
    Classes.upgrade 0 w = Return w' /\
    Classes.guilds w' = [Classes.Build_Guild 1 3 0] /\
    Classes.players w' = [Classes.set_money founder 0] /\
    0 <= 20020 - 20020 /\
    2 + 1 <= 10.
Proof.
  intros founder w.
  apply (proj1 (guild_upgrade_is_paid_for 10 0%nat w
                  (Classes.Build_Guild 1 2 0) founder eq_refl eq_refl)).
  reflexivity.
Defined.

(** X23.  The rewards of a quest.  With a guild of level 0 the rewards
    are 0 experience and 0 money, whatever the zone and the quest: the
    conditional expression guards the whole sum.  With a guild of any
    other level they are 100 and 180 times the sum of the zone level, the
    quest number and the guild level.  For a player without a guild the
    call is an [AttributeError]. *)
Theorem quest_rewards_need_a_guild_level (q : Classes.Quest)
    (p : Classes.Player) (w : Classes.world) :
  (Classes.guild p = None -> Classes.get_rewards q p w = Raise AttributeError) /\
  (forall g gd,
     Classes.guild p = Some g -> Classes.guilds w !! g = Some gd ->
     (Classes.guild_level gd = 0 -> Classes.get_rewards q p w = Return (0, 0)) /\
     (Classes.guild_level gd <> 0 ->
      let m := Classes.zone_level (Classes.zone q) + Classes.number q
               + Classes.guild_level gd in
      Classes.get_rewards q p w = Return (100 * m, 180 * m))).
Proof.
  unfold Classes.get_rewards. split.
  - intros ->. reflexivity.
  - intros g gd -> ->. split.
    + intros ->. reflexivity.
    + intros Hne. destruct (Z.eqb_spec (Classes.guild_level gd) 0) as [?|_];
        [contradiction|reflexivity].
Qed.

Lemma quest_rewards_need_a_guild_level_witness :
  let q := Classes.Build_Quest 1 (Classes.Build_Zone 1 9) 4 in
  let p := Classes.Build_Player 7 (Some 0%nat) 5 0 0 ∅ 0 0 in
  Classes.get_rewards q p
    {| Classes.players := [p]; Classes.guilds := [Classes.Build_Guild 1 0 0] |}
  = Return (0, 0) /\
  Classes.get_rewards q (Classes.Build_Player 8 None 5 0 0 ∅ 0 0)
    {| Classes.players := [p]; Classes.guilds := [Classes.Build_Guild 1 0 0] |}
  = Raise AttributeError.
Proof.
  intros q p. split.
  - apply (proj1 (proj2 (quest_rewards_need_a_guild_level q p
                           {| Classes.players := [p];
                              Classes.guilds := [Classes.Build_Guild 1 0 0] |})
                    0%nat (Classes.Build_Guild 1 0 0) eq_refl eq_refl)).
    reflexivity.
  - apply (proj1 (quest_rewards_need_a_guild_level q
                    (Classes.Build_Player 8 None 5 0 0 ∅ 0 0)
                    {| Classes.players := [p];
                       Classes.guilds := [Classes.Build_Guild 1 0 0] |})).
    reflexivity.
Defined.

(** X24.  The outcome of a quest by the draw.  A draw of 0 fails whatever
    the player; from 1 up a higher draw never turns a success into a
    failure.  A player whose level and gear level reach the zone level
    plus twice the quest number, less 1, succeeds on each of the draws 1
    to 11, and one whose levels fall short of it by more than 11 fails on
    every draw. *)
Theorem finish_quest_by_the_draw (q : Classes.Quest) (p : Classes.Player) :
  let need := Classes.zone_level (Classes.zone q) + Classes.number q * 2 in
  let have := Classes.level p + Classes.gear_level p in
  Classes.finish_quest 0 q p = false /\
  (forall roll roll',
     1 <= roll <= roll' ->
     Classes.finish_quest roll q p = true ->
     Classes.finish_quest roll' q p = true) /\
  (need - 1 <= have ->
   forall roll, 1 <= roll -> Classes.finish_quest roll q p = true) /\
  (have + 11 < need ->
   forall roll, roll <= 11 -> Classes.finish_quest roll q p = false).
Proof.
  intros need have. unfold Classes.finish_quest. fold need. fold have.
  split; [reflexivity|]. split; [|split].
  - intros roll roll' Hr.
    destruct (Z.eqb_spec roll 0) as [?|_]; [lia|].
    destruct (Z.eqb_spec roll' 0) as [?|_]; [lia|].
    intros H. apply Z.leb_le in H. apply Z.leb_le. lia.
  - intros Hhave roll Hr.
    destruct (Z.eqb_spec roll 0) as [?|_]; [lia|]. apply Z.leb_le. lia.
  - intros Hshort roll Hr.
    destruct (Z.eqb_spec roll 0) as [?|_]; [reflexivity|].
    apply Z.leb_gt. lia.
Qed.

Lemma finish_quest_by_the_draw_witness :
  let q := Classes.Build_Quest 1 (Classes.Build_Zone 1 9) 4 in
  let p := Classes.Build_Player 7 None 10 0 0 ∅ 6 0 in
  Classes.finish_quest 1 q p = true /\
  Classes.finish_quest 11 q (Classes.Build_Player 8 None 2 0 0 ∅ 3 0) = false.
Proof.
  intros q p. split.
  - refine (proj1 (proj2 (proj2 (finish_quest_by_the_draw q p))) _ 1 _);
      discriminate.
  - refine (proj2 (proj2 (proj2 (finish_quest_by_the_draw q
              (Classes.Build_Player 8 None 2 0 0 ∅ 3 0)))) _ 11 _);
      [reflexivity|discriminate].
Defined.

(** * Properties of the record of the highest quests *)

(** X25.  Without its file, or with a JSON object in it, the record
    cannot be used.  [load_from_file] returns a plain dict when there is
    no file, on which [update] is a [TypeError] and
    [is_quest_number_too_low] an [AttributeError]; and the keys of a dict
    that was read from a JSON object are strings, so that with such a
    file every [update] and every [is_quest_number_too_low] is a
    [KeyError]. *)
Theorem highest_quests_need_a_list (file : option Manager.json)
    (zone : Classes.Zone) (zone_id progress n : Z) :
  (file = None ->
   Manager.update (Manager.load_from_file file) file zone_id progress
   = Raise TypeError /\
   Manager.is_quest_number_too_low (Manager.load_from_file file) zone n
   = Raise AttributeError) /\
  (forall d, file = Some (Manager.JObject d) ->
   Manager.update (Manager.load_from_file file) file zone_id progress
   = Raise KeyError /\
   Manager.is_quest_number_too_low (Manager.load_from_file file) zone n
   = Raise KeyError).
Proof.
  split.
  - intros ->. split; reflexivity.
  - intros d ->. split; reflexivity.
Qed.

Lemma highest_quests_need_a_list_witness :
  Manager.update (Manager.load_from_file None) None 1 4 = Raise TypeError /\
  Manager.update (Manager.load_from_file (Some (Manager.JObject {[ "1" := 3 ]})))
    (Some (Manager.JObject {[ "1" := 3 ]})) 1 4 = Raise KeyError.
Proof.
  split.
  - exact (proj1 (proj1 (highest_quests_need_a_list None
                           (Classes.Build_Zone 1 1) 1 4 0) eq_refl)).
  - exact (proj1 (proj2 (highest_quests_need_a_list
                           (Some (Manager.JObject {[ "1" := 3 ]}))
                           (Classes.Build_Zone 1 1) 1 4 0)
                    {[ "1" := 3 ]} eq_refl)).
Defined.

Lemma list_set_in_range (l : list Z) (i : nat) (v : Z) :
  Manager.list_set l (Z.of_nat i) v = <[i := v]> l.
Proof.
  unfold Manager.list_set.
  destruct (Z.ltb_spec (Z.of_nat i) 0) as [?|_]; [lia|].
  rewrite Nat2Z.id. reflexivity.
Qed.

(** X26.  With a list in the file, [update] keeps the highest quest of a
    zone: at a position of the list it stores the progress when that is
    higher than the entry, and then writes the file; otherwise it leaves
    the list and the file alone.  The entry for a zone ends as the higher
    of the two, and no other entry changes.  [is_quest_number_too_low]
    reads the entry one position before the id of the zone, not the one
    [update] writes for that id. *)
Theorem update_keeps_the_highest (l : list Z) (file : option Manager.json)
    (i : nat) (current progress : Z) :
  l !! i = Some current ->
  exists l',
    Manager.update (Manager.HighestQuests (Manager.JArray l)) file
      (Z.of_nat i) progress
    = Return (Manager.HighestQuests (Manager.JArray l'),
              if current <? progress then Some (Manager.JArray l') else file) /\
    l' = <[i := Z.max current progress]> l /\
    (forall n zone,
       Classes.zone_id zone = Z.of_nat i ->
       Manager.is_quest_number_too_low
         (Manager.HighestQuests (Manager.JArray l')) zone n
       = let* highest := py_list_get l' (Z.of_nat i - 1) in
         Return (n <? highest + 5)).
Proof.
  intros Hl. exists (<[i := Z.max current progress]> l).
  split; [|split; [reflexivity|]].
  - unfold Manager.update, Manager.data_get.
    rewrite (py_list_get_in_range l (Z.of_nat i) current)
      by (lia || (rewrite Nat2Z.id; exact Hl)).
    cbn [bind].
    destruct (Z.ltb_spec current progress) as [Hlt|Hge].
    + rewrite list_set_in_range, Z.max_r by lia. reflexivity.
    + rewrite Z.max_l by lia. rewrite list_insert_id by exact Hl. reflexivity.
  - intros n zone Hz. unfold Manager.is_quest_number_too_low, Manager.data_get.
    rewrite Hz. reflexivity.
Qed.

Lemma update_keeps_the_highest_witness :
  exists l',
    Manager.update (Manager.HighestQuests (Manager.JArray [3; 8; 2])) None 1 5
    = Return (Manager.HighestQuests (Manager.JArray l'), None) /\
    l' = [3; 8; 2] /\
    (forall n zone,
       Classes.zone_id zone = 1 ->
       Manager.is_quest_number_too_low
         (Manager.HighestQuests (Manager.JArray l')) zone n
       = let* highest := py_list_get l' (1 - 1) in Return (n <? highest + 5)).
Proof.
  exact (update_keeps_the_highest [3; 8; 2] None 1%nat 8 5 eq_refl).
Defined.
